(** * khimera.plugins.create: the [Plugin] aggregate over a Python object store

    The module under study is [src/khimera/plugins/create.py].  Its class
    [Plugin] maps field keys to component sets; it is built by
    [__init__], mutated through [add] and [remove], read through [get]
    and [filter], and duplicated by [copy].  Every object involved
    (the plugin, its [components] mapping, each component set, each
    component) is a mutable Python object reached through references, so
    the embedding threads an explicit store of objects through a small
    state-and-exception monad: a location is a position in the store, an
    allocation extends the store, and an exception leaves the store as
    the code had written it so far.

    The methods of [Plugin] follow the source line by line.  The classes
    it imports ([TypeConstrainedList], [TypeConstrainedDict],
    [ComponentSet], [Component]) are in modules that are not among the
    files under study; their operations follow the specification and are
    marked as such. *)

From Stdlib Require Import ZArith String List Bool Lia.
From stdpp Require Import base list strings.

Local Open Scope string_scope.
Local Open Scope list_scope.

(** ** Values, classes and objects *)

Abbreviation loc := nat (only parsing).
Abbreviation cls := string (only parsing).

(** Python values: the atoms the module can meet, and references. *)
Inductive val :=
| VNone
| VStr (s : string)
| VInt (z : Z)
| VRef (l : loc).

(** The built-in exceptions the module can raise or let through. *)
Inductive exn :=
| TypeError
| KeyError
| ValueError
| IndexError
| StopIteration
| AttributeError.

(** An instance of a user class: its method resolution order, the [name]
    attribute when it has one, the owner recorded by [attach], and
    whether its class provides an [attach] method. *)
Record instance := Instance {
  i_mro : list cls;
  i_name : option string;
  i_owner : option string;
  i_attach : bool
}.

(** Store objects.  A list carries its element constraint ([None] for the
    built-in [list]); a dict carries its key and value constraints ([None]
    for the built-in [dict]) and keeps its items in insertion order. *)
Inductive obj :=
| OInst (i : instance)
| OList (mro : list cls) (elt : option cls) (items : list val)
| ODict (mro : list cls) (kv : option (cls * cls)) (items : list (val * val))
| OPlugin (model : val) (name : string) (version : option string)
          (components : val).

Abbreviation heap := (list obj) (only parsing).

Definition val_eqb (a b : val) : bool :=
  match a, b with
  | VNone, VNone => true
  | VStr s, VStr t => String.eqb s t
  | VInt x, VInt y => Z.eqb x y
  | VRef l, VRef m => Nat.eqb l m
  | _, _ => false
  end.

Definition exn_eqb (a b : exn) : bool :=
  match a, b with
  | TypeError, TypeError | KeyError, KeyError | ValueError, ValueError
  | IndexError, IndexError | StopIteration, StopIteration
  | AttributeError, AttributeError => true
  | _, _ => false
  end.

(** ** Class names *)

Definition Component : cls := "Component".
Definition ComponentSet : cls := "ComponentSet".
Definition str : cls := "str".

Definition list_mro : list cls := ["list"; "object"].
Definition dict_mro : list cls := ["dict"; "object"].
Definition Plugin_mro : list cls := ["Plugin"; "object"].
Definition ComponentSet_mro : list cls :=
  [ComponentSet; "TypeConstrainedList"; "object"].
Definition TypeConstrainedDict_mro : list cls :=
  ["TypeConstrainedDict"; "object"].

Definition obj_mro (o : obj) : list cls :=
  match o with
  | OInst i => i_mro i
  | OList mro _ _ => mro
  | ODict mro _ _ => mro
  | OPlugin _ _ _ _ => Plugin_mro
  end.

Definition mro_of (h : heap) (v : val) : list cls :=
  match v with
  | VNone => ["NoneType"; "object"]
  | VStr _ => [str; "object"]
  | VInt _ => ["int"; "object"]
  | VRef l => match h !! l with Some o => obj_mro o | None => [] end
  end.

(** [isinstance(v, c)]: [c] occurs in the method resolution order of the
    class of [v]. *)
Definition isinstance (h : heap) (v : val) (c : cls) : bool :=
  existsb (String.eqb c) (mro_of h v).

(** ** The state-and-exception monad *)

(** [Wrong] marks a run that left the fragment of Python modelled here (a
    dangling reference, a receiver of an unexpected kind). *)
Inductive outcome (A : Type) :=
| Ok (a : A)
| Raise (e : exn)
| Wrong.
Arguments Ok {A} a.
Arguments Raise {A} e.
Arguments Wrong {A}.

Definition M (A : Type) : Type := heap -> outcome A * heap.

Definition ret {A} (a : A) : M A := fun h => (Ok a, h).

Definition bind {A B} (m : M A) (k : A -> M B) : M B :=
  fun h =>
    match m h with
    | (Ok a, h') => k a h'
    | (Raise e, h') => (Raise e, h')
    | (Wrong, h') => (Wrong, h')
    end.

Definition raise {A} (e : exn) : M A := fun h => (Raise e, h).
Definition wrong {A} : M A := fun h => (Wrong, h).

Notation "'let*' x ':=' m 'in' k" := (bind m (fun x => k))
  (at level 10, x name, m at level 100, k at level 200).
Notation "m '>>' k" := (bind m (fun _ => k))
  (at level 62, right associativity).

(** [try: m except e: handler]. *)
Definition try_except {A} (m : M A) (e : exn) (handler : M A) : M A :=
  fun h =>
    match m h with
    | (Raise e', h') => if exn_eqb e e' then handler h' else (Raise e', h')
    | r => r
    end.

Definition deref (l : loc) : M obj :=
  fun h => match h !! l with Some o => (Ok o, h) | None => (Wrong, h) end.

Definition store (l : loc) (o : obj) : M unit :=
  fun h => (Ok tt, <[l := o]> h).

Definition alloc (o : obj) : M loc :=
  fun h => (Ok (length h), h ++ [o]).

Definition get_heap : M heap := fun h => (Ok h, h).

Definition check_type (v : val) (c : option cls) : M unit :=
  match c with
  | None => ret tt
  | Some c =>
      let* h := get_heap in
      if isinstance h v c then ret tt else raise TypeError
  end.

(** ** Constrained collections

    [khimera.utils.factories] is not part of the sources at hand; the two
    containers are modelled from the specification, sections 3, 4.1 and
    4.2. *)

(** Python's index normalisation for [l[i]]: a negative index counts
    from the end; out of range is an [IndexError]. *)
Definition norm_index (len : nat) (i : Z) : option nat :=
  let j := if (i <? 0)%Z then (i + Z.of_nat len)%Z else i in
  if ((0 <=? j) && (j <? Z.of_nat len))%Z then Some (Z.to_nat j) else None.

(** Python's clamping for [l.insert(i, x)]. *)
Definition clamp_index (len : nat) (i : Z) : nat :=
  let j := if (i <? 0)%Z then (i + Z.of_nat len)%Z else i in
  if (j <? 0)%Z then 0
  else if (Z.of_nat len <? j)%Z then len else Z.to_nat j.

(** Modelled from the spec: [TypeConstrainedList(T, data)], section 4.1:
    the constructor accepts the element type and an optional initial
    sequence and fails with [TypeError] if an initial element does not
    satisfy [T]. *)
Definition new_TypeConstrainedList (mro : list cls) (T : cls)
    (data : list val) : M val :=
  let* h := get_heap in
  if forallb (fun x => isinstance h x T) data
  then let* a := alloc (OList mro (Some T) data) in ret (VRef a)
  else raise TypeError.

(** Modelled from the spec: [ComponentSet()], section 2: a constrained
    list specialised to the [Component] contract. *)
Definition new_ComponentSet : M val :=
  new_TypeConstrainedList ComponentSet_mro Component [].

(** Modelled from the spec: [append] of section 4.1: the candidate is
    checked against [T] before it is stored.  On a built-in list nothing
    is checked. *)
Definition list_append (l x : val) : M unit :=
  match l with
  | VRef a =>
      let* o := deref a in
      match o with
      | OList mro elt items =>
          check_type x elt >> store a (OList mro elt (items ++ [x]))
      | _ => wrong
      end
  | _ => wrong
  end.

(** Modelled from the spec: [insert] of section 4.1. *)
Definition list_insert (l : val) (i : Z) (x : val) : M unit :=
  match l with
  | VRef a =>
      let* o := deref a in
      match o with
      | OList mro elt items =>
          let j := clamp_index (length items) i in
          check_type x elt >>
          store a (OList mro elt (take j items ++ x :: drop j items))
      | _ => wrong
      end
  | _ => wrong
  end.

(** Modelled from the spec: assignment by index of section 4.1. *)
Definition list_setitem (l : val) (i : Z) (x : val) : M unit :=
  match l with
  | VRef a =>
      let* o := deref a in
      match o with
      | OList mro elt items =>
          check_type x elt >>
          match norm_index (length items) i with
          | Some j => store a (OList mro elt (<[j := x]> items))
          | None => raise IndexError
          end
      | _ => wrong
      end
  | _ => wrong
  end.

(** Modelled from the spec: [extend] of section 4.1: every candidate is
    checked before any is stored. *)
Definition list_extend (l : val) (xs : list val) : M unit :=
  match l with
  | VRef a =>
      let* o := deref a in
      match o with
      | OList mro elt items =>
          let* h := get_heap in
          if match elt with
             | Some T => forallb (fun x => isinstance h x T) xs
             | None => true
             end
          then store a (OList mro elt (items ++ xs))
          else raise TypeError
      | _ => wrong
      end
  | _ => wrong
  end.

(** A slice [start:stop:step], each part optional. *)
Record slice := Slice {
  s_start : option Z;
  s_stop : option Z;
  s_step : option Z
}.

(** Python's adjustment of a bound of a slice to a sequence of length
    [len]: a negative bound counts from the end, and a bound that is out
    of range is clamped, to the end a walk with this [step] starts
    from. *)
Definition adjust_bound (len : nat) (step : Z) (i : Z) : Z :=
  let n := Z.of_nat len in
  if (i <? 0)%Z
  then let j := (i + n)%Z in
       if (j <? 0)%Z then (if (step <? 0)%Z then -1 else 0)%Z else j
  else if (n <=? i)%Z then (if (step <? 0)%Z then n - 1 else n)%Z
       else i.

(** Python's [slice.indices(len)]: the start, stop and step of the walk;
    a step of zero is a [ValueError]. *)
Definition slice_indices (len : nat) (s : slice) : option (Z * Z * Z) :=
  let n := Z.of_nat len in
  let step := match s_step s with Some k => k | None => 1%Z end in
  if (step =? 0)%Z then None
  else
    let start :=
      match s_start s with
      | Some i => adjust_bound len step i
      | None => if (step <? 0)%Z then (n - 1)%Z else 0%Z
      end in
    let stop :=
      match s_stop s with
      | Some i => adjust_bound len step i
      | None => if (step <? 0)%Z then (-1)%Z else n
      end in
    Some (start, stop, step).

(** The number of positions that the walk visits. *)
Definition slice_length (start stop step : Z) : nat :=
  if (step <? 0)%Z
  then if (stop <? start)%Z
       then Z.to_nat ((start - stop - 1) / (- step) + 1) else 0
  else if (start <? stop)%Z
       then Z.to_nat ((stop - start - 1) / step + 1) else 0.

(** The items of [xs] assigned at [pos], [pos + step], ... in turn. *)
Fixpoint assign_each (items : list val) (pos step : Z) (xs : list val)
    : list val :=
  match xs with
  | [] => items
  | x :: rest =>
      assign_each (<[Z.to_nat pos := x]> items) (pos + step)%Z step rest
  end.

(** Modelled from the spec: assignment by slice of section 4.1,
    [l[start:stop:step] = xs]: every candidate is checked before any is
    stored.  A slice of step 1 is replaced by [xs] whatever their
    lengths; with another step the lengths must agree, or the assignment
    is a [ValueError]. *)
Definition list_setslice (l : val) (s : slice) (xs : list val) : M unit :=
  match l with
  | VRef a =>
      let* o := deref a in
      match o with
      | OList mro elt items =>
          let* h := get_heap in
          if match elt with
             | Some T => forallb (fun x => isinstance h x T) xs
             | None => true
             end
          then
            match slice_indices (length items) s with
            | None => raise ValueError
            | Some (start, stop, step) =>
                if (step =? 1)%Z
                then store a (OList mro elt
                       (take (Z.to_nat start) items ++ xs
                        ++ drop (Z.to_nat (Z.max start stop)) items))
                else if Nat.eqb (length xs) (slice_length start stop step)
                     then store a (OList mro elt
                            (assign_each items start step xs))
                     else raise ValueError
            end
          else raise TypeError
      | _ => wrong
      end
  | _ => wrong
  end.

Fixpoint remove_first (x : val) (xs : list val) : option (list val) :=
  match xs with
  | [] => None
  | y :: ys =>
      if val_eqb y x then Some ys
      else option_map (cons y) (remove_first x ys)
  end.

(** [l.remove(x)]: removal by value of section 4.1, the first item equal
    to [x]; [ValueError] if there is none.  Components compare by
    identity. *)
Definition list_remove (l x : val) : M unit :=
  match l with
  | VRef a =>
      let* o := deref a in
      match o with
      | OList mro elt items =>
          match remove_first x items with
          | Some items' => store a (OList mro elt items')
          | None => raise ValueError
          end
      | _ => wrong
      end
  | _ => wrong
  end.

(** The items an iteration over [l] yields. *)
Definition list_items (l : val) : M (list val) :=
  match l with
  | VRef a =>
      let* o := deref a in
      match o with
      | OList _ _ items => ret items
      | _ => wrong
      end
  | _ => wrong
  end.

Fixpoint assoc (k : val) (kvs : list (val * val)) : option val :=
  match kvs with
  | [] => None
  | (k', v) :: rest => if val_eqb k' k then Some v else assoc k rest
  end.

(** Assignment keeps the position of a key already present and puts a
    new key last. *)
Fixpoint assoc_set (k v : val) (kvs : list (val * val)) : list (val * val) :=
  match kvs with
  | [] => [(k, v)]
  | (k', v') :: rest =>
      if val_eqb k' k then (k', v) :: rest else (k', v') :: assoc_set k v rest
  end.

(** Deletion drops the entry of the key (a dict has at most one). *)
Definition assoc_del (k : val) (kvs : list (val * val)) : list (val * val) :=
  List.filter (fun e => negb (val_eqb (fst e) k)) kvs.

(** Modelled from the spec: [TypeConstrainedDict(K, V)], section 4.2,
    without initial mapping. *)
Definition new_TypeConstrainedDict (K V : cls) : M val :=
  let* a := alloc (ODict TypeConstrainedDict_mro (Some (K, V)) []) in
  ret (VRef a).

(** [k in d]. *)
Definition dict_contains (d k : val) : M bool :=
  match d with
  | VRef a =>
      let* o := deref a in
      match o with
      | ODict _ _ items =>
          ret (match assoc k items with Some _ => true | None => false end)
      | _ => wrong
      end
  | _ => wrong
  end.

(** [d[k]]; a missing key is a [KeyError]. *)
Definition dict_getitem (d k : val) : M val :=
  match d with
  | VRef a =>
      let* o := deref a in
      match o with
      | ODict _ _ items =>
          match assoc k items with
          | Some v => ret v
          | None => raise KeyError
          end
      | _ => wrong
      end
  | _ => wrong
  end.

(** [hash(k)], which a dict takes of every key it stores: the built-in
    lists and dicts, and the constrained collections that derive from
    them, are unhashable, a [TypeError]; other objects hash by identity,
    as Python objects do by default. *)
Definition check_hashable (k : val) : M unit :=
  match k with
  | VRef l =>
      let* o := deref l in
      match o with
      | OList _ _ _ | ODict _ _ _ => raise TypeError
      | _ => ret tt
      end
  | _ => ret tt
  end.

(** Modelled from the spec: [__setitem__] of section 4.2: fails with
    [TypeError] if the key does not satisfy [K] or the value does not
    satisfy [V]; otherwise inserts or overwrites, as a built-in dict
    does: under a hashable key only.  On a built-in dict there is no
    constraint to check. *)
Definition dict_setitem (d k v : val) : M unit :=
  match d with
  | VRef a =>
      let* o := deref a in
      match o with
      | ODict mro kv items =>
          check_type k (option_map fst kv) >>
          check_type v (option_map snd kv) >>
          check_hashable k >>
          store a (ODict mro kv (assoc_set k v items))
      | _ => wrong
      end
  | _ => wrong
  end.

(** [del d[k]]; a missing key is a [KeyError]. *)
Definition dict_delitem (d k : val) : M unit :=
  match d with
  | VRef a =>
      let* o := deref a in
      match o with
      | ODict mro kv items =>
          match assoc k items with
          | Some _ => store a (ODict mro kv (assoc_del k items))
          | None => raise KeyError
          end
      | _ => wrong
      end
  | _ => wrong
  end.

(** [d.get(k, default)]. *)
Definition dict_get (d k default : val) : M val :=
  match d with
  | VRef a =>
      let* o := deref a in
      match o with
      | ODict _ _ items =>
          ret (match assoc k items with Some v => v | None => default end)
      | _ => wrong
      end
  | _ => wrong
  end.

(** [d.items()], in insertion order. *)
Definition dict_items (d : val) : M (list (val * val)) :=
  match d with
  | VRef a =>
      let* o := deref a in
      match o with
      | ODict _ _ items => ret items
      | _ => wrong
      end
  | _ => wrong
  end.

(** ** Components

    [khimera.components.core] is not part of the sources at hand. *)

(** The instance with [n] recorded as its owner, whatever owner it had. *)
Definition stamp (n : string) (i : instance) : instance :=
  Instance (i_mro i) (i_name i) (Some n) (i_attach i).

(** Modelled from the spec: [Component.attach(providerName)], sections 3
    and 6: the component records the name of the plugin that attached
    it, overwriting any owner recorded before.  A value whose class has
    no [attach] raises [AttributeError]. *)
Definition attach (c : val) (plugin_name : string) : M unit :=
  match c with
  | VRef a =>
      let* o := deref a in
      match o with
      | OInst i =>
          if i_attach i then store a (OInst (stamp plugin_name i))
          else raise AttributeError
      | _ => raise AttributeError
      end
  | _ => raise AttributeError
  end.

(** [c.name]; a value without that attribute raises [AttributeError]. *)
Definition attr_name (c : val) : M string :=
  match c with
  | VRef a =>
      let* o := deref a in
      match o with
      | OInst i =>
          match i_name i with
          | Some n => ret n
          | None => raise AttributeError
          end
      | OPlugin _ n _ _ => ret n
      | _ => raise AttributeError
      end
  | _ => raise AttributeError
  end.

(** ** The class [Plugin] *)

(** [self.components]. *)
Definition self_components (self : loc) : M val :=
  let* o := deref self in
  match o with
  | OPlugin _ _ _ c => ret c
  | _ => wrong
  end.

(** [self.name]. *)
Definition self_name (self : loc) : M string :=
  let* o := deref self in
  match o with
  | OPlugin _ n _ _ => ret n
  | _ => wrong
  end.

(** [Plugin.add], lines 127-131. *)
Definition add (self : loc) (key : string) (contrib : val) : M val :=
  let* comps := self_components self in
  let* present := dict_contains comps (VStr key) in
  (if negb present
   then let* cs := new_ComponentSet in
        let* comps := self_components self in
        dict_setitem comps (VStr key) cs
   else ret tt) >>
  let* n := self_name self in
  attach contrib n >>
  let* comps := self_components self in
  let* cs := dict_getitem comps (VStr key) in
  list_append cs contrib >>
  ret (VRef self).

(** [next(contrib for contrib in items if contrib.name == contrib_name)]:
    the first item with that name; an exhausted generator raises
    [StopIteration]. *)
Fixpoint next_named (contrib_name : string) (items : list val) : M val :=
  match items with
  | [] => raise StopIteration
  | contrib :: rest =>
      let* n := attr_name contrib in
      if String.eqb n contrib_name then ret contrib
      else next_named contrib_name rest
  end.

(** [Plugin.remove], lines 157-167. *)
Definition remove (self : loc) (key : string)
    (contrib_name : option string) : M val :=
  let* comps := self_components self in
  let* present := dict_contains comps (VStr key) in
  if negb present then raise KeyError
  else
    match contrib_name with
    | None =>
        let* comps := self_components self in
        dict_delitem comps (VStr key)
    | Some contrib_name =>
        try_except
          (let* comps := self_components self in
           let* cs := dict_getitem comps (VStr key) in
           let* items := list_items cs in
           let* contrib := next_named contrib_name items in
           let* comps := self_components self in
           let* cs := dict_getitem comps (VStr key) in
           list_remove cs contrib)
          ValueError
          (raise ValueError)
    end >>
    ret (VRef self).

(** [Plugin.get], line 183: the default [[]] is a fresh built-in list. *)
Definition get (self : loc) (key : string) : M val :=
  let* comps := self_components self in
  let* default := alloc (OList list_mro None []) in
  dict_get comps (VStr key) (VRef default).

(** The dict comprehension of line 201: the pairs of [items] whose value
    holds at least one instance of [category], each with its value as it
    is. *)
Fixpoint filter_items (category : cls) (items : list (val * val))
    : M (list (val * val)) :=
  match items with
  | [] => ret []
  | (key, contribs) :: rest =>
      let* xs := list_items contribs in
      let* h := get_heap in
      let* rest' := filter_items category rest in
      ret (if existsb (fun item => isinstance h item category) xs
           then (key, contribs) :: rest' else rest')
  end.

(** [Plugin.filter], lines 200-202. *)
Definition filter (self : loc) (category : option cls) : M val :=
  match category with
  | Some category =>
      let* comps := self_components self in
      let* items := dict_items comps in
      let* kept := filter_items category items in
      let* d := alloc (ODict dict_mro None kept) in
      ret (VRef d)
  | None => self_components self
  end.

(** The parameters that the signature of lines 88-93 names. *)
Definition Plugin_parameters : list string :=
  ["self"; "model"; "name"; "version"].

(** No name occurs twice in [names]. *)
Fixpoint distinct_names (names : list string) : bool :=
  match names with
  | [] => true
  | n :: rest => negb (existsb (String.eqb n) rest) && distinct_names rest
  end.

(** The keywords that a call can leave to [**kwargs]: none of them is the
    name of a parameter, and none is given twice. *)
Definition bindable (kwargs : list (string * val)) : bool :=
  forallb (fun kv => negb (existsb (String.eqb (fst kv)) Plugin_parameters))
    kwargs
  && distinct_names (map fst kwargs).

(** The call [Plugin(model, name, version, **kwargs)], lines 88-99, with
    the three parameters given by the caller.  Binding the arguments
    comes first: a keyword that names a parameter, or that is given twice,
    is a [TypeError] before the body runs.  Then the body, lines
    94-99. *)
Definition Plugin_init (model : val) (name : string)
    (version : option string) (kwargs : list (string * val)) : M loc :=
  if bindable kwargs then
    let* self := alloc (OPlugin model name version VNone) in
    let* d := new_TypeConstrainedDict str ComponentSet in
    store self (OPlugin model name version d) >>
    (fix each (kw : list (string * val)) : M unit :=
       match kw with
       | [] => ret tt
       | (key, value) :: rest => add self key value >> each rest
       end) kwargs >>
    ret self
  else raise TypeError.

(** ** [copy.deepcopy]

    [copy.deepcopy] duplicates every object it reaches from its argument
    once (its memo table keeps the sharing among the duplicates) and leaves
    atoms as they are.  Locations being positions in the store, the
    duplicate of the object at [l] is put at [l + length h], and every
    reference inside a duplicate is redirected the same way.  Objects that
    the argument does not reach are duplicated too; no reference leads to
    those duplicates. *)

Definition shift_val (n : nat) (v : val) : val :=
  match v with
  | VRef l => VRef (l + n)
  | _ => v
  end.

Definition shift_obj (n : nat) (o : obj) : obj :=
  match o with
  | OInst i => OInst i
  | OList mro elt items => OList mro elt (map (shift_val n) items)
  | ODict mro kv items =>
      ODict mro kv (map (fun kv => (shift_val n (fst kv), shift_val n (snd kv))) items)
  | OPlugin model name version components =>
      OPlugin (shift_val n model) name version (shift_val n components)
  end.

Definition deepcopy (v : val) : M val :=
  fun h => (Ok (shift_val (length h) v), h ++ map (shift_obj (length h)) h).

(** [Plugin.copy], line 217. *)
Definition copy (self : loc) : M val := deepcopy (VRef self).

(** ** Reading the store *)

(** The items of the list that [v] refers to. *)
Definition items_of (h : heap) (v : val) : option (list val) :=
  match v with
  | VRef a =>
      match h !! a with
      | Some (OList _ _ items) => Some items
      | _ => None
      end
  | _ => None
  end.

(** The [components] attribute of the plugin at [p]. *)
Definition components_of (h : heap) (p : loc) : option val :=
  match h !! p with
  | Some (OPlugin _ _ _ c) => Some c
  | _ => None
  end.

(** The items of the mapping that [v] refers to. *)
Definition entries_of (h : heap) (v : val) : option (list (val * val)) :=
  match v with
  | VRef a =>
      match h !! a with
      | Some (ODict _ _ items) => Some items
      | _ => None
      end
  | _ => None
  end.

(** The owner recorded in the component that [v] refers to. *)
Definition owner_of (h : heap) (v : val) : option string :=
  match v with
  | VRef a =>
      match h !! a with
      | Some (OInst i) => i_owner i
      | _ => None
      end
  | _ => None
  end.

(** The name of the plugin at [p]. *)
Definition plugin_name (h : heap) (p : loc) : option string :=
  match h !! p with
  | Some (OPlugin _ n _ _) => Some n
  | _ => None
  end.

(** The [name] attribute of the instance that [v] refers to. *)
Definition name_of (h : heap) (v : val) : option string :=
  match v with
  | VRef a =>
      match h !! a with
      | Some (OInst i) => i_name i
      | _ => None
      end
  | _ => None
  end.

(** The value stored under [key] in the [components] mapping of [p]. *)
Definition slot_of (h : heap) (p : loc) (key : string) : option val :=
  match components_of h p with
  | Some comps =>
      match entries_of h comps with
      | Some items => assoc (VStr key) items
      | None => None
      end
  | None => None
  end.

(** The components held under [key]: the items of the stored set, and
    nothing when the key is absent. *)
Definition field_of (h : heap) (p : loc) (key : string) : list val :=
  match slot_of h p key with
  | Some cs => match items_of h cs with Some xs => xs | None => [] end
  | None => []
  end.

(** ** Well-formed states *)

(** [v] refers to an instance of [Component]: its class has [Component]
    in its resolution order and therefore provides [attach], and the
    instance has a [name]. *)
Definition is_component (h : heap) (v : val) : bool :=
  match v with
  | VRef c =>
      match h !! c with
      | Some (OInst i) =>
          existsb (String.eqb Component) (i_mro i) && i_attach i
          && match i_name i with Some _ => true | None => false end
      | _ => false
      end
  | _ => false
  end.

(** [v] refers to a component set as [ComponentSet()] builds it. *)
Definition is_component_set (h : heap) (v : val) : bool :=
  match v with
  | VRef a =>
      match h !! a with
      | Some (OList _ (Some T) _) => String.eqb T Component
      | _ => false
      end
  | _ => false
  end.

(** [p] is a plugin as [Plugin.__init__] and [Plugin.add] build it: its
    [components] attribute refers to a [TypeConstrainedDict(str,
    ComponentSet)] whose values are component sets. *)
Definition plugin_ok (h : heap) (p : loc) : bool :=
  match components_of h p with
  | Some (VRef d) =>
      match h !! d with
      | Some (ODict _ (Some (K, V)) items) =>
          String.eqb K str && String.eqb V ComponentSet
          && forallb (fun kv => is_component_set h (snd kv)) items
      | _ => false
      end
  | _ => false
  end.

(** The cells an [add] or a [remove] on the plugin at [p] may write: the
    [components] mapping of [p], the set stored under [key], and the
    contribution when it is an instance ([VNone] stands for no
    contribution). *)
Definition touched (h : heap) (p : loc) (key : string) (contrib : val)
    (l : loc) : Prop :=
  components_of h p = Some (VRef l)
  \/ slot_of h p key = Some (VRef l)
  \/ (contrib = VRef l /\ exists i, h !! l = Some (OInst i)).

(** A mutating call on a plugin. *)
Inductive op :=
| Add (key : string) (contrib : val)
| Remove (key : string) (contrib_name : option string).

Definition run_op (self : loc) (o : op) : M val :=
  match o with
  | Add key contrib => add self key contrib
  | Remove key contrib_name => remove self key contrib_name
  end.

(** The store after a sequence of calls on the plugin at [self], whatever
    the outcome of each (a caller may catch an exception and go on). *)
Fixpoint run_ops (self : loc) (os : list op) (h : heap) : heap :=
  match os with
  | [] => h
  | o :: rest => run_ops self rest (snd (run_op self o h))
  end.

(** The plugin at [p] is well formed, and neither its mapping nor any of
    its sets lies in the range from [lo] to [hi], a range of cells that
    are all allocated. *)
Definition clear_of (h : heap) (p : loc) (lo hi : nat) : Prop :=
  plugin_ok h p = true
  /\ hi <= length h
  /\ forall d, components_of h p = Some (VRef d) ->
       ~ lo <= d < hi
       /\ forall items e l,
            entries_of h (VRef d) = Some items -> In e items ->
            snd e = VRef l -> ~ lo <= l < hi.

(** Isolation of the plugin [observer], whose cells lie in the range from
    [lo] to [hi], from the plugin [actor] in the store [h]: whatever
    sequence of [add]s and [remove]s is run on [actor], and whatever
    their outcomes, no cell of the range is written, except that an [add]
    stamps its own argument, and every field of [observer] reads as
    before. *)
Definition isolated_from (h : heap) (actor observer : loc) (lo hi : nat)
    : Prop :=
  forall os,
    (forall l, lo <= l < hi ->
       (forall key, ~ In (Add key (VRef l)) os) ->
       run_ops actor os h !! l = h !! l)
    /\ forall key,
         field_of (run_ops actor os h) observer key = field_of h observer key.

(** [o'] is the object [o], up to the owner that an instance records. *)
Definition same_but_owner (o o' : obj) : Prop :=
  match o, o' with
  | OInst i, OInst i' =>
      i_mro i' = i_mro i /\ i_name i' = i_name i /\ i_attach i' = i_attach i
  | _, _ => o' = o
  end.

(** Whatever sequence of [add]s and [remove]s is run on [actor], and
    whatever their outcomes, every object of the range from [lo] to [hi]
    stays what it was, up to the owner that it records. *)
Definition kept_but_owner (h : heap) (actor : loc) (lo hi : nat) : Prop :=
  forall os l o,
    lo <= l < hi -> h !! l = Some o ->
    exists o', run_ops actor os h !! l = Some o' /\ same_but_owner o o'.

(** No item of [xs] is an instance named [nm]. *)
Definition no_component_named (h : heap) (nm : string) (xs : list val) : bool :=
  forallb (fun x => match name_of h x with
                    | Some n => negb (String.eqb n nm)
                    | None => false
                    end) xs.

(** The list that [v] refers to holds at least one instance of
    [category]. *)
Definition holds_instance (h : heap) (category : cls) (v : val) : bool :=
  match items_of h v with
  | Some xs => existsb (fun item => isinstance h item category) xs
  | None => false
  end.

(** ** How [add] changes the store *)

(** [add] only ever allocates, stamps an instance, appends to a list and
    enters, under a new key, a component set allocated at [n0] or later:
    an object and what it may have become. *)
Definition grows_to (n0 : nat) (h' : heap) (o o' : obj) : Prop :=
  match o, o' with
  | OInst i, OInst i' =>
      i_mro i' = i_mro i /\ i_name i' = i_name i /\ i_attach i' = i_attach i
  | OList mro elt xs, OList mro' elt' xs' =>
      mro' = mro /\ elt' = elt /\ (forall x, In x xs -> In x xs')
  | ODict mro kv items, ODict mro' kv' items' =>
      mro' = mro /\ kv' = kv
      /\ (forall k v, assoc k items = Some v -> assoc k items' = Some v)
      /\ (forall e, In e items' ->
            In e items
            \/ (is_component_set h' (snd e) = true
                /\ exists l, snd e = VRef l /\ n0 <= l))
  | OPlugin _ _ _ _, _ => o' = o
  | _, _ => False
  end.

(** Every object of [h] is still in [h'], possibly grown. *)
Definition evolves (h h' : heap) : Prop :=
  length h <= length h'
  /\ forall l o, h !! l = Some o ->
       exists o', h' !! l = Some o' /\ grows_to (length h) h' o o'.

(** ** Example states *)

Definition command (n : string) : obj :=
  OInst (Instance ["Command"; Component; "object"] (Some n) None true).

(** An object of a class outside the [Component] hierarchy that provides
    [name] and [attach] all the same. *)
Definition lookalike (n : string) : obj :=
  OInst (Instance ["Lookalike"; "object"] (Some n) None true).

(** Four objects a provider has created: three commands and a
    lookalike. *)
Definition provider_store : heap :=
  [command "CommandA"; command "CommandB"; command "CommandC";
   lookalike "Other"].

(** The store after [Plugin(model=None, name="p", version="1.0")]: the
    plugin is at location 4, its mapping at location 5. *)
Definition fresh_plugin_store : heap :=
  Eval vm_compute in snd (Plugin_init VNone "p" (Some "1.0") [] provider_store).

(** The store after [add("cmds", CommandA)] on that plugin: the set of
    ["cmds"] is at location 6. *)
Definition one_command_store : heap :=
  Eval vm_compute in snd (add 4 "cmds" (VRef 0) fresh_plugin_store).

(** The store after [add("cmds", CommandB)] on top of that. *)
Definition two_commands_store : heap :=
  Eval vm_compute in snd (add 4 "cmds" (VRef 1) one_command_store).

(** A second plugin, ["q"], created next to the first one: it is at
    location 7, its mapping at location 8. *)
Definition two_plugins_store : heap :=
  Eval vm_compute in snd (Plugin_init VNone "q" None [] two_commands_store).

(** The two plugins after [q.add("tools", CommandA)]: ["p"] still holds
    [CommandA] under ["cmds"], and [CommandA] records ["q"] as its
    owner. *)
Definition shared_command_store : heap :=
  Eval vm_compute in snd (add 7 "tools" (VRef 0) two_plugins_store).

(** The plugin ["p"] after [CommandC] has been added under ["tools"] and
    removed again by its name: ["cmds"] holds two commands, ["tools"] an
    empty set. *)
Definition emptied_key_store : heap :=
  Eval vm_compute in
    run_ops 4 [Add "tools" (VRef 2); Remove "tools" (Some "CommandC")]
      two_commands_store.

(** The plugin ["p"] with its two commands, and a second command named
    ["CommandA"] that the provider has created since, at location 7. *)
Definition namesake_store : heap :=
  Eval vm_compute in two_commands_store ++ [command "CommandA"].

(** ** Mutations of a constrained collection *)

(** The operations of sections 4.1 and 4.2 that insert or assign. *)
Inductive mutation :=
| Append (l x : val)
| Insert (l : val) (i : Z) (x : val)
| SetIndex (l : val) (i : Z) (x : val)
| SetSlice (l : val) (s : slice) (xs : list val)
| Extend (l : val) (xs : list val)
| SetItem (d k v : val).

Definition run_mutation (mu : mutation) : M unit :=
  match mu with
  | Append l x => list_append l x
  | Insert l i x => list_insert l i x
  | SetIndex l i x => list_setitem l i x
  | SetSlice l s xs => list_setslice l s xs
  | Extend l xs => list_extend l xs
  | SetItem d k v => dict_setitem d k v
  end.

(** The constraint on the elements of the list that [l] refers to. *)
Definition element_constraint (h : heap) (l : val) : option cls :=
  match l with
  | VRef a =>
      match h !! a with
      | Some (OList _ elt _) => elt
      | _ => None
      end
  | _ => None
  end.

(** The constraints on the keys and values of the mapping that [d] refers
    to. *)
Definition item_constraint (h : heap) (d : val) : option (cls * cls) :=
  match d with
  | VRef a =>
      match h !! a with
      | Some (ODict _ kv _) => kv
      | _ => None
      end
  | _ => None
  end.

(** The mutation targets a constrained collection with a candidate that
    does not satisfy the declared constraint. *)
Definition ill_typed (h : heap) (mu : mutation) : bool :=
  match mu with
  | Append l x | Insert l _ x | SetIndex l _ x =>
      match element_constraint h l with
      | Some T => negb (isinstance h x T)
      | None => false
      end
  | SetSlice l _ xs | Extend l xs =>
      match element_constraint h l with
      | Some T => negb (forallb (fun x => isinstance h x T) xs)
      | None => false
      end
  | SetItem d k v =>
      match item_constraint h d with
      | Some (K, V) => negb (isinstance h k K) || negb (isinstance h v V)
      | None => false
      end
  end.

(** ** The constructor's loop, and plugins as the methods keep them *)

(** The loop of lines 98-99 on its own: [self.add(key=key, contrib=value)]
    for every keyword argument, in the order of the call. *)
Definition add_kwargs (self : loc) : list (string * val) -> M unit :=
  fix each (kw : list (string * val)) : M unit :=
    match kw with
    | [] => ret tt
    | (key, value) :: rest => add self key value >> each rest
    end.

(** The values that the keyword arguments give under [key], in order. *)
Definition given_under (key : string) (kwargs : list (string * val))
    : list val :=
  map snd (List.filter (fun kv => String.eqb (fst kv) key) kwargs).

(** [v] refers to an instance whose class provides [attach]. *)
Definition has_attach (h : heap) (v : val) : bool :=
  match v with
  | VRef c =>
      match h !! c with
      | Some (OInst i) => i_attach i
      | _ => false
      end
  | _ => false
  end.

(** [v] is a value that a dict takes as a key whatever the classes of
    the components are: an atom, or a plugin (the class [Plugin] defines
    neither [__eq__] nor [__hash__]). *)
Definition hashable (h : heap) (v : val) : bool :=
  match v with
  | VRef l =>
      match h !! l with
      | Some (OPlugin _ _ _ _) => true
      | _ => false
      end
  | _ => true
  end.

(** [v] is an atom, or refers to an object of the store. *)
Definition defined_in (h : heap) (v : val) : bool :=
  match v with
  | VRef l => match h !! l with Some _ => true | None => false end
  | _ => true
  end.

(** No value occurs twice in [xs]. *)
Fixpoint distinct (xs : list val) : bool :=
  match xs with
  | [] => true
  | x :: rest => negb (existsb (val_eqb x) rest) && distinct rest
  end.

(** The plugin at [p] is well formed and no two keys of its mapping
    share their component set. *)
Definition separate_sets (h : heap) (p : loc) : bool :=
  plugin_ok h p
  && match components_of h p with
     | Some comps =>
         match entries_of h comps with
         | Some items => distinct (map snd items)
         | None => false
         end
     | None => false
     end.

(** Every item of the list that [v] refers to is an instance of
    [Component]. *)
Definition holds_components (h : heap) (v : val) : bool :=
  match items_of h v with
  | Some xs => forallb (fun x => isinstance h x Component) xs
  | None => false
  end.

(** The plugin at [p] is well formed and every item of every one of its
    sets is an instance of [Component]. *)
Definition typed_sets (h : heap) (p : loc) : bool :=
  plugin_ok h p
  && match components_of h p with
     | Some comps =>
         match entries_of h comps with
         | Some items => forallb (fun kv => holds_components h (snd kv)) items
         | None => false
         end
     | None => false
     end.

(** The list that [v] refers to has at least one item. *)
Definition holds_something (h : heap) (v : val) : bool :=
  match items_of h v with
  | Some (_ :: _) => true
  | _ => false
  end.

(** The key that a call works on. *)
Definition op_key (o : op) : string :=
  match o with
  | Add key _ => key
  | Remove key _ => key
  end.

(** ** Proof automation *)

Ltac len := rewrite ?length_insert, ?length_app; simpl; lia.

(** Normalises a lookup in a store built by updates and allocations. *)
Ltac look :=
  repeat first
    [ rewrite list_lookup_insert_ne by (first [lia | congruence])
    | rewrite list_lookup_insert_eq by len
    | rewrite lookup_app_l by len
    | rewrite list_lookup_middle by len ].

(** Every location that holds an object is below the length of the store. *)
Ltac bounds :=
  repeat match goal with
  | H : ?h !! ?l = Some _ |- _ =>
      lazymatch goal with
      | _ : l < length h |- _ => fail
      | _ => pose proof (lookup_lt_Some _ _ _ H)
      end
  end.

(** Two locations that hold objects of different kinds differ. *)
Ltac apart l1 l2 :=
  assert (l1 <> l2) by (intros ->; congruence).

Ltac hyp := look; first [eassumption | reflexivity].

(** Unfolds the readers of the store. *)
Ltac readers :=
  unfold field_of, slot_of, components_of, entries_of, items_of, owner_of,
    plugin_name, name_of.

(** Reads through the store with the lookups known in the context. *)
Ltac settle :=
  repeat progress
    (look;
     repeat match goal with
     | H : _ !! _ = Some _ |- _ => rewrite H
     | H : assoc _ _ = _ |- _ => rewrite H
     end;
     cbv beta iota).

(** ** Association lists *)

Lemma val_eqb_eq a b : val_eqb a b = true <-> a = b.
Proof.
  destruct a, b; simpl; try (split; [discriminate | congruence]); try tauto.
  - rewrite String.eqb_eq. split; congruence.
  - rewrite Z.eqb_eq. split; congruence.
  - rewrite Nat.eqb_eq. split; congruence.
Qed.

Lemma val_eqb_refl a : val_eqb a a = true.
Proof. by apply val_eqb_eq. Qed.

Lemma val_eqb_neq a b : a <> b -> val_eqb a b = false.
Proof.
  intros H. destruct (val_eqb a b) eqn:E; [|done].
  by apply val_eqb_eq in E.
Qed.

Lemma assoc_set_absent k v items :
  assoc k items = None -> assoc_set k v items = items ++ [(k, v)].
Proof.
  induction items as [|[k' v'] rest IH]; simpl; [done|].
  destruct (val_eqb k' k); [done|]. intros H. by rewrite IH.
Qed.

Lemma assoc_snoc_absent k v items :
  assoc k items = None -> assoc k (items ++ [(k, v)]) = Some v.
Proof.
  induction items as [|[k' v'] rest IH]; simpl.
  - by rewrite val_eqb_refl.
  - by destruct (val_eqb k' k).
Qed.

Lemma assoc_snoc_present k k' v v' items :
  assoc k items = Some v -> assoc k (items ++ [(k', v')]) = Some v.
Proof.
  induction items as [|[k0 v0] rest IH]; simpl; [done|].
  by destruct (val_eqb k0 k).
Qed.

Lemma assoc_In k v items : assoc k items = Some v -> In (k, v) items.
Proof.
  induction items as [|[k0 v0] rest IH]; simpl; [done|].
  destruct (val_eqb k0 k) eqn:E.
  - apply val_eqb_eq in E. intros [= ->]. left. by subst.
  - intros H. right. by apply IH.
Qed.

(** ** Running the primitives *)

Section Steps.
Context {A B : Type}.

Lemma bind_ok (m : M A) (k : A -> M B) h a h1 :
  m h = (Ok a, h1) -> bind m k h = k a h1.
Proof. unfold bind. by intros ->. Qed.

Lemma bind_raise (m : M A) (k : A -> M B) h e h1 :
  m h = (Raise e, h1) -> bind m k h = (Raise e, h1).
Proof. unfold bind. by intros ->. Qed.

Lemma bind_wrong (m : M A) (k : A -> M B) h h1 :
  m h = (Wrong, h1) -> bind m k h = (Wrong, h1).
Proof. unfold bind. by intros ->. Qed.

End Steps.

(** One step of a run: the first command of a sequence is run by [lem]. *)
Ltac step lem :=
  erewrite bind_ok; [ | solve [ eapply lem; hyp ] ]; cbv beta iota.

Lemma self_components_run h p m n v c :
  h !! p = Some (OPlugin m n v c) -> self_components p h = (Ok c, h).
Proof. intros H. unfold self_components, bind, deref. by rewrite H. Qed.

Lemma self_name_run h p m n v c :
  h !! p = Some (OPlugin m n v c) -> self_name p h = (Ok n, h).
Proof. intros H. unfold self_name, bind, deref. by rewrite H. Qed.

Lemma dict_contains_run h d mro kv items k :
  h !! d = Some (ODict mro kv items) ->
  dict_contains (VRef d) k h =
    (Ok (match assoc k items with Some _ => true | None => false end), h).
Proof. intros H. unfold dict_contains, bind, deref. by rewrite H. Qed.

Lemma dict_getitem_run h d mro kv items k v :
  h !! d = Some (ODict mro kv items) -> assoc k items = Some v ->
  dict_getitem (VRef d) k h = (Ok v, h).
Proof. intros H Hk. unfold dict_getitem, bind, deref. by rewrite H, Hk. Qed.

Lemma dict_get_run h d mro kv items k default :
  h !! d = Some (ODict mro kv items) ->
  dict_get (VRef d) k default h =
    (Ok (match assoc k items with Some v => v | None => default end), h).
Proof. intros H. unfold dict_get, bind, deref. by rewrite H. Qed.

Lemma dict_items_run h d mro kv items :
  h !! d = Some (ODict mro kv items) ->
  dict_items (VRef d) h = (Ok items, h).
Proof. intros H. unfold dict_items, bind, deref. by rewrite H. Qed.

Lemma dict_delitem_run h d mro kv items k v :
  h !! d = Some (ODict mro kv items) -> assoc k items = Some v ->
  dict_delitem (VRef d) k h =
    (Ok tt, <[d := ODict mro kv (assoc_del k items)]> h).
Proof. intros H Hk. unfold dict_delitem, bind, deref. by rewrite H, Hk. Qed.

Lemma new_ComponentSet_run h :
  new_ComponentSet h =
    (Ok (VRef (length h)), h ++ [OList ComponentSet_mro (Some Component) []]).
Proof. reflexivity. Qed.

Lemma check_type_run h v c :
  check_type v c h =
    match c with
    | Some c => if isinstance h v c then (Ok tt, h) else (Raise TypeError, h)
    | None => (Ok tt, h)
    end.
Proof.
  destruct c as [c|]; [|done]. unfold check_type, bind, get_heap.
  by destruct (isinstance h v c).
Qed.

Lemma dict_setitem_run h d mro K V items s v :
  h !! d = Some (ODict mro (Some (K, V)) items) ->
  isinstance h (VStr s) K = true -> isinstance h v V = true ->
  dict_setitem (VRef d) (VStr s) v h =
    (Ok tt,
     <[d := ODict mro (Some (K, V)) (assoc_set (VStr s) v items)]> h).
Proof.
  intros H HK HV. unfold dict_setitem.
  erewrite bind_ok by (unfold deref; by rewrite H). cbv beta iota.
  erewrite bind_ok by (rewrite check_type_run; simpl; by rewrite HK).
  erewrite bind_ok by (rewrite check_type_run; simpl; by rewrite HV).
  reflexivity.
Qed.

Lemma attach_run h c i n :
  h !! c = Some (OInst i) -> i_attach i = true ->
  attach (VRef c) n h = (Ok tt, <[c := OInst (stamp n i)]> h).
Proof. intros H Ha. unfold attach, bind, deref. by rewrite H, Ha. Qed.

(** [attach] succeeds only on an instance whose class provides it, and
    then writes that instance alone. *)
Lemma attach_inv v n h h' :
  attach v n h = (Ok tt, h') ->
  exists c i, v = VRef c /\ h !! c = Some (OInst i) /\ i_attach i = true
              /\ h' = <[c := OInst (stamp n i)]> h.
Proof.
  destruct v as [| | |c]; try discriminate.
  unfold attach, bind, deref.
  destruct (h !! c) as [[i| | |]|] eqn:E; try discriminate.
  destruct (i_attach i) eqn:Ha; [|discriminate].
  intros [= <-]. by exists c, i.
Qed.

(** When [attach] does not succeed the store is as it was. *)
Lemma attach_fail v n h r h' :
  attach v n h = (r, h') -> r <> Ok tt -> h' = h.
Proof.
  destruct v as [| | |c]; try (by intros [= <- <-]).
  unfold attach, bind, deref. destruct (h !! c) as [[i| | |]|] eqn:E;
    try (by intros [= <- <-]).
  destruct (i_attach i); [|by intros [= <- <-]].
  intros [= <- <-]. done.
Qed.

Lemma list_append_run h a mro elt xs x :
  h !! a = Some (OList mro elt xs) ->
  list_append (VRef a) x h =
    if match elt with Some T => isinstance h x T | None => true end
    then (Ok tt, <[a := OList mro elt (xs ++ [x])]> h)
    else (Raise TypeError, h).
Proof.
  intros H. unfold list_append, bind, deref. rewrite H, check_type_run.
  destruct elt as [T|]; [|done]. by destruct (isinstance h x T).
Qed.

Lemma list_items_run h a mro elt xs :
  h !! a = Some (OList mro elt xs) -> list_items (VRef a) h = (Ok xs, h).
Proof. intros H. unfold list_items, bind, deref. by rewrite H. Qed.

Lemma list_remove_run h a mro elt xs x :
  h !! a = Some (OList mro elt xs) ->
  list_remove (VRef a) x h =
    match remove_first x xs with
    | Some xs' => (Ok tt, <[a := OList mro elt xs']> h)
    | None => (Raise ValueError, h)
    end.
Proof.
  intros H. unfold list_remove, bind, deref. rewrite H.
  by destruct (remove_first x xs).
Qed.

(** Two sequences that start with the same command and agree after each
    of its successful runs agree. *)
Lemma bind_ext_on {A B} (m : M A) (k1 k2 : A -> M B) h :
  (forall a h1, m h = (Ok a, h1) -> k1 a h1 = k2 a h1) ->
  bind m k1 h = bind m k2 h.
Proof.
  intros H. unfold bind. destruct (m h) as [[a|e|] h1]; auto.
Qed.

(** ** Well-formed states, unfolded *)

Lemma is_component_inv h v :
  is_component h v = true ->
  exists c i, v = VRef c /\ h !! c = Some (OInst i)
              /\ existsb (String.eqb Component) (i_mro i) = true
              /\ i_attach i = true /\ is_Some (i_name i).
Proof.
  destruct v as [| | |c]; try discriminate. unfold is_component.
  destruct (h !! c) as [[i| | |]|] eqn:E; try discriminate.
  intros H. apply andb_true_iff in H as [H Hn].
  apply andb_true_iff in H as [Hm Ha].
  exists c, i. repeat split; try done.
  destruct (i_name i); [by eexists | discriminate].
Qed.

Lemma is_component_set_inv h v :
  is_component_set h v = true ->
  exists a mro xs, v = VRef a /\ h !! a = Some (OList mro (Some Component) xs).
Proof.
  destruct v as [| | |a]; try discriminate. unfold is_component_set.
  destruct (h !! a) as [[|mro [T|] xs| |]|] eqn:E; try discriminate.
  intros H. apply String.eqb_eq in H. subst T. by exists a, mro, xs.
Qed.

Lemma plugin_ok_inv h p :
  plugin_ok h p = true ->
  exists m n v d mro items,
    h !! p = Some (OPlugin m n v (VRef d))
    /\ h !! d = Some (ODict mro (Some (str, ComponentSet)) items)
    /\ forallb (fun kv => is_component_set h (snd kv)) items = true.
Proof.
  unfold plugin_ok, components_of.
  destruct (h !! p) as [[| | |m n v [| | |d]]|] eqn:Hp; try discriminate.
  destruct (h !! d) as [[| |mro [[K V]|] items|]|] eqn:Hd; try discriminate.
  intros H. apply andb_true_iff in H as [H Hall].
  apply andb_true_iff in H as [HK HV].
  apply String.eqb_eq in HK, HV. subst K V.
  by exists m, n, v, d, mro, items.
Qed.

Lemma slot_is_component_set h items k cs :
  forallb (fun kv => is_component_set h (snd kv)) items = true ->
  assoc k items = Some cs -> is_component_set h cs = true.
Proof.
  intros Hall Hk. apply assoc_In in Hk.
  rewrite forallb_forall in Hall. by apply (Hall (k, cs)).
Qed.

(** ** [Plugin.add], run on a well-formed plugin *)

Section AddRuns.
Variables (h : heap) (p d : loc) (m : val) (n : string) (v : option string).
Variables (mro : list cls) (kv : option (cls * cls)) (items : list (val * val)).
Variables (key : string) (contrib : val).
Hypothesis Hp : h !! p = Some (OPlugin m n v (VRef d)).
Hypothesis Hd : h !! d = Some (ODict mro kv items).

(** On a key that is not in the mapping yet, [add] first stores a new
    empty component set under the key, and then attaches and appends. *)
Lemma add_absent_run :
  kv = Some (str, ComponentSet) ->
  assoc (VStr key) items = None ->
  add p key contrib h =
    (attach contrib n >> list_append (VRef (length h)) contrib >> ret (VRef p))
      (<[d := ODict mro kv (items ++ [(VStr key, VRef (length h))])]>
         (h ++ [OList ComponentSet_mro (Some Component) []])).
Proof.
  intros -> Hk. bounds. apart p d.
  unfold add.
  step self_components_run. step dict_contains_run. rewrite Hk. cbn [negb].
  erewrite bind_ok; cycle 1.
  { rewrite (bind_ok _ _ _ _ _ (new_ComponentSet_run h)).
    step self_components_run.
    eapply dict_setitem_run; [hyp | reflexivity |].
    unfold isinstance, mro_of. look. reflexivity. }
  step self_name_run. rewrite assoc_set_absent by done.
  set (h0 := <[d := _]> _).
  assert (Hp0 : h0 !! p = Some (OPlugin m n v (VRef d))) by (subst h0; hyp).
  assert (Hd0 : h0 !! d = Some (ODict mro (Some (str, ComponentSet))
                                  (items ++ [(VStr key, VRef (length h))])))
    by (subst h0; hyp).
  apply bind_ext_on. intros [] h1 E.
  apply attach_inv in E as (c & i & -> & Hc & Ha & ->).
  apart c p. apart c d.
  step self_components_run.
  erewrite bind_ok; [reflexivity|].
  eapply dict_getitem_run; [hyp|]. by apply assoc_snoc_absent.
Qed.

(** On a key of the mapping, [add] attaches and appends to the stored
    set. *)
Lemma add_present_run cs :
  assoc (VStr key) items = Some cs ->
  add p key contrib h =
    (attach contrib n >> list_append cs contrib >> ret (VRef p)) h.
Proof.
  intros Hk. bounds. apart p d.
  unfold add.
  step self_components_run. step dict_contains_run. rewrite Hk. cbn [negb].
  rewrite (bind_ok (ret tt) _ h tt h) by done.
  step self_name_run.
  apply bind_ext_on. intros [] h1 E.
  apply attach_inv in E as (c & i & -> & Hc & Ha & ->).
  apart c p. apart c d.
  step self_components_run.
  erewrite bind_ok; [reflexivity|].
  eapply dict_getitem_run; [hyp|done].
Qed.

End AddRuns.

(** ** Stores that have grown *)

Lemma grows_to_refl n0 h' o : grows_to n0 h' o o.
Proof. destruct o; simpl; auto 6. Qed.

Lemma evolves_refl h : evolves h h.
Proof.
  split; [done|]. intros l o H. exists o. split; [done|apply grows_to_refl].
Qed.

Lemma evolves_app h more : evolves h (h ++ more).
Proof.
  split; [len|]. intros l o H. exists o. split; [|apply grows_to_refl].
  bounds. by rewrite lookup_app_l.
Qed.

Lemma evolves_update h l o o' :
  h !! l = Some o -> grows_to (length h) (<[l := o']> h) o o' ->
  evolves h (<[l := o']> h).
Proof.
  intros H Hg. split; [len|]. intros l0 o0 H0.
  destruct (decide (l = l0)) as [<-|Hne].
  - exists o'. bounds. look. split; [done|]. congruence.
  - exists o0. look. split; [done | apply grows_to_refl].
Qed.

Lemma evolves_stamp h c i n :
  h !! c = Some (OInst i) -> evolves h (<[c := OInst (stamp n i)]> h).
Proof. intros H. eapply evolves_update; [done|]. simpl. auto. Qed.

Lemma evolves_append h a mro elt xs x :
  h !! a = Some (OList mro elt xs) ->
  evolves h (<[a := OList mro elt (xs ++ [x])]> h).
Proof.
  intros H. eapply evolves_update; [done|]. simpl. repeat split.
  intros y Hy. apply in_or_app. by left.
Qed.

(** The first half of [add] on a new key: a component set is allocated
    and entered under the key. *)
Lemma evolves_new_key h d mro kv items k :
  h !! d = Some (ODict mro kv items) ->
  assoc k items = None ->
  evolves h (<[d := ODict mro kv (items ++ [(k, VRef (length h))])]>
               (h ++ [OList ComponentSet_mro (Some Component) []])).
Proof.
  intros Hd Hk. bounds. split; [len|]. intros l o Hl. bounds.
  destruct (decide (l = d)) as [->|Hne].
  - eexists. split; [by look|]. rewrite Hd in Hl. injection Hl as <-.
    simpl. repeat split.
    + intros k0 v0 Hk0. by apply assoc_snoc_present.
    + intros e He. apply in_app_or in He as [He|[<-|[]]]; [by left|right].
      split; [|by exists (length h)].
      unfold is_component_set. cbn [snd]. look. apply String.eqb_refl.
  - exists o. split; [by look | apply grows_to_refl].
Qed.

Lemma is_component_set_evolves h h' v :
  evolves h h' -> is_component_set h v = true -> is_component_set h' v = true.
Proof.
  intros [_ He] Hv. apply is_component_set_inv in Hv as (a & mro & xs & -> & Ha).
  apply He in Ha as (o' & Ha' & Hg). unfold is_component_set. rewrite Ha'.
  destruct o' as [|mro' elt' xs'| |]; try done.
  destruct Hg as (_ & -> & _). apply String.eqb_refl.
Qed.

Lemma is_component_evolves h h' x :
  evolves h h' -> is_component h x = true -> is_component h' x = true.
Proof.
  intros [_ He] Hx.
  apply is_component_inv in Hx as (c & i & -> & Hc & Hm & Ha & [s Hn]).
  apply He in Hc as (o' & Hc' & Hg).
  destruct o' as [i'| | |]; try done. destruct Hg as (E1 & E2 & E3).
  unfold is_component. by rewrite Hc', E1, E2, E3, Hm, Ha, Hn.
Qed.

Lemma evolves_trans h h' h'' :
  evolves h h' -> evolves h' h'' -> evolves h h''.
Proof.
  intros H1 H2. pose proof H1 as [Hlen1 He1]. pose proof H2 as [Hlen2 He2].
  split; [lia|]. intros l o Hl.
  apply He1 in Hl as (o' & Hl' & Hg1).
  pose proof Hl' as Hl'0. apply He2 in Hl' as (o'' & Hl'' & Hg2).
  exists o''. split; [done|].
  destruct o as [i|mro elt xs|mro kv items|m n v c]; simpl in Hg1.
  - destruct o' as [i'| | |]; try done. simpl in Hg2.
    destruct o'' as [i''| | |]; try done. simpl.
    destruct Hg1 as (? & ? & ?), Hg2 as (? & ? & ?). repeat split; congruence.
  - destruct o' as [|mro' elt' xs'| |]; try done. simpl in Hg2.
    destruct o'' as [|mro'' elt'' xs''| |]; try done. simpl.
    destruct Hg1 as (? & ? & ?), Hg2 as (? & ? & ?).
    repeat split; try congruence. auto.
  - destruct o' as [| |mro' kv' items'|]; try done. simpl in Hg2.
    destruct o'' as [| |mro'' kv'' items''|]; try done. simpl.
    destruct Hg1 as (? & ? & Hk1 & Hin1), Hg2 as (? & ? & Hk2 & Hin2).
    repeat split; try congruence; [auto|].
    intros e He. apply Hin2 in He as [He|(Hcs & l0 & El & Hl0)].
    + apply Hin1 in He as [He|(Hcs & l0 & El & Hl0)]; [by left|right].
      split; [by eapply is_component_set_evolves|]. by exists l0.
    + right. split; [done|]. exists l0. split; [done|lia].
  - subst o'. simpl in Hg2. by subst o''.
Qed.

Lemma plugin_name_evolves h h' q n :
  evolves h h' -> plugin_name h q = Some n -> plugin_name h' q = Some n.
Proof.
  intros [_ He]. unfold plugin_name.
  destruct (h !! q) as [o|] eqn:Hq; [|done].
  apply He in Hq as (o' & Hq' & Hg). rewrite Hq'.
  destruct o; try done. simpl in Hg. by subst o'.
Qed.

Lemma components_of_evolves h h' q c :
  evolves h h' -> components_of h q = Some c -> components_of h' q = Some c.
Proof.
  intros [_ He]. unfold components_of.
  destruct (h !! q) as [o|] eqn:Hq; [|done].
  apply He in Hq as (o' & Hq' & Hg). rewrite Hq'.
  destruct o; try done. simpl in Hg. by subst o'.
Qed.

Lemma plugin_ok_evolves h h' q :
  evolves h h' -> plugin_ok h q = true -> plugin_ok h' q = true.
Proof.
  intros Hev Hq. pose proof Hev as [_ He].
  apply plugin_ok_inv in Hq as (m & n & v & d & mro & items & Hq & Hd & Hall).
  apply He in Hq as (o' & Hq' & Hg). simpl in Hg. subst o'.
  apply He in Hd as (o' & Hd' & Hg).
  destruct o' as [| |mro' kv' items'|]; try done.
  destruct Hg as (-> & -> & _ & Hin).
  unfold plugin_ok, components_of. rewrite Hq', Hd', !String.eqb_refl.
  cbn [andb]. apply forallb_forall. intros e He'.
  apply Hin in He' as [He'|[He' _]]; [|done].
  eapply is_component_set_evolves; [done|].
  rewrite forallb_forall in Hall. by apply Hall.
Qed.

Lemma field_of_evolves h h' q k x :
  evolves h h' -> In x (field_of h q k) -> In x (field_of h' q k).
Proof.
  intros [_ He]. unfold field_of, slot_of, components_of.
  destruct (h !! q) as [[| | |m n v c]|] eqn:Hq; try done.
  apply He in Hq as (o' & Hq' & Hg). simpl in Hg. subst o'. rewrite Hq'.
  unfold entries_of. destruct c as [| | |d]; try done.
  destruct (h !! d) as [[| |mro kv items|]|] eqn:Hd; try done.
  apply He in Hd as (o' & Hd' & Hg). rewrite Hd'.
  destruct o' as [| |mro' kv' items'|]; try done.
  destruct Hg as (_ & _ & Hk & _).
  destruct (assoc (VStr k) items) as [cs|] eqn:Hcs; [|done].
  rewrite (Hk _ _ Hcs). unfold items_of.
  destruct cs as [| | |a]; try done.
  destruct (h !! a) as [[|mro0 elt xs| |]|] eqn:Ha; try done.
  apply He in Ha as (o' & Ha' & Hg). rewrite Ha'.
  destruct o' as [|mro0' elt' xs'| |]; try done.
  destruct Hg as (_ & _ & Hx). apply Hx.
Qed.

(** On a well-formed plugin, [add] of a component succeeds: the component
    records the name of the plugin, it is the last of the components
    held under the key, and the store has only grown. *)
Lemma add_appends h p key x :
  plugin_ok h p = true -> is_component h x = true ->
  exists h' n,
    add p key x h = (Ok (VRef p), h')
    /\ evolves h h'
    /\ plugin_name h p = Some n
    /\ owner_of h' x = Some n
    /\ field_of h' p key = field_of h p key ++ [x].
Proof.
  intros Hok Hx.
  apply plugin_ok_inv in Hok as (m & n & v & d & mro & items & Hp & Hd & Hall).
  apply is_component_inv in Hx as (c & i & -> & Hc & Hm & Ha & _).
  bounds. apart p d. apart p c. apart d c.
  destruct (assoc (VStr key) items) as [cs|] eqn:Hk.
  - pose proof (slot_is_component_set _ _ _ _ Hall Hk) as Hcs.
    apply is_component_set_inv in Hcs as (a & mro' & xs & -> & Hl).
    bounds. apart a p. apart a d. apart a c.
    exists (<[a := OList mro' (Some Component) (xs ++ [VRef c])]>
              (<[c := OInst (stamp n i)]> h)), n.
    split; [|split; [|split; [|split]]].
    + erewrite add_present_run by eauto.
      step attach_run. erewrite bind_ok; [reflexivity|].
      erewrite list_append_run by hyp.
      unfold isinstance, mro_of. look. cbn [obj_mro stamp i_mro]. by rewrite Hm.
    + eapply evolves_trans; [by eapply evolves_stamp|].
      eapply evolves_append. hyp.
    + readers. by settle.
    + readers. by settle.
    + readers. by settle.
  - set (h0 := h ++ [OList ComponentSet_mro (Some Component) []]).
    set (h1 := <[d := ODict mro (Some (str, ComponentSet))
                        (items ++ [(VStr key, VRef (length h))])]> h0).
    exists (<[length h := OList ComponentSet_mro (Some Component) [VRef c]]>
              (<[c := OInst (stamp n i)]> h1)), n.
    split; [|split; [|split; [|split]]].
    + erewrite add_absent_run by eauto. fold h0 h1.
      erewrite bind_ok; [|eapply attach_run; [subst h1 h0; hyp | done]].
      erewrite bind_ok; [reflexivity|].
      erewrite list_append_run by (subst h1 h0; hyp).
      unfold isinstance, mro_of. subst h1 h0. look.
      cbn [obj_mro stamp i_mro]. by rewrite Hm.
    + eapply evolves_trans.
      { by apply (evolves_new_key h d mro (Some (str, ComponentSet)) items
                    (VStr key)). }
      fold h0 h1. eapply evolves_trans.
      { eapply (evolves_stamp h1 c). subst h1 h0. hyp. }
      apply (evolves_append _ (length h) ComponentSet_mro (Some Component)
               [] (VRef c)). subst h1 h0. hyp.
    + readers. by settle.
    + readers. subst h1 h0. by settle.
    + readers. subst h1 h0. settle.
      rewrite (assoc_snoc_absent _ _ _ Hk). by settle.
Qed.

(** ** [Plugin.get] and [Plugin.filter], run on a well-formed plugin *)

Lemma slot_of_inv h p key cs :
  slot_of h p key = Some cs ->
  exists m n v d mro kv items,
    h !! p = Some (OPlugin m n v (VRef d))
    /\ h !! d = Some (ODict mro kv items)
    /\ assoc (VStr key) items = Some cs.
Proof.
  readers.
  destruct (h !! p) as [[| | |m n v [| | |d]]|] eqn:Hp; try discriminate.
  destruct (h !! d) as [[| |mro kv items|]|] eqn:Hd; try discriminate.
  intros Hk. by exists m, n, v, d, mro, kv, items.
Qed.

Lemma get_run h p m n v d mro kv items key :
  h !! p = Some (OPlugin m n v (VRef d)) ->
  h !! d = Some (ODict mro kv items) ->
  get p key h =
    (Ok (match assoc (VStr key) items with
         | Some cs => cs
         | None => VRef (length h)
         end),
     h ++ [OList list_mro None []]).
Proof.
  intros Hp Hd. bounds. unfold get.
  step self_components_run.
  rewrite (bind_ok (alloc _) _ h (length h) (h ++ [OList list_mro None []]))
    by done.
  erewrite dict_get_run by hyp. done.
Qed.

(** [get] never fails on a well-formed plugin, and what it returns holds
    the components of the key. *)
Lemma get_field h p key :
  plugin_ok h p = true ->
  exists r,
    get p key h = (Ok r, h ++ [OList list_mro None []])
    /\ items_of (h ++ [OList list_mro None []]) r = Some (field_of h p key).
Proof.
  intros Hok.
  apply plugin_ok_inv in Hok as (m & n & v & d & mro & items & Hp & Hd & Hall).
  eexists. split; [by eapply get_run|].
  readers. rewrite Hp, Hd.
  destruct (assoc (VStr key) items) as [cs|] eqn:Hk.
  - pose proof (slot_is_component_set _ _ _ _ Hall Hk) as Hcs.
    apply is_component_set_inv in Hcs as (a & mro' & xs & -> & Hl).
    bounds. by settle.
  - by settle.
Qed.

Lemma filter_items_run h category items :
  forallb (fun kv => is_component_set h (snd kv)) items = true ->
  filter_items category items h =
    (Ok (List.filter (fun kv => holds_instance h category (snd kv)) items), h).
Proof.
  induction items as [|[k cs] rest IH]; [done|].
  intros Hall. cbn [forallb] in Hall. apply andb_true_iff in Hall as [Hcs Hall].
  cbn [snd] in Hcs.
  apply is_component_set_inv in Hcs as (a & mro & xs & -> & Hl).
  cbn [filter_items List.filter snd].
  step list_items_run.
  rewrite (bind_ok get_heap _ h h h) by done.
  rewrite (bind_ok _ _ _ _ _ (IH Hall)).
  assert (Hh : holds_instance h category (VRef a)
               = existsb (fun item => isinstance h item category) xs)
    by (unfold holds_instance, items_of; by rewrite Hl).
  rewrite Hh. by destruct (existsb _ xs).
Qed.

(** ** [Plugin.remove], run on a mapping that has the key *)

Lemma attr_name_run h x n :
  name_of h x = Some n -> attr_name x h = (Ok n, h).
Proof.
  destruct x as [| | |a]; try discriminate. unfold name_of, attr_name.
  destruct (h !! a) as [[i| | |]|] eqn:E; try discriminate.
  intros Hn. erewrite bind_ok by (unfold deref; by rewrite E).
  cbv beta iota. by rewrite Hn.
Qed.

Lemma next_named_none h nm xs :
  no_component_named h nm xs = true ->
  next_named nm xs h = (Raise StopIteration, h).
Proof.
  induction xs as [|x xs IH]; [done|].
  unfold no_component_named. cbn [forallb]. intros H.
  apply andb_true_iff in H as [Hx Hxs].
  destruct (name_of h x) as [n|] eqn:Hn; [|discriminate].
  cbn [next_named]. rewrite (bind_ok _ _ _ _ _ (attr_name_run _ _ _ Hn)).
  apply negb_true_iff in Hx. rewrite Hx. by apply IH.
Qed.

Lemma next_named_found h nm pre c post :
  no_component_named h nm pre = true ->
  name_of h c = Some nm ->
  next_named nm (pre ++ c :: post) h = (Ok c, h).
Proof.
  intros Hpre Hc. induction pre as [|x pre IH]; cbn [app next_named].
  - rewrite (bind_ok _ _ _ _ _ (attr_name_run _ _ _ Hc)).
    by rewrite String.eqb_refl.
  - unfold no_component_named in Hpre. cbn [forallb] in Hpre.
    apply andb_true_iff in Hpre as [Hx Hpre].
    destruct (name_of h x) as [n|] eqn:Hn; [|discriminate].
    rewrite (bind_ok _ _ _ _ _ (attr_name_run _ _ _ Hn)).
    apply negb_true_iff in Hx. rewrite Hx. by apply IH.
Qed.

Lemma remove_first_found h nm pre c post :
  no_component_named h nm pre = true ->
  name_of h c = Some nm ->
  remove_first c (pre ++ c :: post) = Some (pre ++ post).
Proof.
  intros Hpre Hc. induction pre as [|x pre IH]; cbn [app remove_first].
  - by rewrite val_eqb_refl.
  - unfold no_component_named in Hpre. cbn [forallb] in Hpre.
    apply andb_true_iff in Hpre as [Hx Hpre].
    rewrite val_eqb_neq.
    + rewrite (IH Hpre). done.
    + intros ->. rewrite Hc, String.eqb_refl in Hx. discriminate.
Qed.

Section RemoveRuns.
Variables (h : heap) (p d a : loc) (m : val) (n : string) (v : option string).
Variables (mro : list cls) (kv : option (cls * cls)) (items : list (val * val)).
Variables (cmro : list cls) (elt : option cls) (xs : list val).
Variables (key nm : string).
Hypothesis Hp : h !! p = Some (OPlugin m n v (VRef d)).
Hypothesis Hd : h !! d = Some (ODict mro kv items).
Hypothesis Hk : assoc (VStr key) items = Some (VRef a).
Hypothesis Hl : h !! a = Some (OList cmro elt xs).

(** No component of the set has the name: the generator is exhausted,
    [next] raises [StopIteration], and the handler for [ValueError] lets it
    through. *)
Lemma remove_run_unknown :
  no_component_named h nm xs = true ->
  remove p key (Some nm) h = (Raise StopIteration, h).
Proof.
  intros Hnone. unfold remove.
  step self_components_run. step dict_contains_run. rewrite Hk. cbn [negb].
  apply bind_raise. unfold try_except.
  step self_components_run. erewrite bind_ok by (by eapply dict_getitem_run).
  step list_items_run.
  by rewrite (bind_raise _ _ _ _ _ (next_named_none _ _ _ Hnone)).
Qed.

(** The first component with the name is taken out of the set; the
    mapping is not written. *)
Lemma remove_run_found pre c post :
  xs = pre ++ c :: post ->
  no_component_named h nm pre = true ->
  name_of h c = Some nm ->
  remove p key (Some nm) h =
    (Ok (VRef p), <[a := OList cmro elt (pre ++ post)]> h).
Proof.
  intros Hxs Hpre Hc. unfold remove.
  step self_components_run. step dict_contains_run. rewrite Hk. cbn [negb].
  erewrite bind_ok; [reflexivity|]. unfold try_except.
  step self_components_run. erewrite bind_ok by (by eapply dict_getitem_run).
  step list_items_run. rewrite Hxs.
  rewrite (bind_ok _ _ _ _ _ (next_named_found _ _ _ _ post Hpre Hc)).
  step self_components_run. erewrite bind_ok by (by eapply dict_getitem_run).
  erewrite list_remove_run by done. rewrite Hxs.
  by rewrite (remove_first_found _ _ _ _ post Hpre Hc).
Qed.

End RemoveRuns.

(** * Properties of the specification *)

(** ** Constrained collections *)

(** C5. Every insertion or assignment into a constrained collection
    ([append], [insert], assignment by index, assignment by slice,
    [extend] on a [TypeConstrainedList]; [__setitem__] on a
    [TypeConstrainedDict]) of a candidate that does not satisfy the
    declared constraint raises [TypeError] and leaves the whole store,
    hence the collection, exactly as it was. *)
Theorem ill_typed_mutation_rejected h mu :
  ill_typed h mu = true ->
  run_mutation mu h = (Raise TypeError, h).
Proof.
  destruct mu as [l x|l i x|l i x|l s xs|l xs|d k v];
    cbn [ill_typed run_mutation];
    unfold element_constraint, item_constraint;
    (destruct l as [| | |a] || destruct d as [| | |a]); try discriminate;
    destruct (h !! a) as [o|] eqn:Ha; try discriminate;
    destruct o as [|mro elt ys|mro kv items|]; try discriminate.
  - destruct elt as [T|]; [|discriminate]. intros Hx.
    apply negb_true_iff in Hx. erewrite list_append_run by done.
    cbv beta iota. by rewrite Hx.
  - destruct elt as [T|]; [|discriminate]. intros Hx.
    apply negb_true_iff in Hx. unfold list_insert.
    erewrite bind_ok by (unfold deref; by rewrite Ha). cbv beta iota zeta.
    apply bind_raise. rewrite check_type_run. by rewrite Hx.
  - destruct elt as [T|]; [|discriminate]. intros Hx.
    apply negb_true_iff in Hx. unfold list_setitem.
    erewrite bind_ok by (unfold deref; by rewrite Ha). cbv beta iota.
    apply bind_raise. rewrite check_type_run. by rewrite Hx.
  - destruct elt as [T|]; [|discriminate]. intros Hx.
    apply negb_true_iff in Hx. unfold list_setslice.
    erewrite bind_ok by (unfold deref; by rewrite Ha). cbv beta iota.
    rewrite (bind_ok get_heap _ h h h) by done. by rewrite Hx.
  - destruct elt as [T|]; [|discriminate]. intros Hx.
    apply negb_true_iff in Hx. unfold list_extend.
    erewrite bind_ok by (unfold deref; by rewrite Ha). cbv beta iota.
    rewrite (bind_ok get_heap _ h h h) by done. by rewrite Hx.
  - destruct kv as [[K V]|]; [|discriminate]. intros Hx.
    unfold dict_setitem.
    erewrite bind_ok by (unfold deref; by rewrite Ha). cbv beta iota.
    cbn [option_map fst snd].
    destruct (isinstance h k K) eqn:HK.
    + destruct (isinstance h v V) eqn:HV; [discriminate|].
      erewrite bind_ok by (rewrite check_type_run; by rewrite HK).
      apply bind_raise. rewrite check_type_run. by rewrite HV.
    + apply bind_raise. rewrite check_type_run. by rewrite HK.
Qed.

(** The component set of ["cmds"] refuses the assignment of [CommandC]
    and the integer [42] to its first position, [l[0:1] = [CommandC, 42]],
    and keeps its two commands. *)
Lemma ill_typed_mutation_rejected_witness :
  ill_typed two_commands_store
    (SetSlice (VRef 6) (Slice (Some 0%Z) (Some 1%Z) None) [VRef 2; VInt 42])
  = true
  /\ run_mutation
       (SetSlice (VRef 6) (Slice (Some 0%Z) (Some 1%Z) None)
          [VRef 2; VInt 42]) two_commands_store
     = (Raise TypeError, two_commands_store).
Proof.
  split; [reflexivity|].
  apply (ill_typed_mutation_rejected two_commands_store
           (SetSlice (VRef 6) (Slice (Some 0%Z) (Some 1%Z) None)
              [VRef 2; VInt 42])).
  reflexivity.
Defined.

(** ** [remove] with a name that no component has *)

(** C1. On a key of the mapping, [remove(key, contribName)] with a name
    that no component of the set has leaves the store unchanged, but the
    exception that reaches the caller is [StopIteration], raised by
    [next] on the exhausted generator; the handler of line 165 catches
    [ValueError] only. *)
Theorem remove_unknown_name_raises_StopIteration h p key cs xs nm :
  slot_of h p key = Some cs ->
  items_of h cs = Some xs ->
  no_component_named h nm xs = true ->
  remove p key (Some nm) h = (Raise StopIteration, h).
Proof.
  intros Hs Hxs Hnone.
  apply slot_of_inv in Hs as (m & n & v & d & mro & kv & items & Hp & Hd & Hk).
  destruct cs as [| | |a]; try discriminate. unfold items_of in Hxs.
  destruct (h !! a) as [[|cmro elt ys| |]|] eqn:Hl; try discriminate.
  injection Hxs as ->.
  by eapply remove_run_unknown.
Qed.

(** [remove("cmds", "absent-name")] on the plugin that holds [CommandA]
    and [CommandB] under ["cmds"]. *)
Lemma remove_unknown_name_raises_StopIteration_witness :
  slot_of two_commands_store 4 "cmds" = Some (VRef 6)
  /\ items_of two_commands_store (VRef 6) = Some [VRef 0; VRef 1]
  /\ no_component_named two_commands_store "absent-name" [VRef 0; VRef 1]
     = true
  /\ remove 4 "cmds" (Some "absent-name") two_commands_store
     = (Raise StopIteration, two_commands_store).
Proof.
  split; [reflexivity|]. split; [reflexivity|]. split; [reflexivity|].
  apply (remove_unknown_name_raises_StopIteration two_commands_store 4
           "cmds" (VRef 6) [VRef 0; VRef 1] "absent-name"); reflexivity.
Defined.

(** ** [get] *)

(** C2. On a well-formed plugin [get] never fails.  For a key of the
    mapping it returns the stored component set itself.  For a key that
    is not in the mapping it returns a fresh empty built-in list: not an
    instance of [ComponentSet], and a list that accepts any value. *)
Theorem get_default_is_builtin_list h p key :
  plugin_ok h p = true ->
  exists r h',
    get p key h = (Ok r, h')
    /\ match slot_of h p key with
       | Some cs => r = cs
       | None =>
           items_of h' r = Some []
           /\ isinstance h' r ComponentSet = false
           /\ forall x, fst (list_append r x h') = Ok tt
       end.
Proof.
  intros Hok.
  apply plugin_ok_inv in Hok as (m & n & v & d & mro & items & Hp & Hd & _).
  bounds.
  exists (match assoc (VStr key) items with
          | Some cs => cs
          | None => VRef (length h)
          end), (h ++ [OList list_mro None []]).
  split; [by eapply get_run|].
  readers. rewrite Hp, Hd.
  destruct (assoc (VStr key) items) as [cs|]; [done|].
  repeat split.
  - by settle.
  - unfold isinstance, mro_of. by settle.
  - intros x. erewrite list_append_run by hyp. done.
Qed.

(** [get("missing")] on the plugin that only has ["cmds"]. *)
Lemma get_default_is_builtin_list_witness :
  plugin_ok two_commands_store 4 = true
  /\ exists r h',
       get 4 "missing" two_commands_store = (Ok r, h')
       /\ match slot_of two_commands_store 4 "missing" with
          | Some cs => r = cs
          | None =>
              items_of h' r = Some []
              /\ isinstance h' r ComponentSet = false
              /\ forall x, fst (list_append r x h') = Ok tt
          end.
Proof.
  split; [reflexivity|].
  apply (get_default_is_builtin_list two_commands_store 4 "missing").
  reflexivity.
Defined.

(** ** [add] *)

Lemma list_items_of h v xs :
  items_of h v = Some xs -> list_items v h = (Ok xs, h).
Proof.
  destruct v as [| | |a]; try discriminate. unfold items_of.
  destruct (h !! a) as [[|mro elt ys| |]|] eqn:Hl; try discriminate.
  intros [= ->]. by eapply list_items_run.
Qed.

(** What iterating over [get(key)] yields. *)
Lemma get_then_iterate h p key :
  plugin_ok h p = true ->
  exists h',
    (let* r := get p key in list_items r) h = (Ok (field_of h p key), h').
Proof.
  intros Hok. destruct (get_field h p key Hok) as (r & Hget & Hitems).
  eexists. rewrite (bind_ok _ _ _ _ _ Hget). by apply list_items_of.
Qed.

(** C6, as amended. After [add(key, c1)] then [add(key, c2)] on a
    well-formed plugin, iterating over [get(key)] yields the components
    held under [key] before the two calls, followed by [c1] and [c2] in
    that order; on a key that held nothing this is exactly [c1; c2].
    The two components need not be distinct. *)
Theorem add_twice_then_get h p key c1 c2 :
  plugin_ok h p = true ->
  is_component h c1 = true ->
  is_component h c2 = true ->
  exists h',
    (add p key c1 >> add p key c2 >> let* r := get p key in list_items r) h
    = (Ok (field_of h p key ++ [c1; c2]), h').
Proof.
  intros Hok H1 H2.
  destruct (add_appends h p key c1 Hok H1) as (h1 & n & Ha1 & He1 & _ & _ & Hf1).
  pose proof (plugin_ok_evolves _ _ _ He1 Hok) as Hok1.
  pose proof (is_component_evolves _ _ _ He1 H2) as H21.
  destruct (add_appends h1 p key c2 Hok1 H21)
    as (h2 & n' & Ha2 & He2 & _ & _ & Hf2).
  pose proof (plugin_ok_evolves _ _ _ He2 Hok1) as Hok2.
  destruct (get_then_iterate h2 p key Hok2) as (h3 & Hget).
  exists h3.
  rewrite (bind_ok _ _ _ _ _ Ha1), (bind_ok _ _ _ _ _ Ha2), Hget.
  by rewrite Hf2, Hf1, <- app_assoc.
Qed.

(** On the plugin just created, [add("cmds", CommandA)] then
    [add("cmds", CommandB)]. *)
Lemma add_twice_then_get_witness :
  plugin_ok fresh_plugin_store 4 = true
  /\ is_component fresh_plugin_store (VRef 0) = true
  /\ is_component fresh_plugin_store (VRef 1) = true
  /\ exists h',
       (add 4 "cmds" (VRef 0) >> add 4 "cmds" (VRef 1) >>
        let* r := get 4 "cmds" in list_items r) fresh_plugin_store
       = (Ok (field_of fresh_plugin_store 4 "cmds" ++ [VRef 0; VRef 1]), h').
Proof.
  split; [reflexivity|]. split; [reflexivity|]. split; [reflexivity|].
  apply (add_twice_then_get fresh_plugin_store 4 "cmds" (VRef 0) (VRef 1));
    reflexivity.
Defined.

(** C6, as stated, fails on a key that already holds a component: with
    [CommandA] under ["cmds"], adding the distinct [CommandB] and
    [CommandC] makes [get("cmds")] yield all three, not the last two. *)
Lemma add_twice_on_populated_key :
  plugin_ok one_command_store 4 = true
  /\ is_component one_command_store (VRef 1) = true
  /\ is_component one_command_store (VRef 2) = true
  /\ VRef 1 <> VRef 2
  /\ fst ((add 4 "cmds" (VRef 1) >> add 4 "cmds" (VRef 2) >>
           let* r := get 4 "cmds" in list_items r) one_command_store)
     = Ok [VRef 0; VRef 1; VRef 2]
  /\ [VRef 0; VRef 1; VRef 2] <> [VRef 1; VRef 2].
Proof.
  split; [reflexivity|]. split; [reflexivity|]. split; [reflexivity|].
  split; [discriminate|]. split; [reflexivity|]. discriminate.
Qed.

(** C7. After [p.add(key, c)] the owner recorded in [c] is the name of
    [p].  [attach] runs on every [add]: adding [c] to any plugin [q]
    afterwards succeeds as well and overwrites the record with the name of
    [q], although [p] still holds [c]. *)
Theorem add_stamps_owner h p q key key' c :
  plugin_ok h p = true ->
  plugin_ok h q = true ->
  is_component h c = true ->
  exists h1 h2 np nq,
    plugin_name h p = Some np
    /\ plugin_name h q = Some nq
    /\ add p key c h = (Ok (VRef p), h1)
    /\ owner_of h1 c = Some np
    /\ add q key' c h1 = (Ok (VRef q), h2)
    /\ owner_of h2 c = Some nq
    /\ In c (field_of h2 p key).
Proof.
  intros Hp Hq Hc.
  destruct (add_appends h p key c Hp Hc) as (h1 & np & Ha1 & He1 & Hn1 & Ho1 & Hf1).
  pose proof (plugin_ok_evolves _ _ _ He1 Hq) as Hq1.
  pose proof (is_component_evolves _ _ _ He1 Hc) as Hc1.
  destruct (add_appends h1 q key' c Hq1 Hc1)
    as (h2 & nq & Ha2 & He2 & Hn2 & Ho2 & Hf2).
  exists h1, h2, np, nq. repeat split; try done.
  - destruct (plugin_ok_inv _ _ Hq) as (m & n & v & d & mro & items & Hq0 & _).
    assert (Hn : plugin_name h q = Some n) by (readers; by rewrite Hq0).
    rewrite Hn. rewrite (plugin_name_evolves _ _ _ _ He1 Hn) in Hn2. done.
  - eapply field_of_evolves; [done|]. rewrite Hf1.
    apply in_or_app. right. by left.
Qed.

(** [CommandA], already added to the plugin ["p"], is added to the plugin
    ["q"]. *)
Lemma add_stamps_owner_witness :
  plugin_ok two_plugins_store 4 = true
  /\ plugin_ok two_plugins_store 7 = true
  /\ is_component two_plugins_store (VRef 0) = true
  /\ exists h1 h2 np nq,
       plugin_name two_plugins_store 4 = Some np
       /\ plugin_name two_plugins_store 7 = Some nq
       /\ add 4 "cmds" (VRef 0) two_plugins_store = (Ok (VRef 4), h1)
       /\ owner_of h1 (VRef 0) = Some np
       /\ add 7 "tools" (VRef 0) h1 = (Ok (VRef 7), h2)
       /\ owner_of h2 (VRef 0) = Some nq
       /\ In (VRef 0) (field_of h2 4 "cmds").
Proof.
  split; [reflexivity|]. split; [reflexivity|]. split; [reflexivity|].
  apply (add_stamps_owner two_plugins_store 4 7 "cmds" "tools" (VRef 0));
    reflexivity.
Defined.

Lemma attach_raises v n h e h' :
  attach v n h = (Raise e, h') -> e = AttributeError /\ h' = h.
Proof.
  destruct v as [| | |c]; try (by intros [= <- <-]).
  unfold attach, bind, deref.
  destruct (h !! c) as [[i| | |]|] eqn:E; try (by intros [= <- <-]); try done.
  by destruct (i_attach i); [|intros [= <- <-]].
Qed.

(** C10. [add] is not atomic.  When the key is not in the mapping yet and
    the call ends in the [TypeError] of the type-checked [append], the
    plugin is left with the key mapped to a new empty component set, and
    the contribution carries the name of the plugin as its owner:
    [attach] had run before the append was refused. *)
Theorem add_rejected_after_side_effects h p key contrib h' :
  plugin_ok h p = true ->
  slot_of h p key = None ->
  add p key contrib h = (Raise TypeError, h') ->
  slot_of h' p key = Some (VRef (length h))
  /\ h' !! length h = Some (OList ComponentSet_mro (Some Component) [])
  /\ is_component h contrib = false
  /\ owner_of h' contrib = plugin_name h p.
Proof.
  intros Hok Hs Hadd.
  apply plugin_ok_inv in Hok as (m & n & v & d & mro & items & Hp & Hd & _).
  assert (Hk : assoc (VStr key) items = None).
  { revert Hs. readers. by rewrite Hp, Hd. }
  bounds. apart p d.
  erewrite add_absent_run in Hadd by eauto.
  set (h0 := <[d := _]> _) in Hadd.
  destruct (attach contrib n h0) as [[[]|e|] h1] eqn:Hat.
  - rewrite (bind_ok _ _ _ _ _ Hat) in Hadd.
    apply attach_inv in Hat as (c & i & -> & Hc & Ha & ->).
    assert (Hc0 : h !! c = Some (OInst i)).
    { subst h0. destruct (decide (c = d)) as [->|Hcd].
      - rewrite list_lookup_insert_eq in Hc by len. discriminate.
      - rewrite list_lookup_insert_ne in Hc by done.
        destruct (decide (c < length h)) as [Hlt|Hge].
        + by rewrite lookup_app_l in Hc by done.
        + apply lookup_lt_Some in Hc as Hlt. rewrite length_app in Hlt.
          simpl in Hlt. assert (c = length h) as -> by lia.
          rewrite list_lookup_middle in Hc by done. discriminate. }
    bounds. apart c p. apart c d.
    assert (Hl : <[c := OInst (stamp n i)]> h0 !! length h
                 = Some (OList ComponentSet_mro (Some Component) []))
      by (subst h0; hyp).
    pose proof (list_append_run _ _ _ _ _ (VRef c) Hl) as Happ.
    unfold isinstance, mro_of in Happ.
    rewrite list_lookup_insert_eq in Happ by (subst h0; len).
    cbn [obj_mro stamp i_mro] in Happ.
    destruct (existsb (String.eqb Component) (i_mro i)) eqn:Hm.
    { by rewrite (bind_ok _ _ _ _ _ Happ) in Hadd. }
    rewrite (bind_raise _ _ _ _ _ Happ) in Hadd.
    injection Hadd as <-. subst h0.
    repeat split.
    + readers. settle. by rewrite (assoc_snoc_absent _ _ _ Hk).
    + by settle.
    + unfold is_component. by rewrite Hc0, Hm.
    + readers. by settle.
  - rewrite (bind_raise _ _ _ _ _ Hat) in Hadd.
    apply attach_raises in Hat as [-> _]. discriminate.
  - by rewrite (bind_wrong _ _ _ _ Hat) in Hadd.
Qed.

(** The lookalike is added under the new key ["tools"]. *)
Lemma add_rejected_after_side_effects_witness :
  plugin_ok two_commands_store 4 = true
  /\ slot_of two_commands_store 4 "tools" = None
  /\ add 4 "tools" (VRef 3) two_commands_store
     = (Raise TypeError,
        snd (add 4 "tools" (VRef 3) two_commands_store))
  /\ slot_of (snd (add 4 "tools" (VRef 3) two_commands_store)) 4 "tools"
     = Some (VRef (length two_commands_store))
  /\ snd (add 4 "tools" (VRef 3) two_commands_store)
       !! length two_commands_store
     = Some (OList ComponentSet_mro (Some Component) [])
  /\ is_component two_commands_store (VRef 3) = false
  /\ owner_of (snd (add 4 "tools" (VRef 3) two_commands_store)) (VRef 3)
     = plugin_name two_commands_store 4.
Proof.
  split; [reflexivity|]. split; [reflexivity|]. split; [reflexivity|].
  apply (add_rejected_after_side_effects two_commands_store 4 "tools"
           (VRef 3)); reflexivity.
Defined.

(** ** [remove] with the name of a component *)

(** C8. [remove(key, nm)] takes out of the set under [key] exactly the
    first component named [nm], here [c1], before which no component has
    that name: iterating over [get(key)] afterwards yields the others in
    their order.  For a set holding [c1] then [c2] ([pre] empty, [post]
    the single [c2]) that is [c2] alone.  The mapping still has the key,
    with the same set, also when no component is left in it. *)
Theorem remove_first_named h p key cs pre c1 post nm :
  slot_of h p key = Some cs ->
  items_of h cs = Some (pre ++ c1 :: post) ->
  no_component_named h nm pre = true ->
  name_of h c1 = Some nm ->
  exists h' h'',
    remove p key (Some nm) h = (Ok (VRef p), h')
    /\ slot_of h' p key = Some cs
    /\ items_of h' cs = Some (pre ++ post)
    /\ (let* r := get p key in list_items r) h' = (Ok (pre ++ post), h'').
Proof.
  intros Hs Hxs Hpre Hn.
  apply slot_of_inv in Hs as (m & n & v & d & mro & kv & items & Hp & Hd & Hk).
  destruct cs as [| | |a]; try discriminate. unfold items_of in Hxs.
  destruct (h !! a) as [[|cmro elt ys| |]|] eqn:Hl; try discriminate.
  injection Hxs as ->.
  bounds. apart p d. apart a p. apart a d.
  set (h' := <[a := OList cmro elt (pre ++ post)]> h).
  exists h', (h' ++ [OList list_mro None []]).
  split; [|split; [|split]].
  - by apply (remove_run_found h p d a m n v mro kv items cmro elt
                (pre ++ c1 :: post) key nm Hp Hd Hk Hl pre c1 post).
  - readers. subst h'. by settle.
  - readers. subst h'. by settle.
  - erewrite bind_ok; cycle 1.
    { eapply (get_run h' p m n v d mro kv items); subst h'; hyp. }
    rewrite Hk. eapply list_items_run. subst h'. hyp.
Qed.

(** [remove("cmds", "CommandA")] on the plugin that holds [CommandA] then
    [CommandB] under ["cmds"] leaves [CommandB]. *)
Lemma remove_first_named_witness :
  slot_of two_commands_store 4 "cmds" = Some (VRef 6)
  /\ items_of two_commands_store (VRef 6) = Some ([] ++ VRef 0 :: [VRef 1])
  /\ no_component_named two_commands_store "CommandA" [] = true
  /\ name_of two_commands_store (VRef 0) = Some "CommandA"
  /\ exists h' h'',
       remove 4 "cmds" (Some "CommandA") two_commands_store
       = (Ok (VRef 4), h')
       /\ slot_of h' 4 "cmds" = Some (VRef 6)
       /\ items_of h' (VRef 6) = Some ([] ++ [VRef 1])
       /\ (let* r := get 4 "cmds" in list_items r) h'
          = (Ok ([] ++ [VRef 1]), h'').
Proof.
  split; [reflexivity|]. split; [reflexivity|]. split; [reflexivity|].
  split; [reflexivity|].
  apply (remove_first_named two_commands_store 4 "cmds" (VRef 6) []
           (VRef 0) [VRef 1] "CommandA"); reflexivity.
Defined.

(** ** [filter] *)

Lemma assoc_set_same k v items : assoc k (assoc_set k v items) = Some v.
Proof.
  induction items as [|[k0 v0] rest IH]; simpl.
  - by rewrite val_eqb_refl.
  - destruct (val_eqb k0 k) eqn:E; simpl; by rewrite E.
Qed.

(** C3. Without a category, [filter] returns the very value of the
    [components] attribute and allocates nothing: the result is the
    mapping of the plugin, not a copy.  A mutation through the result is
    therefore a mutation of the plugin: after [result[key] = cs], the
    plugin's own [get(key)] returns [cs]. *)
Theorem filter_without_category_is_live h p key cs :
  plugin_ok h p = true ->
  isinstance h cs ComponentSet = true ->
  exists comps h',
    components_of h p = Some comps
    /\ filter p None h = (Ok comps, h)
    /\ (let* result := filter p None in
        dict_setitem result (VStr key) cs >> get p key) h = (Ok cs, h').
Proof.
  intros Hok Hcs.
  apply plugin_ok_inv in Hok as (m & n & v & d & mro & items & Hp & Hd & _).
  bounds. apart p d.
  assert (Hf : filter p None h = (Ok (VRef d), h))
    by (by eapply self_components_run).
  exists (VRef d). eexists. split; [|split; [done|]].
  - readers. by rewrite Hp.
  - rewrite (bind_ok _ _ _ _ _ Hf).
    erewrite bind_ok; cycle 1.
    { eapply dict_setitem_run; [done | reflexivity | done]. }
    erewrite get_run by hyp. by rewrite assoc_set_same.
Qed.

(** The set of ["cmds"] is stored under ["extra"] as well, through the
    mapping that [filter()] returned. *)
Lemma filter_without_category_is_live_witness :
  plugin_ok two_commands_store 4 = true
  /\ isinstance two_commands_store (VRef 6) ComponentSet = true
  /\ exists comps h',
       components_of two_commands_store 4 = Some comps
       /\ filter 4 None two_commands_store = (Ok comps, two_commands_store)
       /\ (let* result := filter 4 None in
           dict_setitem result (VStr "extra") (VRef 6) >> get 4 "extra")
            two_commands_store = (Ok (VRef 6), h').
Proof.
  split; [reflexivity|]. split; [reflexivity|].
  apply (filter_without_category_is_live two_commands_store 4 "extra"
           (VRef 6)); reflexivity.
Defined.

(** C4. With a category, [filter] returns a newly allocated built-in
    dict.  Its items are, in order, the items of the plugin's mapping
    whose set holds at least one instance of the category; each value is
    the reference stored in the plugin, so the set it denotes is the
    whole stored set, and the store below the new dict is unchanged. *)
Theorem filter_by_category h p category :
  plugin_ok h p = true ->
  exists comps items kept,
    components_of h p = Some comps
    /\ entries_of h comps = Some items
    /\ filter p (Some category) h
       = (Ok (VRef (length h)), h ++ [ODict dict_mro None kept])
    /\ VRef (length h) <> comps
    /\ kept = List.filter (fun kv => holds_instance h category (snd kv)) items
    /\ forall k cs,
         In (k, cs) kept <->
         In (k, cs) items
         /\ exists xs x, items_of h cs = Some xs /\ In x xs
                         /\ isinstance h x category = true.
Proof.
  intros Hok.
  apply plugin_ok_inv in Hok as (m & n & v & d & mro & items & Hp & Hd & Hall).
  bounds.
  exists (VRef d), items,
    (List.filter (fun kv => holds_instance h category (snd kv)) items).
  split; [|split; [|split; [|split; [|split]]]].
  - readers. by rewrite Hp.
  - readers. by rewrite Hd.
  - unfold filter. step self_components_run. step dict_items_run.
    rewrite (bind_ok _ _ _ _ _ (filter_items_run h category items Hall)).
    done.
  - intros [= E]. lia.
  - done.
  - intros k cs. rewrite filter_In. cbn [snd]. unfold holds_instance.
    split.
    + intros [Hin Hh]. split; [done|].
      destruct (items_of h cs) as [xs|]; [|discriminate].
      apply existsb_exists in Hh as (x & Hx & Hi). by exists xs, x.
    + intros [Hin (xs & x & Hxs & Hx & Hi)]. split; [done|].
      rewrite Hxs. apply existsb_exists. by exists x.
Qed.

(** [filter(Command)] on the plugin that holds two commands under
    ["cmds"]. *)
Lemma filter_by_category_witness :
  plugin_ok two_commands_store 4 = true
  /\ exists comps items kept,
       components_of two_commands_store 4 = Some comps
       /\ entries_of two_commands_store comps = Some items
       /\ filter 4 (Some "Command") two_commands_store
          = (Ok (VRef (length two_commands_store)),
             two_commands_store ++ [ODict dict_mro None kept])
       /\ VRef (length two_commands_store) <> comps
       /\ kept = List.filter
                   (fun kv => holds_instance two_commands_store "Command"
                                (snd kv)) items
       /\ forall k cs,
            In (k, cs) kept <->
            In (k, cs) items
            /\ exists xs x, items_of two_commands_store cs = Some xs
                            /\ In x xs
                            /\ isinstance two_commands_store x "Command"
                               = true.
Proof.
  split; [reflexivity|].
  apply (filter_by_category two_commands_store 4 "Command"). reflexivity.
Defined.

(** ** What [add] and [remove] write *)

Lemma lookup_new_key_store_inst (h : heap) d o o' c i :
  h !! d = Some o -> (forall j, o' <> OInst j) -> (forall j, o <> OInst j) ->
  (<[d := o']> (h ++ [OList ComponentSet_mro (Some Component) []])) !! c
    = Some (OInst i) ->
  h !! c = Some (OInst i) /\ c <> d /\ c < length h.
Proof.
  intros Hd Ho' Ho Hc. bounds.
  destruct (decide (c = d)) as [->|Hcd].
  { rewrite list_lookup_insert_eq in Hc by len.
    injection Hc as ->. by destruct (Ho' i). }
  rewrite list_lookup_insert_ne in Hc by done.
  destruct (decide (c < length h)) as [Hlt|Hge].
  - by rewrite lookup_app_l in Hc by done.
  - apply lookup_lt_Some in Hc as Hlt. rewrite length_app in Hlt.
    simpl in Hlt. assert (c = length h) as -> by lia.
    rewrite list_lookup_middle in Hc by done. discriminate.
Qed.

(** Whatever its outcome, [add] on a well-formed plugin only makes the
    store grow, and writes no cell but the touched ones. *)
Lemma add_effect h p key contrib r h' :
  plugin_ok h p = true ->
  add p key contrib h = (r, h') ->
  evolves h h'
  /\ forall l, l < length h -> ~ touched h p key contrib l ->
               h' !! l = h !! l.
Proof.
  intros Hok Hadd.
  apply plugin_ok_inv in Hok as (m & n & v & d & mro & items & Hp & Hd & Hall).
  bounds. apart p d.
  assert (Hnd : forall l, ~ touched h p key contrib l -> l <> d).
  { intros l Hnt ->. apply Hnt. left. readers. by rewrite Hp. }
  assert (Hnc : forall l c i, ~ touched h p key contrib l ->
                  contrib = VRef c -> h !! c = Some (OInst i) -> l <> c).
  { intros l c i Hnt -> Hc ->. apply Hnt. right. right. eauto. }
  destruct (assoc (VStr key) items) as [cs|] eqn:Hk.
  - pose proof (slot_is_component_set _ _ _ _ Hall Hk) as Hcs.
    apply is_component_set_inv in Hcs as (a & mro' & xs & -> & Hl).
    assert (Hna : forall l, ~ touched h p key contrib l -> l <> a).
    { intros l Hnt ->. apply Hnt. right. left. readers. by rewrite Hp, Hd. }
    erewrite add_present_run in Hadd by eauto.
    destruct (attach contrib n h) as [[[]|e|] h1] eqn:Hat.
    + rewrite (bind_ok _ _ _ _ _ Hat) in Hadd.
      apply attach_inv in Hat as (c & i & -> & Hc & Ha & ->).
      apart a c.
      assert (Hl1 : <[c := OInst (stamp n i)]> h !! a
                    = Some (OList mro' (Some Component) xs)) by hyp.
      pose proof (list_append_run _ _ _ _ _ (VRef c) Hl1) as Happ.
      cbv beta iota in Happ.
      destruct (isinstance _ (VRef c) Component).
      * rewrite (bind_ok _ _ _ _ _ Happ) in Hadd. injection Hadd as <- <-.
        split.
        { eapply evolves_trans; [by eapply evolves_stamp|].
          by eapply evolves_append. }
        intros l Hlt Hnt.
        pose proof (Hna l Hnt). pose proof (Hnc l c i Hnt eq_refl Hc).
        by look.
      * rewrite (bind_raise _ _ _ _ _ Happ) in Hadd. injection Hadd as <- <-.
        split; [by eapply evolves_stamp|]. intros l Hlt Hnt.
        pose proof (Hnc l c i Hnt eq_refl Hc). by look.
    + rewrite (bind_raise _ _ _ _ _ Hat) in Hadd. injection Hadd as <- <-.
      rewrite (attach_fail _ _ _ _ _ Hat) by done.
      split; [apply evolves_refl|done].
    + rewrite (bind_wrong _ _ _ _ Hat) in Hadd. injection Hadd as <- <-.
      rewrite (attach_fail _ _ _ _ _ Hat) by done.
      split; [apply evolves_refl|done].
  - erewrite add_absent_run in Hadd by eauto.
    pose proof (evolves_new_key h d mro (Some (str, ComponentSet)) items
                  (VStr key) Hd Hk) as Hev0.
    set (h0 := <[d := _]> _) in Hadd, Hev0.
    assert (Hlen0 : length h0 = S (length h)) by (subst h0; len).
    assert (Hsame0 : forall l, l < length h -> l <> d -> h0 !! l = h !! l).
    { intros l Hlt Hne. subst h0. by look. }
    destruct (attach contrib n h0) as [[[]|e|] h1] eqn:Hat.
    + rewrite (bind_ok _ _ _ _ _ Hat) in Hadd.
      apply attach_inv in Hat as (c & i & -> & Hc0 & Ha & ->).
      pose proof Hc0 as Hc.
      apply (lookup_new_key_store_inst h d _ _ c i Hd) in Hc
        as (Hc & Hcd & Hclt); [|done|done].
      assert (Hl1 : <[c := OInst (stamp n i)]> h0 !! length h
                    = Some (OList ComponentSet_mro (Some Component) []))
        by (subst h0; hyp).
      pose proof (list_append_run _ _ _ _ _ (VRef c) Hl1) as Happ.
      cbv beta iota in Happ.
      destruct (isinstance _ (VRef c) Component).
      * rewrite (bind_ok _ _ _ _ _ Happ) in Hadd. injection Hadd as <- <-.
        split.
        { eapply evolves_trans; [done|].
          eapply evolves_trans; [by apply (evolves_stamp h0 c i n)|].
          by apply (evolves_append _ (length h) ComponentSet_mro
                      (Some Component) [] (VRef c)). }
        intros l Hlt Hnt.
        pose proof (Hnd l Hnt). pose proof (Hnc l c i Hnt eq_refl Hc).
        look. by apply Hsame0.
      * rewrite (bind_raise _ _ _ _ _ Happ) in Hadd. injection Hadd as <- <-.
        split; [eapply evolves_trans; [done|by apply (evolves_stamp h0 c i n)]|].
        intros l Hlt Hnt.
        pose proof (Hnd l Hnt). pose proof (Hnc l c i Hnt eq_refl Hc).
        look. by apply Hsame0.
    + rewrite (bind_raise _ _ _ _ _ Hat) in Hadd. injection Hadd as <- <-.
      rewrite (attach_fail _ _ _ _ _ Hat) by done.
      split; [done|]. intros l Hlt Hnt. apply Hsame0; auto.
    + rewrite (bind_wrong _ _ _ _ Hat) in Hadd. injection Hadd as <- <-.
      rewrite (attach_fail _ _ _ _ _ Hat) by done.
      split; [done|]. intros l Hlt Hnt. apply Hsame0; auto.
Qed.

Lemma attr_name_heap x h r h' : attr_name x h = (r, h') -> h' = h.
Proof.
  destruct x as [| | |a]; try (by intros [= _ <-]).
  unfold attr_name, bind, deref.
  destruct (h !! a) as [[i| | |]|]; try (by intros [= _ <-]).
  by destruct (i_name i); intros [= _ <-].
Qed.

Lemma next_named_heap nm xs h r h' : next_named nm xs h = (r, h') -> h' = h.
Proof.
  induction xs as [|x xs IH]; [by intros [= _ <-]|].
  cbn [next_named]. unfold bind at 1.
  destruct (attr_name x h) as [[n|e|] h1] eqn:Hn;
    apply attr_name_heap in Hn as ->; try (by intros [= _ <-]).
  destruct (String.eqb n nm); [by intros [= _ <-] | apply IH].
Qed.

Section RemoveOutcomes.
Variables (h : heap) (p d : loc) (m : val) (n : string) (v : option string).
Variables (mro : list cls) (kv : option (cls * cls)) (items : list (val * val)).
Variables (key : string).
Hypothesis Hp : h !! p = Some (OPlugin m n v (VRef d)).
Hypothesis Hd : h !! d = Some (ODict mro kv items).

Lemma remove_run_absent nm :
  assoc (VStr key) items = None ->
  remove p key nm h = (Raise KeyError, h).
Proof.
  intros Hk. unfold remove.
  step self_components_run. step dict_contains_run. by rewrite Hk.
Qed.

Lemma remove_run_key cs :
  assoc (VStr key) items = Some cs ->
  remove p key None h
  = (Ok (VRef p), <[d := ODict mro kv (assoc_del (VStr key) items)]> h).
Proof.
  intros Hk. unfold remove.
  step self_components_run. step dict_contains_run. rewrite Hk. cbn [negb].
  erewrite bind_ok; [reflexivity|].
  step self_components_run. by eapply dict_delitem_run.
Qed.

Lemma remove_run_named a cmro elt xs nm :
  assoc (VStr key) items = Some (VRef a) ->
  h !! a = Some (OList cmro elt xs) ->
  remove p key (Some nm) h
  = match fst (next_named nm xs h) with
    | Ok c =>
        match remove_first c xs with
        | Some xs' => (Ok (VRef p), <[a := OList cmro elt xs']> h)
        | None => (Raise ValueError, h)
        end
    | Raise e => (Raise e, h)
    | Wrong => (Wrong, h)
    end.
Proof.
  intros Hk Hl. unfold remove.
  step self_components_run. step dict_contains_run. rewrite Hk. cbn [negb].
  match goal with
  | |- bind (try_except ?b _ _) _ _ = _ => set (body := b)
  end.
  assert (Hbody : body h = bind (next_named nm xs)
                             (fun contrib => list_remove (VRef a) contrib) h).
  { subst body. step self_components_run.
    erewrite bind_ok by (by eapply dict_getitem_run).
    step list_items_run. apply bind_ext_on. intros c h1 Hn.
    apply next_named_heap in Hn as ->.
    step self_components_run.
    by erewrite bind_ok by (by eapply dict_getitem_run). }
  destruct (next_named nm xs h) as [r h1] eqn:Hnext.
  pose proof (next_named_heap _ _ _ _ _ Hnext) as ->. cbn [fst].
  destruct r as [c|e|].
  - rewrite (bind_ok _ _ _ _ _ Hnext) in Hbody.
    erewrite list_remove_run in Hbody by done.
    destruct (remove_first c xs) as [xs'|].
    + erewrite bind_ok; [reflexivity|]. unfold try_except. by rewrite Hbody.
    + apply bind_raise. unfold try_except. by rewrite Hbody.
  - rewrite (bind_raise _ _ _ _ _ Hnext) in Hbody.
    apply bind_raise. unfold try_except. rewrite Hbody. by destruct e.
  - rewrite (bind_wrong _ _ _ _ Hnext) in Hbody.
    apply bind_wrong. unfold try_except. by rewrite Hbody.
Qed.

End RemoveOutcomes.

Lemma plugin_ok_set_list h p a mro elt xs xs' :
  plugin_ok h p = true ->
  h !! a = Some (OList mro elt xs) ->
  plugin_ok (<[a := OList mro elt xs']> h) p = true.
Proof.
  intros Hok Ha.
  apply plugin_ok_inv in Hok as (m & n & v & d & dmro & items & Hp & Hd & Hall).
  bounds. apart a p. apart a d.
  unfold plugin_ok, components_of. look. rewrite Hp. look. rewrite Hd.
  rewrite !String.eqb_refl. cbn [andb].
  rewrite forallb_forall in Hall. apply forallb_forall. intros e He.
  apply Hall in He. apply is_component_set_inv in He
    as (a0 & mro0 & xs0 & E & Ha0).
  unfold is_component_set. rewrite E.
  destruct (decide (a = a0)) as [<-|Hne].
  - look. rewrite Ha in Ha0. injection Ha0 as -> -> ->.
    apply String.eqb_refl.
  - look. rewrite Ha0. apply String.eqb_refl.
Qed.

Lemma plugin_ok_del_key h p d mro kv items k :
  plugin_ok h p = true ->
  components_of h p = Some (VRef d) ->
  h !! d = Some (ODict mro kv items) ->
  plugin_ok (<[d := ODict mro kv (assoc_del k items)]> h) p = true.
Proof.
  intros Hok Hc Hd.
  apply plugin_ok_inv in Hok
    as (m & n & v & d0 & mro0 & items0 & Hp & Hd0 & Hall).
  assert (d0 = d) as -> by (revert Hc; readers; rewrite Hp; congruence).
  rewrite Hd in Hd0. injection Hd0 as -> -> ->.
  bounds. apart p d.
  unfold plugin_ok, components_of. look. rewrite Hp. look.
  rewrite !String.eqb_refl. cbn [andb].
  rewrite forallb_forall in Hall. apply forallb_forall.
  intros e He. apply filter_In in He as [He _].
  apply Hall in He. apply is_component_set_inv in He
    as (a & mro' & xs & E & Ha).
  apart a d. unfold is_component_set. rewrite E. look. rewrite Ha.
  apply String.eqb_refl.
Qed.

(** Whatever its outcome, [remove] on a well-formed plugin keeps the size
    of the store and the plugin well formed, enters nothing in the
    mapping, and writes no cell but the mapping and the set of the key. *)
Lemma remove_effect h p key nm r h' :
  plugin_ok h p = true ->
  remove p key nm h = (r, h') ->
  length h' = length h
  /\ plugin_ok h' p = true
  /\ components_of h' p = components_of h p
  /\ (forall d items',
        components_of h p = Some (VRef d) ->
        entries_of h' (VRef d) = Some items' ->
        exists items,
          entries_of h (VRef d) = Some items
          /\ forall e, In e items' -> In e items)
  /\ forall l, ~ touched h p key VNone l -> h' !! l = h !! l.
Proof.
  intros Hok Hrm. pose proof Hok as Hinv.
  apply plugin_ok_inv in Hinv
    as (m & n & v & d & mro & items & Hp & Hd & Hall).
  bounds. apart p d.
  assert (Hcomp : components_of h p = Some (VRef d))
    by (readers; by rewrite Hp).
  assert (Hnd : forall l, ~ touched h p key VNone l -> l <> d).
  { intros l Hnt ->. apply Hnt. by left. }
  assert (Hsame : length h = length h /\ plugin_ok h p = true
            /\ components_of h p = components_of h p
            /\ (forall d items',
                  components_of h p = Some (VRef d) ->
                  entries_of h (VRef d) = Some items' ->
                  exists items, entries_of h (VRef d) = Some items
                                /\ forall e, In e items' -> In e items)
            /\ forall l, ~ touched h p key VNone l -> h !! l = h !! l).
  { repeat split; try done. intros d0 items' _ He. by exists items'. }
  destruct (assoc (VStr key) items) as [cs|] eqn:Hk.
  - pose proof (slot_is_component_set _ _ _ _ Hall Hk) as Hcs.
    apply is_component_set_inv in Hcs as (a & mro' & xs & -> & Hl).
    bounds. apart a p. apart a d.
    assert (Hna : forall l, ~ touched h p key VNone l -> l <> a).
    { intros l Hnt ->. apply Hnt. right. left. readers. by rewrite Hp, Hd. }
    destruct nm as [nm|].
    + erewrite remove_run_named in Hrm by eauto.
      destruct (fst (next_named nm xs h)) as [c|e|];
        [destruct (remove_first c xs) as [xs'|]|..];
        injection Hrm as <- <-; try done.
      split; [len|]. split; [by eapply plugin_ok_set_list|].
      split; [readers; by settle|]. split.
      * intros d0 items'. rewrite Hcomp. intros [= <-].
        unfold entries_of. look. rewrite Hd. intros [= <-]. by exists items.
      * intros l Hnt. pose proof (Hna l Hnt). by look.
    + erewrite remove_run_key in Hrm by eauto. injection Hrm as <- <-.
      split; [len|]. split; [by eapply plugin_ok_del_key|].
      split; [readers; by settle|]. split.
      * intros d0 items'. rewrite Hcomp. intros [= <-].
        unfold entries_of. look. rewrite Hd. intros [= <-]. exists items.
        split; [done|]. intros e He. by apply filter_In in He as [He _].
      * intros l Hnt. pose proof (Hnd l Hnt). by look.
  - erewrite remove_run_absent in Hrm by eauto. by injection Hrm as <- <-.
Qed.

(** [field_of] reads the plugin, its mapping and the set of the key, and
    nothing else. *)
Lemma field_of_reads h1 h2 p key :
  h2 !! p = h1 !! p ->
  (forall d, components_of h1 p = Some (VRef d) -> h2 !! d = h1 !! d) ->
  (forall a, slot_of h1 p key = Some (VRef a) -> h2 !! a = h1 !! a) ->
  field_of h2 p key = field_of h1 p key.
Proof.
  intros Hp Hd Ha. revert Hd Ha. readers. rewrite Hp.
  destruct (h1 !! p) as [[| | |m n v [| | |d]]|]; try done.
  intros Hd Ha. rewrite (Hd d eq_refl).
  destruct (h1 !! d) as [[| |mro kv items|]|]; try done.
  destruct (assoc (VStr key) items) as [[| | |a]|] eqn:Hk; try done.
  by rewrite (Ha a eq_refl).
Qed.

(** ** Sequences of calls on a plugin *)

Lemma touched_clear h p lo hi key contrib l :
  clear_of h p lo hi -> lo <= l < hi ->
  touched h p key contrib l ->
  contrib = VRef l /\ exists i, h !! l = Some (OInst i).
Proof.
  intros (Hok & Hhi & Hclear) Hl.
  apply plugin_ok_inv in Hok as (m & n & v & d & mro & items & Hp & Hd & Hall).
  assert (Hcomp : components_of h p = Some (VRef d))
    by (readers; by rewrite Hp).
  destruct (Hclear d Hcomp) as [Hd' Hsets].
  intros [Hc|[Hs|Hc]]; [| |done].
  - rewrite Hcomp in Hc. injection Hc as <-. lia.
  - exfalso. revert Hs. readers. rewrite Hp, Hd. intros Hk.
    apply assoc_In in Hk.
    apply (Hsets items (VStr key, VRef l) l); try done.
    unfold entries_of. by rewrite Hd.
Qed.

Lemma add_keeps_clear h p lo hi key contrib r h' :
  clear_of h p lo hi ->
  add p key contrib h = (r, h') ->
  clear_of h' p lo hi
  /\ forall l, lo <= l < hi ->
       (contrib = VRef l -> forall i, h !! l <> Some (OInst i)) ->
       h' !! l = h !! l.
Proof.
  intros Hclear Hadd. pose proof Hclear as (Hok & Hhi & Hout).
  destruct (add_effect _ _ _ _ _ _ Hok Hadd) as [Hev Hframe].
  pose proof Hev as [Hlen He].
  split.
  - split; [by eapply plugin_ok_evolves|]. split; [lia|].
    pose proof Hok as Hinv.
    apply plugin_ok_inv in Hinv
      as (m & n & v & d & mro & items & Hp & Hd & Hall).
    assert (Hcomp : components_of h p = Some (VRef d))
      by (readers; by rewrite Hp).
    destruct (Hout d Hcomp) as [Hd' Hsets].
    intros d0 Hcomp'.
    rewrite (components_of_evolves _ _ _ _ Hev Hcomp) in Hcomp'.
    injection Hcomp' as <-. split; [done|].
    intros items' e l. unfold entries_of.
    destruct (He _ _ Hd) as (o' & Hd1 & Hg). rewrite Hd1.
    destruct o' as [| |mro1 kv1 items1|]; try done.
    destruct Hg as (_ & _ & _ & Hin). intros [= <-] Hine El.
    apply Hin in Hine as [Hine|(_ & l0 & El0 & Hfresh)].
    + apply (Hsets items e l); try done. unfold entries_of. by rewrite Hd.
    + rewrite El in El0. injection El0 as <-. lia.
  - intros l Hl Hc. apply Hframe; [lia|]. intros Ht.
    apply (touched_clear _ _ _ _ _ _ _ Hclear Hl) in Ht as [-> [i Hi]].
    by apply (Hc eq_refl i).
Qed.

Lemma remove_keeps_clear h p lo hi key nm r h' :
  clear_of h p lo hi ->
  remove p key nm h = (r, h') ->
  clear_of h' p lo hi
  /\ forall l, lo <= l < hi -> h' !! l = h !! l.
Proof.
  intros Hclear Hrm. pose proof Hclear as (Hok & Hhi & Hout).
  destruct (remove_effect _ _ _ _ _ _ Hok Hrm)
    as (Hlen & Hok' & Hcomp & Hent & Hframe).
  split.
  - split; [done|]. split; [lia|].
    intros d Hd. rewrite Hcomp in Hd. destruct (Hout d Hd) as [Hd' Hsets].
    split; [done|]. intros items' e l He' Hin El.
    destruct (Hent d items' Hd He') as (items & He & Hsub).
    apply (Hsets items e l); auto.
  - intros l Hl. apply Hframe. intros Ht.
    by apply (touched_clear _ _ _ _ _ _ _ Hclear Hl) in Ht as [? _].
Qed.

(** A sequence of calls on a plugin that is clear of a range writes, in
    that range, at most the instances that its [add]s stamp. *)
Lemma run_ops_clear p lo hi os :
  forall h, clear_of h p lo hi ->
  forall l, lo <= l < hi ->
    (forall key, ~ In (Add key (VRef l)) os)
    \/ (forall i, h !! l <> Some (OInst i)) ->
    run_ops p os h !! l = h !! l.
Proof.
  induction os as [|o os IH]; [done|].
  intros h Hclear l Hl Hor. cbn [run_ops].
  destruct (run_op p o h) as [r h1] eqn:Hrun. cbn [snd].
  assert (Hstep : clear_of h1 p lo hi /\ h1 !! l = h !! l).
  { destruct o as [key contrib|key nm]; cbn [run_op] in Hrun.
    - destruct (add_keeps_clear _ _ _ _ _ _ _ _ Hclear Hrun) as [Hc1 Hsame].
      split; [done|]. apply Hsame; [done|]. intros -> i.
      destruct Hor as [Hno|Hni]; [|done].
      exfalso. apply (Hno key). by left.
    - destruct (remove_keeps_clear _ _ _ _ _ _ _ _ Hclear Hrun)
        as [Hc1 Hsame].
      split; [done|]. by apply Hsame. }
  destruct Hstep as [Hc1 Hl1]. rewrite <- Hl1. apply IH; [done..|].
  destruct Hor as [Hno|Hni].
  - left. intros key Hin. apply (Hno key). by right.
  - right. by rewrite Hl1.
Qed.

Lemma same_but_owner_refl o : same_but_owner o o.
Proof. by destruct o. Qed.

(** A sequence of calls on a plugin that is clear of a range changes, in
    that range, at most the owner that an instance records. *)
Lemma run_ops_kept p lo hi os :
  forall h l o,
    clear_of h p lo hi -> lo <= l < hi -> h !! l = Some o ->
    exists o', run_ops p os h !! l = Some o' /\ same_but_owner o o'.
Proof.
  induction os as [|c os IH]; intros h l o Hclear Hl Ho.
  { exists o. split; [done|apply same_but_owner_refl]. }
  cbn [run_ops]. destruct (run_op p c h) as [r h1] eqn:Hrun. cbn [snd].
  assert (Hstep : clear_of h1 p lo hi
                  /\ exists o1, h1 !! l = Some o1 /\ same_but_owner o o1).
  { destruct c as [key contrib|key nm]; cbn [run_op] in Hrun.
    - destruct (add_keeps_clear _ _ _ _ _ _ _ _ Hclear Hrun) as [Hc1 Hsame].
      split; [done|]. destruct Hclear as (Hok & _).
      destruct (add_effect _ _ _ _ _ _ Hok Hrun) as [[_ Hev] _].
      destruct (Hev _ _ Ho) as (o1 & Ho1 & Hg). exists o1. split; [done|].
      destruct o as [i| | |].
      + destruct o1 as [i1| | |]; try done.
      + rewrite Hsame in Ho1 by (done || (intros _ j; congruence)).
        rewrite Ho in Ho1. by injection Ho1 as <-.
      + rewrite Hsame in Ho1 by (done || (intros _ j; congruence)).
        rewrite Ho in Ho1. by injection Ho1 as <-.
      + rewrite Hsame in Ho1 by (done || (intros _ j; congruence)).
        rewrite Ho in Ho1. by injection Ho1 as <-.
    - destruct (remove_keeps_clear _ _ _ _ _ _ _ _ Hclear Hrun)
        as [Hc1 Hsame].
      split; [done|]. exists o. rewrite Hsame by done.
      split; [done|apply same_but_owner_refl]. }
  destruct Hstep as (Hc1 & o1 & Ho1 & Hs1).
  destruct (IH h1 l o1 Hc1 Hl Ho1) as (o' & Ho' & Hs'). exists o'.
  split; [done|].
  destruct o as [i| | |].
  - destruct o1 as [i1| | |]; try done. destruct o' as [i'| | |]; try done.
    cbn in *. destruct Hs1 as (? & ? & ?), Hs' as (? & ? & ?).
    repeat split; congruence.
  - cbn in Hs1. by subst o1.
  - cbn in Hs1. by subst o1.
  - cbn in Hs1. by subst o1.
Qed.

(** A well-formed plugin whose own cell, mapping and sets lie in a range
    is isolated from every plugin that is clear of that range. *)
Lemma clear_isolated h actor observer lo hi :
  clear_of h actor lo hi ->
  plugin_ok h observer = true ->
  lo <= observer < hi ->
  (forall d, components_of h observer = Some (VRef d) -> lo <= d < hi) ->
  (forall key a, slot_of h observer key = Some (VRef a) -> lo <= a < hi) ->
  isolated_from h actor observer lo hi.
Proof.
  intros Hclear Hok Hobs Hdict Hsets os.
  pose proof (run_ops_clear actor lo hi os h Hclear) as Hrun.
  split; [by auto|].
  apply plugin_ok_inv in Hok
    as (m & n & v & d & mro & items & Hp & Hd & Hall).
  assert (Hcomp : components_of h observer = Some (VRef d))
    by (readers; by rewrite Hp).
  intros key. apply field_of_reads.
  - apply Hrun; [done|]. right. intros i. congruence.
  - intros d0. rewrite Hcomp. intros [= <-].
    apply Hrun; [by apply Hdict|]. right. intros i. congruence.
  - intros a Ha. apply Hrun; [by eapply Hsets|].
    right. revert Ha. readers. rewrite Hp, Hd. intros Hk.
    pose proof (slot_is_component_set _ _ _ _ Hall Hk) as Hcs.
    apply is_component_set_inv in Hcs as (a0 & mro' & xs & [= <-] & Ha).
    intros i. congruence.
Qed.

(** ** [copy] *)

Section Copy.
Variable h : heap.
Local Abbreviation n := (length h).
Local Abbreviation h' := (h ++ map (shift_obj (length h)) h).

Lemma copy_lookup_old l : l < n -> h' !! l = h !! l.
Proof. intros Hl. by rewrite lookup_app_l. Qed.

Lemma copy_lookup_new l o :
  h !! l = Some o -> h' !! (l + n) = Some (shift_obj n o).
Proof.
  intros Hl. rewrite lookup_app_r by lia.
  replace (l + n - length h) with l by lia.
  rewrite list_lookup_fmap. by rewrite Hl.
Qed.

Lemma assoc_shift key items :
  assoc (VStr key)
    (map (fun kv => (shift_val n (fst kv), shift_val n (snd kv))) items)
  = option_map (shift_val n) (assoc (VStr key) items).
Proof.
  induction items as [|[k v] rest IH]; [done|].
  cbn [map assoc fst snd option_map].
  assert (E : val_eqb (shift_val n k) (VStr key) = val_eqb k (VStr key))
    by (by destruct k).
  rewrite E. by destruct (val_eqb k (VStr key)).
Qed.

Lemma is_component_set_clone v :
  is_component_set h v = true -> is_component_set h' (shift_val n v) = true.
Proof.
  intros Hv. apply is_component_set_inv in Hv as (a & mro & xs & -> & Ha).
  unfold is_component_set. cbn [shift_val].
  rewrite (copy_lookup_new _ _ Ha). cbn [shift_obj]. apply String.eqb_refl.
Qed.

Lemma plugin_ok_clone p :
  plugin_ok h p = true -> plugin_ok h' (p + n) = true.
Proof.
  intros Hok.
  apply plugin_ok_inv in Hok as (m & nm & v & d & mro & items & Hp & Hd & Hall).
  unfold plugin_ok, components_of.
  rewrite (copy_lookup_new _ _ Hp). cbn [shift_obj shift_val].
  rewrite (copy_lookup_new _ _ Hd). cbn [shift_obj].
  rewrite !String.eqb_refl. cbn [andb].
  rewrite forallb_forall in Hall. apply forallb_forall.
  intros e He. apply in_map_iff in He as ([k cs] & <- & Hin).
  cbn [fst snd]. apply is_component_set_clone. by apply (Hall (k, cs)).
Qed.

Lemma field_of_clone p key :
  plugin_ok h p = true ->
  field_of h' (p + n) key = map (shift_val n) (field_of h p key).
Proof.
  intros Hok.
  apply plugin_ok_inv in Hok as (m & nm & v & d & mro & items & Hp & Hd & Hall).
  readers. rewrite (copy_lookup_new _ _ Hp), Hp. cbn [shift_obj shift_val].
  rewrite (copy_lookup_new _ _ Hd), Hd. cbn [shift_obj].
  rewrite assoc_shift.
  destruct (assoc (VStr key) items) as [cs|] eqn:Hk; [|done].
  pose proof (slot_is_component_set _ _ _ _ Hall Hk) as Hcs.
  apply is_component_set_inv in Hcs as (a & mro' & xs & -> & Ha).
  cbn [option_map shift_val].
  by rewrite (copy_lookup_new _ _ Ha), Ha.
Qed.

Lemma plugin_ok_original p :
  plugin_ok h p = true -> plugin_ok h' p = true.
Proof. apply plugin_ok_evolves, evolves_app. Qed.

(** The mapping and the sets of the original lie below [n]. *)
Lemma original_within p :
  plugin_ok h p = true ->
  p < n
  /\ (forall d, components_of h' p = Some (VRef d) -> d < n)
  /\ (forall d items e l,
        components_of h' p = Some (VRef d) ->
        entries_of h' (VRef d) = Some items -> In e items ->
        snd e = VRef l -> l < n).
Proof.
  intros Hok.
  apply plugin_ok_inv in Hok as (m & nm & v & d & mro & items & Hp & Hd & Hall).
  bounds. readers. rewrite (copy_lookup_old p), Hp by done.
  split; [done|]. split; [by intros d0 [= <-]|].
  intros d0 items0 e l [= <-]. rewrite (copy_lookup_old d), Hd by done.
  intros [= <-] Hin El. rewrite forallb_forall in Hall. apply Hall in Hin.
  apply is_component_set_inv in Hin as (a & mro' & xs & E & Ha).
  rewrite El in E. injection E as ->. by eapply lookup_lt_Some.
Qed.

(** The clone, its mapping and its sets lie from [n] on. *)
Lemma clone_within p :
  plugin_ok h p = true ->
  n <= p + n < 2 * n
  /\ (forall d, components_of h' (p + n) = Some (VRef d) -> n <= d < 2 * n)
  /\ (forall d items e l,
        components_of h' (p + n) = Some (VRef d) ->
        entries_of h' (VRef d) = Some items -> In e items ->
        snd e = VRef l -> n <= l < 2 * n).
Proof.
  intros Hok.
  apply plugin_ok_inv in Hok as (m & nm & v & d & mro & items & Hp & Hd & Hall).
  bounds. readers.
  rewrite (copy_lookup_new _ _ Hp). cbn [shift_obj shift_val].
  split; [lia|]. split; [intros d0 [= <-]; lia|].
  intros d0 items0 e l [= <-].
  rewrite (copy_lookup_new _ _ Hd). cbn [shift_obj].
  intros [= <-] Hin El.
  apply in_map_iff in Hin as ([k cs] & <- & Hin). cbn [fst snd] in El.
  rewrite forallb_forall in Hall. apply Hall in Hin.
  apply is_component_set_inv in Hin as (a & mro' & xs & E & Ha).
  cbn [snd] in E. subst cs. cbn [shift_val] in El. injection El as <-.
  apply lookup_lt_Some in Ha. lia.
Qed.

Lemma slot_in_entries (g : heap) q key a :
  slot_of g q key = Some (VRef a) ->
  exists d items,
    components_of g q = Some (VRef d)
    /\ entries_of g (VRef d) = Some items
    /\ In (VStr key, VRef a) items.
Proof.
  intros Hs. apply slot_of_inv in Hs
    as (m & nm & v & d & mro & kv & items & Hq & Hd & Hk).
  exists d, items. readers. rewrite Hq, Hd.
  repeat split. by apply assoc_In.
Qed.

(** The clone is clear of the cells of the original store. *)
Lemma clone_clear p :
  plugin_ok h p = true -> clear_of h' (p + n) 0 n.
Proof.
  intros Hok. destruct (clone_within p Hok) as (_ & Hd & He).
  split; [by apply plugin_ok_clone|]. split; [len|].
  intros d Hc. split; [specialize (Hd d Hc); lia|].
  intros items e l Hent Hin El. specialize (He d items e l Hc Hent Hin El).
  lia.
Qed.

(** The original is clear of the cells of the duplicates. *)
Lemma original_clear p :
  plugin_ok h p = true -> clear_of h' p n (2 * n).
Proof.
  intros Hok. destruct (original_within p Hok) as (_ & Hd & He).
  split; [by apply plugin_ok_original|].
  split; [rewrite length_app, length_map; lia|].
  intros d Hc. split; [specialize (Hd d Hc); lia|].
  intros items e l Hent Hin El. specialize (He d items e l Hc Hent Hin El).
  lia.
Qed.

End Copy.

(** C9, as amended. [copy] returns a new plugin, the clone, in a store
    where every object of the original store is kept as it was and has a
    duplicate of its own at a new location.  The clone is well formed and
    holds, under every key, the duplicates of the components that the
    original holds, in the same order.  Whatever [add]s and [remove]s are
    run on one of the two plugins, and whatever their outcomes, every
    field of the other reads as before and no cell of the other is
    written, with one exception: an [add] stamps its argument, also when
    the argument is a component that the other plugin holds.  The owner
    that such a component records is all that can change. *)
Theorem copy_is_deep_and_isolated h p :
  plugin_ok h p = true ->
  exists h',
    copy p h = (Ok (VRef (p + length h)), h')
    /\ (forall l o, h !! l = Some o ->
          h' !! l = Some o
          /\ h' !! (l + length h) = Some (shift_obj (length h) o))
    /\ plugin_ok h' p = true
    /\ plugin_ok h' (p + length h) = true
    /\ (forall key,
          field_of h' p key = field_of h p key
          /\ field_of h' (p + length h) key
             = map (shift_val (length h)) (field_of h p key))
    /\ isolated_from h' (p + length h) p 0 (length h)
    /\ isolated_from h' p (p + length h) (length h) (2 * length h)
    /\ kept_but_owner h' (p + length h) 0 (length h)
    /\ kept_but_owner h' p (length h) (2 * length h).
Proof.
  intros Hok.
  pose proof (original_within h p Hok) as (Hp_lt & Hd_lt & He_lt).
  pose proof (clone_within h p Hok) as (Hc_in & Hd_in & He_in).
  pose proof (plugin_ok_original h p Hok) as Hok'.
  pose proof (plugin_ok_clone h p Hok) as Hokc.
  exists (h ++ map (shift_obj (length h)) h). split; [done|]. split; [|split; [done|split; [done|split]]].
  { intros l o Hl. bounds. split.
    - by rewrite (copy_lookup_old h l).
    - by apply copy_lookup_new. }
  { intros key. split; [|by apply field_of_clone].
    apply field_of_reads.
    - by apply copy_lookup_old.
    - intros d Hd. apply copy_lookup_old. apply Hd_lt.
      revert Hd. readers. by rewrite (copy_lookup_old h p).
    - intros a Ha. apply copy_lookup_old.
      assert (Ha' : slot_of (h ++ map (shift_obj (length h)) h) p key = Some (VRef a)).
      { revert Ha. readers. rewrite (copy_lookup_old h p) by done.
        destruct (h !! p) as [[| | |m nm v [| | |d]]|] eqn:Hp; try done.
        assert (d < length h) by (apply Hd_lt; readers;
          by rewrite (copy_lookup_old h p), Hp).
        by rewrite (copy_lookup_old h d). }
      apply slot_in_entries in Ha' as (d & items & Hc & Hent & Hin).
      by apply (He_lt d items _ a Hc Hent Hin). }
  split; [|split; [|split]].
  - apply clear_isolated; [by apply clone_clear|done|lia| |].
    + intros d Hd. specialize (Hd_lt d Hd). lia.
    + intros key a Ha.
      apply slot_in_entries in Ha as (d & items & Hc & Hent & Hin).
      specialize (He_lt d items _ a Hc Hent Hin eq_refl). lia.
  - apply clear_isolated; [by apply original_clear|done|lia|done|].
    intros key a Ha.
    apply slot_in_entries in Ha as (d & items & Hc & Hent & Hin).
    by apply (He_in d items _ a Hc Hent Hin).
  - intros os l o Hl Ho.
    eapply run_ops_kept; [by apply clone_clear|done|done].
  - intros os l o Hl Ho.
    eapply run_ops_kept; [by apply original_clear|done|done].
Qed.

(** The plugin that holds [CommandA] and [CommandB] under ["cmds"] is
    copied: the clone is at location 11. *)
Lemma copy_is_deep_and_isolated_witness :
  plugin_ok two_commands_store 4 = true
  /\ exists h',
       copy 4 two_commands_store
       = (Ok (VRef (4 + length two_commands_store)), h')
       /\ (forall l o, two_commands_store !! l = Some o ->
             h' !! l = Some o
             /\ h' !! (l + length two_commands_store)
                = Some (shift_obj (length two_commands_store) o))
       /\ plugin_ok h' 4 = true
       /\ plugin_ok h' (4 + length two_commands_store) = true
       /\ (forall key,
             field_of h' 4 key = field_of two_commands_store 4 key
             /\ field_of h' (4 + length two_commands_store) key
                = map (shift_val (length two_commands_store))
                    (field_of two_commands_store 4 key))
       /\ isolated_from h' (4 + length two_commands_store) 4 0
            (length two_commands_store)
       /\ isolated_from h' 4 (4 + length two_commands_store)
            (length two_commands_store) (2 * length two_commands_store)
       /\ kept_but_owner h' (4 + length two_commands_store) 0
            (length two_commands_store)
       /\ kept_but_owner h' 4 (length two_commands_store)
            (2 * length two_commands_store).
Proof.
  split; [reflexivity|].
  apply (copy_is_deep_and_isolated two_commands_store 4). reflexivity.
Defined.

(** C9, as stated, fails for an [add] on the clone whose argument is a
    component that the original holds.  The plugin ["p"] holds [CommandA],
    which records ["q"] as its owner since [q.add("tools", CommandA)].
    After [clone = p.copy()], at location 14, [clone.add("cmds",
    CommandA)] succeeds, and [CommandA], which the original still holds,
    records ["p"]: the call on the clone has changed what a component of
    the original reads. *)
Lemma clone_add_restamps_held_component :
  plugin_ok shared_command_store 4 = true
  /\ field_of shared_command_store 4 "cmds" = [VRef 0; VRef 1]
  /\ owner_of shared_command_store (VRef 0) = Some "q"
  /\ fst (copy 4 shared_command_store) = Ok (VRef 14)
  /\ owner_of (snd (copy 4 shared_command_store)) (VRef 0) = Some "q"
  /\ fst (add 14 "cmds" (VRef 0) (snd (copy 4 shared_command_store)))
     = Ok (VRef 14)
  /\ field_of (snd (add 14 "cmds" (VRef 0)
                      (snd (copy 4 shared_command_store)))) 4 "cmds"
     = [VRef 0; VRef 1]
  /\ owner_of (snd (add 14 "cmds" (VRef 0)
                      (snd (copy 4 shared_command_store)))) (VRef 0)
     = Some "p"
  /\ Some "q" <> Some "p".
Proof.
  split; [reflexivity|]. split; [reflexivity|]. split; [reflexivity|].
  split; [reflexivity|]. split; [reflexivity|]. split; [reflexivity|].
  split; [reflexivity|]. split; [reflexivity|]. discriminate.
Qed.

(** * Properties read off the methods *)

(** ** [remove] of a key *)

Lemma assoc_del_gone k items : assoc k (assoc_del k items) = None.
Proof.
  unfold assoc_del. induction items as [|[k0 v0] rest IH]; [done|].
  cbn [List.filter fst]. destruct (val_eqb k0 k) eqn:E; cbn [negb]; [done|].
  cbn [assoc]. by rewrite E.
Qed.

(** [remove] of a key that the mapping does not have raises [KeyError],
    with or without a component name, and leaves the store as it is
    (lines 157-158). *)
Theorem remove_absent_key_raises_KeyError h p d items key nm :
  components_of h p = Some (VRef d) ->
  entries_of h (VRef d) = Some items ->
  assoc (VStr key) items = None ->
  remove p key nm h = (Raise KeyError, h).
Proof.
  readers.
  destruct (h !! p) as [[| | |m n v c]|] eqn:Hp; try discriminate.
  intros [= ->].
  destruct (h !! d) as [[| |mro kv items0|]|] eqn:Hd; try discriminate.
  intros [= ->] Hk. by eapply remove_run_absent.
Qed.

(** [remove("absent-key")] on the plugin that only has ["cmds"]. *)
Lemma remove_absent_key_raises_KeyError_witness :
  components_of two_commands_store 4 = Some (VRef 5)
  /\ entries_of two_commands_store (VRef 5) = Some [(VStr "cmds", VRef 6)]
  /\ assoc (VStr "absent-key") [(VStr "cmds", VRef 6)] = None
  /\ remove 4 "absent-key" None two_commands_store
     = (Raise KeyError, two_commands_store).
Proof.
  split; [reflexivity|]. split; [reflexivity|]. split; [reflexivity|].
  apply (remove_absent_key_raises_KeyError two_commands_store 4 5
           [(VStr "cmds", VRef 6)] "absent-key" None); reflexivity.
Defined.

(** [remove(key)] without a component name deletes the key from the
    mapping (lines 159-160): the plugin stays well formed, the key is no
    longer in its mapping, and [get(key)] yields an empty sequence. *)
Theorem remove_whole_key h p key cs :
  plugin_ok h p = true ->
  slot_of h p key = Some cs ->
  exists h' h'',
    remove p key None h = (Ok (VRef p), h')
    /\ plugin_ok h' p = true
    /\ slot_of h' p key = None
    /\ (let* r := get p key in list_items r) h' = (Ok [], h'').
Proof.
  intros Hok Hs. pose proof Hok as Hinv.
  apply plugin_ok_inv in Hinv
    as (m & n & v & d & mro & items & Hp & Hd & Hall).
  assert (Hk : assoc (VStr key) items = Some cs).
  { revert Hs. readers. by rewrite Hp, Hd. }
  bounds. apart p d.
  set (h' := <[d := ODict mro (Some (str, ComponentSet))
                      (assoc_del (VStr key) items)]> h).
  assert (Hok' : plugin_ok h' p = true).
  { apply plugin_ok_del_key; [done| |done]. readers. by rewrite Hp. }
  assert (Hs' : slot_of h' p key = None).
  { readers. subst h'. settle. apply assoc_del_gone. }
  destruct (get_then_iterate h' p key Hok') as (h'' & Hget).
  exists h', h''. split; [by eapply remove_run_key|].
  split; [done|]. split; [done|].
  rewrite Hget. unfold field_of. by rewrite Hs'.
Qed.

(** [remove("cmds")] on the plugin that holds two commands under
    ["cmds"]. *)
Lemma remove_whole_key_witness :
  plugin_ok two_commands_store 4 = true
  /\ slot_of two_commands_store 4 "cmds" = Some (VRef 6)
  /\ exists h' h'',
       remove 4 "cmds" None two_commands_store = (Ok (VRef 4), h')
       /\ plugin_ok h' 4 = true
       /\ slot_of h' 4 "cmds" = None
       /\ (let* r := get 4 "cmds" in list_items r) h' = (Ok [], h'').
Proof.
  split; [reflexivity|]. split; [reflexivity|].
  apply (remove_whole_key two_commands_store 4 "cmds" (VRef 6)); reflexivity.
Defined.

(** ** Every outcome of [add] *)

Lemma attach_refused h v n :
  has_attach h v = false ->
  attach v n h = (if defined_in h v then Raise AttributeError else Wrong, h).
Proof.
  destruct v as [| | |c]; try done.
  unfold has_attach, defined_in, attach, bind, deref.
  destruct (h !! c) as [[i| | |]|]; try done. by intros ->.
Qed.

(** Lines 129-131, run on a store where the key has its set at [a]. *)
Lemma add_tail_run h0 a cmro xs contrib n p :
  h0 !! a = Some (OList cmro (Some Component) xs) ->
  (attach contrib n >> list_append (VRef a) contrib >> ret (VRef p)) h0
  = if has_attach h0 contrib
    then if isinstance h0 contrib Component
         then (Ok (VRef p),
               <[a := OList cmro (Some Component) (xs ++ [contrib])]>
                 (snd (attach contrib n h0)))
         else (Raise TypeError, snd (attach contrib n h0))
    else (if defined_in h0 contrib then Raise AttributeError else Wrong, h0).
Proof.
  intros Ha. destruct (has_attach h0 contrib) eqn:Hat.
  - destruct contrib as [| | |c]; try done. unfold has_attach in Hat.
    destruct (h0 !! c) as [[i| | |]|] eqn:Hc; try done.
    pose proof (attach_run _ _ _ n Hc Hat) as Hrun.
    rewrite (bind_ok _ _ _ _ _ Hrun), Hrun. cbn [snd].
    apart a c.
    assert (Ha1 : <[c := OInst (stamp n i)]> h0 !! a
                  = Some (OList cmro (Some Component) xs)) by hyp.
    pose proof (list_append_run _ _ _ _ _ (VRef c) Ha1) as Happ.
    cbv beta iota in Happ.
    assert (E : isinstance (<[c := OInst (stamp n i)]> h0) (VRef c) Component
                = isinstance h0 (VRef c) Component).
    { unfold isinstance, mro_of. bounds. look. by rewrite Hc. }
    rewrite E in Happ. destruct (isinstance h0 (VRef c) Component).
    + by rewrite (bind_ok _ _ _ _ _ Happ).
    + by rewrite (bind_raise _ _ _ _ _ Happ).
  - pose proof (attach_refused _ _ n Hat) as Hrun.
    destruct (defined_in h0 contrib).
    + by rewrite (bind_raise _ _ _ _ _ Hrun).
    + by rewrite (bind_wrong _ _ _ _ Hrun).
Qed.

Lemma assoc_snoc_other k k' v items :
  k' <> k -> assoc k' (items ++ [(k, v)]) = assoc k' items.
Proof.
  intros Hne. induction items as [|[k0 v0] rest IH]; simpl.
  - by rewrite val_eqb_neq.
  - by destruct (val_eqb k0 k').
Qed.

Lemma attach_stamps h v n :
  has_attach h v = true ->
  exists c i, v = VRef c /\ h !! c = Some (OInst i) /\ i_attach i = true
              /\ attach v n h = (Ok tt, <[c := OInst (stamp n i)]> h).
Proof.
  destruct v as [| | |c]; try done. unfold has_attach.
  destruct (h !! c) as [[i| | |]|] eqn:Hc; try done.
  intros Hat. exists c, i. repeat split; try done. by apply attach_run.
Qed.

(** *** The store after lines 127-128 on a new key *)

Section NewKey.
Variables (h : heap) (p d : loc) (m : val) (n : string) (v : option string).
Variables (mro : list cls) (items : list (val * val)) (key : string).
Hypothesis Hp : h !! p = Some (OPlugin m n v (VRef d)).
Hypothesis Hd : h !! d = Some (ODict mro (Some (str, ComponentSet)) items).
Hypothesis Hall : forallb (fun kv => is_component_set h (snd kv)) items = true.
Hypothesis Hk : assoc (VStr key) items = None.

Local Abbreviation h0 :=
  (<[d := ODict mro (Some (str, ComponentSet))
            (items ++ [(VStr key, VRef (length h))])]>
     (h ++ [OList ComponentSet_mro (Some Component) []])).

Lemma new_key_old l : l < length h -> l <> d -> h0 !! l = h !! l.
Proof. intros Hl Hne. by look. Qed.

Lemma new_key_plugin : h0 !! p = Some (OPlugin m n v (VRef d)).
Proof. bounds. apart p d. by look. Qed.

Lemma new_key_mapping :
  h0 !! d = Some (ODict mro (Some (str, ComponentSet))
                    (items ++ [(VStr key, VRef (length h))])).
Proof. bounds. by look. Qed.

Lemma new_key_set :
  h0 !! length h = Some (OList ComponentSet_mro (Some Component) []).
Proof. bounds. by look. Qed.

Lemma new_key_lookup l o :
  h !! l = Some o -> exists o', h0 !! l = Some o' /\ obj_mro o' = obj_mro o
    /\ (forall i, o = OInst i <-> o' = OInst i).
Proof.
  intros Hl. bounds. destruct (decide (l = d)) as [->|Hne].
  - rewrite Hd in Hl. injection Hl as <-. eexists. split; [by look|].
    split; [done|]. by split.
  - exists o. split; [by look|]. by split.
Qed.

Lemma new_key_inst l i : h0 !! l = Some (OInst i) <-> h !! l = Some (OInst i).
Proof.
  split.
  - intros Hl.
    eapply lookup_new_key_store_inst in Hl as [Hl _]; [done|exact Hd|done..].
  - intros Hl. bounds. apart l d. by look.
Qed.

Lemma new_key_has_attach x : has_attach h0 x = has_attach h x.
Proof.
  destruct x as [| | |c]; try done. unfold has_attach.
  destruct (h !! c) as [o|] eqn:Hc.
  - destruct (new_key_lookup _ _ Hc) as (o' & -> & _ & Hi).
    destruct o as [i| | |].
    + by rewrite (proj1 (Hi i) eq_refl).
    + destruct o' as [i'| | |]; try done. discriminate (proj2 (Hi i') eq_refl).
    + destruct o' as [i'| | |]; try done. discriminate (proj2 (Hi i') eq_refl).
    + destruct o' as [i'| | |]; try done. discriminate (proj2 (Hi i') eq_refl).
  - destruct (h0 !! c) as [[i| | |]|] eqn:Hc0; try done.
    apply new_key_inst in Hc0. congruence.
Qed.

Lemma new_key_owner x : owner_of h0 x = owner_of h x.
Proof.
  destruct x as [| | |c]; try done. unfold owner_of.
  destruct (h0 !! c) as [[i| | |]|] eqn:Hc0.
  - apply new_key_inst in Hc0. by rewrite Hc0.
  - destruct (h !! c) as [[i| | |]|] eqn:Hc; try done.
    apply new_key_inst in Hc. congruence.
  - destruct (h !! c) as [[i| | |]|] eqn:Hc; try done.
    apply new_key_inst in Hc. congruence.
  - destruct (h !! c) as [[i| | |]|] eqn:Hc; try done.
    apply new_key_inst in Hc. congruence.
  - destruct (h !! c) as [[i| | |]|] eqn:Hc; try done.
    apply new_key_inst in Hc. congruence.
Qed.

Lemma new_key_isinstance x C :
  defined_in h x = true -> isinstance h0 x C = isinstance h x C.
Proof.
  destruct x as [| | |c]; try done. unfold defined_in, isinstance, mro_of.
  destruct (h !! c) as [o|] eqn:Hc; [|done]. intros _.
  destruct (new_key_lookup _ _ Hc) as (o' & -> & -> & _). done.
Qed.

Lemma new_key_defined x : defined_in h x = true -> defined_in h0 x = true.
Proof.
  destruct x as [| | |c]; try done. unfold defined_in.
  destruct (h !! c) as [o|] eqn:Hc; [|done]. intros _.
  by destruct (new_key_lookup _ _ Hc) as (o' & -> & _).
Qed.

Lemma new_key_slot : slot_of h0 p key = Some (VRef (length h)).
Proof.
  readers. rewrite new_key_plugin, new_key_mapping.
  by apply assoc_snoc_absent.
Qed.

Lemma new_key_slot_other key' :
  key' <> key -> slot_of h0 p key' = slot_of h p key'.
Proof.
  intros Hne. readers. rewrite new_key_plugin, new_key_mapping, Hp, Hd.
  apply assoc_snoc_other. congruence.
Qed.

Lemma new_key_items cs :
  is_component_set h cs = true -> items_of h0 cs = items_of h cs.
Proof.
  intros Hcs. apply is_component_set_inv in Hcs as (a & mro' & xs & -> & Ha).
  bounds. apart a d. unfold items_of. by look.
Qed.

Lemma new_key_field key' : field_of h0 p key' = field_of h p key'.
Proof.
  unfold field_of. destruct (decide (key' = key)) as [->|Hne].
  - rewrite new_key_slot. unfold items_of. rewrite new_key_set.
    readers. by rewrite Hp, Hd, Hk.
  - rewrite (new_key_slot_other _ Hne).
    destruct (slot_of h p key') as [cs|] eqn:Hs; [|done].
    rewrite new_key_items; [done|].
    revert Hs. readers. rewrite Hp, Hd. by apply slot_is_component_set.
Qed.

Lemma new_key_ok : plugin_ok h0 p = true.
Proof.
  eapply plugin_ok_evolves; [by apply evolves_new_key|].
  unfold plugin_ok, components_of. by rewrite Hp, Hd, !String.eqb_refl, Hall.
Qed.

End NewKey.

(** *** The store after [attach] *)

Section Stamped.
Variables (h : heap) (c : loc) (i : instance) (n : string).
Hypothesis Hc : h !! c = Some (OInst i).

Local Abbreviation h1 := (<[c := OInst (stamp n i)]> h).

Lemma stamped_field q key :
  plugin_ok h q = true -> field_of h1 q key = field_of h q key.
Proof.
  intros Hok.
  apply plugin_ok_inv in Hok as (m & nq & v & d & mro & items & Hq & Hd & Hall).
  apart c q. apart c d.
  apply field_of_reads.
  - by look.
  - readers. rewrite Hq. intros d0 [= <-]. by look.
  - intros a Ha. revert Ha. readers. rewrite Hq, Hd. intros Hk.
    pose proof (slot_is_component_set _ _ _ _ Hall Hk) as Hcs.
    apply is_component_set_inv in Hcs as (a0 & mro' & xs & [= <-] & Ha).
    apart c a. by look.
Qed.

Lemma stamped_slot q key :
  plugin_ok h q = true -> slot_of h1 q key = slot_of h q key.
Proof.
  intros Hok.
  apply plugin_ok_inv in Hok as (m & nq & v & d & mro & items & Hq & Hd & Hall).
  apart c q. apart c d. readers. by settle.
Qed.

Lemma stamped_components q : components_of h1 q = components_of h q.
Proof.
  unfold components_of. destruct (decide (q = c)) as [->|Hne].
  - bounds. look. by rewrite Hc.
  - by look.
Qed.

Lemma stamped_entries x : entries_of h1 x = entries_of h x.
Proof.
  destruct x as [| | |l]; try done. unfold entries_of.
  destruct (decide (l = c)) as [->|Hne].
  - bounds. look. by rewrite Hc.
  - by look.
Qed.

Lemma stamped_plugin q m0 n0 v0 c0 :
  h !! q = Some (OPlugin m0 n0 v0 c0) -> h1 !! q = Some (OPlugin m0 n0 v0 c0).
Proof. intros Hq. apart q c. by look. Qed.

Lemma stamped_ok q : plugin_ok h q = true -> plugin_ok h1 q = true.
Proof. apply plugin_ok_evolves. by apply evolves_stamp. Qed.


Lemma stamped_owner_other x : x <> VRef c -> owner_of h1 x = owner_of h x.
Proof.
  destruct x as [| | |l]; try done. intros Hne.
  assert (l <> c) by congruence. unfold owner_of. by look.
Qed.

Lemma stamped_isinstance x C : isinstance h1 x C = isinstance h x C.
Proof.
  destruct x as [| | |l]; try done. unfold isinstance, mro_of.
  destruct (decide (l = c)) as [->|Hne].
  - bounds. look. by rewrite Hc.
  - by look.
Qed.

Lemma stamped_name x : name_of h1 x = name_of h x.
Proof.
  destruct x as [| | |l]; try done. unfold name_of.
  destruct (decide (l = c)) as [->|Hne].
  - bounds. look. by rewrite Hc.
  - by look.
Qed.

Lemma stamped_items x : items_of h1 x = items_of h x.
Proof.
  destruct x as [| | |l]; try done. unfold items_of.
  destruct (decide (l = c)) as [->|Hne].
  - bounds. look. by rewrite Hc.
  - by look.
Qed.

End Stamped.

(** [add] on a well-formed plugin, in full: the store after lines 127-128,
    then lines 129-131. *)
Lemma add_run h p key contrib :
  plugin_ok h p = true ->
  exists h0 a cmro n,
    plugin_name h p = Some n
    /\ add p key contrib h
       = (attach contrib n >> list_append (VRef a) contrib >> ret (VRef p)) h0
    /\ h0 !! a = Some (OList cmro (Some Component) (field_of h p key))
    /\ slot_of h0 p key = Some (VRef a)
    /\ plugin_ok h0 p = true
    /\ evolves h h0
    /\ (forall key', key' <> key -> slot_of h0 p key' = slot_of h p key')
    /\ (forall key', field_of h0 p key' = field_of h p key')
    /\ (forall x, has_attach h0 x = has_attach h x)
    /\ (forall x, owner_of h0 x = owner_of h x)
    /\ (forall x C, defined_in h x = true ->
          defined_in h0 x = true /\ isinstance h0 x C = isinstance h x C)
    /\ (forall l i, h0 !! l = Some (OInst i) <-> h !! l = Some (OInst i))
    /\ (forall cs, is_component_set h cs = true ->
          items_of h0 cs = items_of h cs)
    /\ match slot_of h p key with
       | Some cs => cs = VRef a /\ h0 = h
       | None => a = length h /\ length h0 = S (length h)
       end
    /\ h0 !! p = h !! p
    /\ exists d items,
         components_of h p = Some (VRef d)
         /\ entries_of h (VRef d) = Some items
         /\ entries_of h0 (VRef d)
            = Some (match slot_of h p key with
                    | Some _ => items
                    | None => items ++ [(VStr key, VRef (length h))]
                    end).
Proof.
  intros Hok.
  apply plugin_ok_inv in Hok as (m & n & v & d & mro & items & Hp & Hd & Hall).
  assert (Hname : plugin_name h p = Some n) by (readers; by rewrite Hp).
  assert (Hok : plugin_ok h p = true).
  { unfold plugin_ok, components_of. by rewrite Hp, Hd, !String.eqb_refl, Hall. }
  destruct (assoc (VStr key) items) as [cs|] eqn:Hk.
  - pose proof (slot_is_component_set _ _ _ _ Hall Hk) as Hcs.
    apply is_component_set_inv in Hcs as (a & cmro & xs & -> & Ha).
    assert (Hs : slot_of h p key = Some (VRef a))
      by (readers; by rewrite Hp, Hd).
    assert (Hf : field_of h p key = xs).
    { unfold field_of. rewrite Hs. unfold items_of. by rewrite Ha. }
    exists h, a, cmro, n. rewrite Hs, Hf.
    assert (Hc : components_of h p = Some (VRef d))
      by (readers; by rewrite Hp).
    assert (He : entries_of h (VRef d) = Some items)
      by (readers; by rewrite Hd).
    repeat split; try done.
    + by eapply add_present_run.
    + apply evolves_refl.
    + by exists d, items.
  - assert (Hs : slot_of h p key = None) by (readers; by rewrite Hp, Hd).
    assert (Hf : field_of h p key = []) by (unfold field_of; by rewrite Hs).
    exists (<[d := ODict mro (Some (str, ComponentSet))
                    (items ++ [(VStr key, VRef (length h))])]>
              (h ++ [OList ComponentSet_mro (Some Component) []])),
      (length h), ComponentSet_mro, n.
    rewrite Hs, Hf. split; [done|]. split; [by eapply add_absent_run|].
    split; [by eapply new_key_set|].
    split; [by eapply new_key_slot|].
    split; [by eapply new_key_ok|].
    split; [by apply evolves_new_key|].
    split; [intros; by eapply new_key_slot_other|].
    split; [intros; by eapply new_key_field|].
    split; [intros; by eapply new_key_has_attach|].
    split; [intros; by eapply new_key_owner|].
    split.
    { intros x C Hx. split; [by eapply new_key_defined|].
      by eapply new_key_isinstance. }
    split; [intros; by eapply new_key_inst|].
    split; [intros; by eapply new_key_items|].
    split; [split; [done|len]|].
    split; [by rewrite (new_key_plugin h p d m n v)|].
    exists d, items. split; [readers; by rewrite Hp|].
    split; [readers; by rewrite Hd|].
    unfold entries_of. by erewrite new_key_mapping.
Qed.

(** *** The store after a component set has been rewritten *)

Section Listed.
Variables (h : heap) (a : loc) (mro : list cls) (elt : option cls).
Variables (xs xs' : list val).
Hypothesis Ha : h !! a = Some (OList mro elt xs).

Local Abbreviation h2 := (<[a := OList mro elt xs']> h).

Lemma listed_components q : components_of h2 q = components_of h q.
Proof.
  unfold components_of. destruct (decide (q = a)) as [->|Hne].
  - bounds. look. by rewrite Ha.
  - by look.
Qed.

Lemma listed_entries x : entries_of h2 x = entries_of h x.
Proof.
  destruct x as [| | |l]; try done. unfold entries_of.
  destruct (decide (l = a)) as [->|Hne].
  - bounds. look. by rewrite Ha.
  - by look.
Qed.

Lemma listed_slot q key : slot_of h2 q key = slot_of h q key.
Proof. unfold slot_of. rewrite listed_components. by destruct (components_of h q) as [x|]; [rewrite listed_entries|]. Qed.

Lemma listed_items : items_of h2 (VRef a) = Some xs'.
Proof. bounds. unfold items_of. by look. Qed.

Lemma listed_items_other x : x <> VRef a -> items_of h2 x = items_of h x.
Proof.
  destruct x as [| | |l]; try done. intros Hne.
  assert (l <> a) by congruence. unfold items_of. by look.
Qed.

Lemma listed_field_same q key :
  slot_of h q key = Some (VRef a) -> field_of h2 q key = xs'.
Proof. intros Hs. unfold field_of. by rewrite listed_slot, Hs, listed_items. Qed.

Lemma listed_field_other q key :
  slot_of h q key <> Some (VRef a) -> field_of h2 q key = field_of h q key.
Proof.
  intros Hs. unfold field_of. rewrite listed_slot.
  destruct (slot_of h q key) as [cs|]; [|done].
  rewrite listed_items_other; [done|congruence].
Qed.

Lemma listed_isinstance x C : isinstance h2 x C = isinstance h x C.
Proof.
  destruct x as [| | |l]; try done. unfold isinstance, mro_of.
  destruct (decide (l = a)) as [->|Hne].
  - bounds. look. by rewrite Ha.
  - by look.
Qed.

Lemma listed_owner x : owner_of h2 x = owner_of h x.
Proof.
  destruct x as [| | |l]; try done. unfold owner_of.
  destruct (decide (l = a)) as [->|Hne].
  - bounds. look. by rewrite Ha.
  - by look.
Qed.

Lemma listed_name x : name_of h2 x = name_of h x.
Proof.
  destruct x as [| | |l]; try done. unfold name_of.
  destruct (decide (l = a)) as [->|Hne].
  - bounds. look. by rewrite Ha.
  - by look.
Qed.

Lemma listed_plugin q m n v c :
  h !! q = Some (OPlugin m n v c) -> h2 !! q = Some (OPlugin m n v c).
Proof. intros Hq. apart q a. by look. Qed.

End Listed.

(** *** The store after the mapping has been rewritten *)

Section Remapped.
Variables (h : heap) (d : loc) (mro : list cls) (kv : option (cls * cls)).
Variables (items items' : list (val * val)).
Hypothesis Hd : h !! d = Some (ODict mro kv items).

Local Abbreviation h3 := (<[d := ODict mro kv items']> h).

Lemma remapped_components q : components_of h3 q = components_of h q.
Proof.
  unfold components_of. destruct (decide (q = d)) as [->|Hne].
  - bounds. look. by rewrite Hd.
  - by look.
Qed.

Lemma remapped_entries : entries_of h3 (VRef d) = Some items'.
Proof. bounds. unfold entries_of. by look. Qed.

Lemma remapped_items x : items_of h3 x = items_of h x.
Proof.
  destruct x as [| | |l]; try done. unfold items_of.
  destruct (decide (l = d)) as [->|Hne].
  - bounds. look. by rewrite Hd.
  - by look.
Qed.

Lemma remapped_isinstance x C : isinstance h3 x C = isinstance h x C.
Proof.
  destruct x as [| | |l]; try done. unfold isinstance, mro_of.
  destruct (decide (l = d)) as [->|Hne].
  - bounds. look. by rewrite Hd.
  - by look.
Qed.

Lemma remapped_owner x : owner_of h3 x = owner_of h x.
Proof.
  destruct x as [| | |l]; try done. unfold owner_of.
  destruct (decide (l = d)) as [->|Hne].
  - bounds. look. by rewrite Hd.
  - by look.
Qed.

Lemma remapped_is_component x : is_component h3 x = is_component h x.
Proof.
  destruct x as [| | |l]; try done. unfold is_component.
  destruct (decide (l = d)) as [->|Hne].
  - bounds. look. by rewrite Hd.
  - by look.
Qed.

Lemma remapped_plugin q m n v c :
  h !! q = Some (OPlugin m n v c) -> h3 !! q = Some (OPlugin m n v c).
Proof. intros Hq. apart q d. by look. Qed.

End Remapped.

(** *** Lists without repetition *)

Lemma existsb_val_eqb x xs : existsb (val_eqb x) xs = true <-> In x xs.
Proof.
  rewrite existsb_exists. split.
  - intros (y & Hy & E). apply val_eqb_eq in E. by subst.
  - intros Hx. exists x. split; [done|apply val_eqb_refl].
Qed.

Lemma distinct_NoDup xs : distinct xs = true <-> List.NoDup xs.
Proof.
  induction xs as [|x xs IH]; cbn [distinct].
  - split; [constructor|done].
  - rewrite andb_true_iff, negb_true_iff, IH. split.
    + intros [Hx Hxs]. constructor; [|done].
      intros Hin. apply existsb_val_eqb in Hin. congruence.
    + intros Hnd. inversion Hnd as [|? ? Hx Hxs]; subst. split; [|done].
      destruct (existsb (val_eqb x) xs) eqn:E; [|done].
      by apply existsb_val_eqb in E.
Qed.

Lemma distinct_snoc xs x :
  distinct xs = true -> ~ In x xs -> distinct (xs ++ [x]) = true.
Proof.
  rewrite !distinct_NoDup. intros Hnd Hx.
  induction Hnd as [|y ys Hy Hys IH]; cbn [app].
  - constructor; [by intros []|constructor].
  - constructor.
    + intros Hin. apply in_app_or in Hin as [Hin|[->|[]]]; [done|].
      apply Hx. by left.
    + apply IH. intros Hin. apply Hx. by right.
Qed.

Lemma distinct_filter (f : val * val -> bool) items :
  distinct (map snd items) = true ->
  distinct (map snd (List.filter f items)) = true.
Proof.
  rewrite !distinct_NoDup.
  induction items as [|e rest IH]; cbn [map List.filter]; [done|].
  intros Hnd. inversion Hnd as [|? ? Hx Hxs]; subst.
  destruct (f e); [|by apply IH]. cbn [map]. constructor; [|by apply IH].
  intros Hin. apply Hx. apply in_map_iff in Hin as (e' & <- & Hin).
  apply filter_In in Hin as [Hin _]. by apply in_map.
Qed.

(** *** What [next] finds and what [list.remove] leaves *)

Lemma next_named_In nm xs h c h' :
  next_named nm xs h = (Ok c, h') -> In c xs.
Proof.
  induction xs as [|x xs IH]; [done|]. cbn [next_named]. unfold bind at 1.
  destruct (attr_name x h) as [[n|e|] h1] eqn:Hn; try done.
  apply attr_name_heap in Hn as ->.
  destruct (String.eqb n nm).
  - intros [= <- _]. by left.
  - intros H. right. by apply IH.
Qed.

Lemma remove_first_In c xs :
  In c xs -> exists xs', remove_first c xs = Some xs'.
Proof.
  induction xs as [|x xs IH]; [done|]. cbn [remove_first].
  destruct (val_eqb x c) eqn:E; [by eexists|].
  intros [->|Hin]; [by rewrite val_eqb_refl in E|].
  destruct (IH Hin) as (xs' & ->). by eexists.
Qed.

Lemma remove_first_sub c xs xs' :
  remove_first c xs = Some xs' -> forall x, In x xs' -> In x xs.
Proof.
  revert xs'. induction xs as [|y ys IH]; [done|]. cbn [remove_first].
  intros xs'. destruct (val_eqb y c).
  - intros [= <-] x Hx. by right.
  - destruct (remove_first c ys) as [ys'|]; [|done].
    intros [= <-] x [->|Hx]; [by left|]. right. by eapply IH.
Qed.

(** Every outcome of [remove] on a well-formed plugin: the store is as it
    was, or the key has been deleted from the mapping, or one component has
    been taken out of the set of the key. *)
Lemma remove_cases h p key nm r h' :
  plugin_ok h p = true ->
  remove p key nm h = (r, h') ->
  (h' = h /\ r <> Ok (VRef p) /\ r <> Raise ValueError)
  \/ (exists d mro kv items cs,
        nm = None /\ r = Ok (VRef p)
        /\ components_of h p = Some (VRef d)
        /\ h !! d = Some (ODict mro kv items)
        /\ assoc (VStr key) items = Some cs
        /\ h' = <[d := ODict mro kv (assoc_del (VStr key) items)]> h)
  \/ (exists name a cmro elt xs c xs',
        nm = Some name /\ r = Ok (VRef p)
        /\ slot_of h p key = Some (VRef a)
        /\ h !! a = Some (OList cmro elt xs)
        /\ next_named name xs h = (Ok c, h)
        /\ remove_first c xs = Some xs'
        /\ h' = <[a := OList cmro elt xs']> h).
Proof.
  intros Hok Hrm.
  apply plugin_ok_inv in Hok as (m & n & v & d & mro & items & Hp & Hd & Hall).
  destruct (assoc (VStr key) items) as [cs|] eqn:Hk.
  - pose proof (slot_is_component_set _ _ _ _ Hall Hk) as Hcs.
    apply is_component_set_inv in Hcs as (a & mro' & xs & -> & Hl).
    destruct nm as [nm|].
    + erewrite remove_run_named in Hrm by eauto.
      destruct (next_named nm xs h) as [r0 h1] eqn:Hnext.
      pose proof (next_named_heap _ _ _ _ _ Hnext) as ->. cbn [fst] in Hrm.
      destruct r0 as [c|e|].
      * destruct (remove_first_In c xs (next_named_In _ _ _ _ _ Hnext))
          as (xs' & Hrf).
        rewrite Hrf in Hrm. injection Hrm as <- <-.
        right. right. exists nm, a, mro', (Some Component), xs, c, xs'.
        repeat split; try done. readers. by rewrite Hp, Hd.
      * injection Hrm as <- <-. left. repeat split; try done.
        intros [= ->]. clear -Hnext.
        induction xs as [|x xs IH]; [done|]. cbn [next_named] in Hnext.
        unfold bind at 1 in Hnext.
        destruct (attr_name x h) as [[nx|e|] h1] eqn:Hn.
        -- apply attr_name_heap in Hn as ->.
           destruct (String.eqb nx nm); [done|by apply IH].
        -- injection Hnext as -> _. clear -Hn.
           destruct x as [| | |l]; try done.
           unfold attr_name, bind, deref in Hn.
           destruct (h !! l) as [[i| | |]|]; try done.
           by destruct (i_name i).
        -- done.
      * injection Hrm as <- <-. by left.
    + erewrite remove_run_key in Hrm by eauto. injection Hrm as <- <-.
      right. left. exists d, mro, (Some (str, ComponentSet)), items, (VRef a).
      repeat split; try done. readers. by rewrite Hp.
  - erewrite remove_run_absent in Hrm by eauto. injection Hrm as <- <-.
    by left.
Qed.

(** ** What every call keeps *)

Lemma forallb_eq {A} (f g : A -> bool) l :
  (forall x, In x l -> f x = g x) -> forallb f l = forallb g l.
Proof.
  induction l as [|x l IH]; [done|]. intros H. cbn [forallb].
  rewrite (H x) by (by left). rewrite IH; [done|].
  intros y Hy. apply H. by right.
Qed.

Lemma isinstance_defined h x C :
  isinstance h x C = true -> defined_in h x = true.
Proof.
  destruct x as [| | |l]; try done. unfold isinstance, mro_of, defined_in.
  by destruct (h !! l).
Qed.

Lemma separate_sets_inv h p :
  separate_sets h p = true ->
  plugin_ok h p = true
  /\ exists d items,
       components_of h p = Some (VRef d)
       /\ entries_of h (VRef d) = Some items
       /\ distinct (map snd items) = true.
Proof.
  unfold separate_sets. intros H. apply andb_true_iff in H as [Hok H].
  split; [done|].
  destruct (plugin_ok_inv _ _ Hok) as (m & n & v & d & mro & items & Hp & Hd & _).
  exists d, items. revert H. readers. by rewrite Hp, Hd.
Qed.

Lemma separate_sets_intro h p d items :
  plugin_ok h p = true ->
  components_of h p = Some (VRef d) ->
  entries_of h (VRef d) = Some items ->
  distinct (map snd items) = true ->
  separate_sets h p = true.
Proof.
  intros Hok Hc He Hnd. unfold separate_sets. by rewrite Hok, Hc, He.
Qed.

Lemma typed_sets_inv h p :
  typed_sets h p = true ->
  plugin_ok h p = true
  /\ exists d items,
       components_of h p = Some (VRef d)
       /\ entries_of h (VRef d) = Some items
       /\ forallb (fun kv => holds_components h (snd kv)) items = true.
Proof.
  unfold typed_sets. intros H. apply andb_true_iff in H as [Hok H].
  split; [done|].
  destruct (plugin_ok_inv _ _ Hok) as (m & n & v & d & mro & items & Hp & Hd & _).
  exists d, items. revert H. readers. by rewrite Hp, Hd.
Qed.

Lemma typed_sets_intro h p d items :
  plugin_ok h p = true ->
  components_of h p = Some (VRef d) ->
  entries_of h (VRef d) = Some items ->
  forallb (fun kv => holds_components h (snd kv)) items = true ->
  typed_sets h p = true.
Proof.
  intros Hok Hc He Hall. unfold typed_sets. by rewrite Hok, Hc, He.
Qed.

(** The sets of a well-formed plugin are objects of the store. *)
Lemma sets_allocated h p d items e :
  plugin_ok h p = true ->
  components_of h p = Some (VRef d) ->
  entries_of h (VRef d) = Some items ->
  In e items ->
  is_component_set h (snd e) = true
  /\ exists a, snd e = VRef a /\ a < length h.
Proof.
  intros Hok Hc He Hin.
  apply plugin_ok_inv in Hok as (m & n & v & d0 & mro & items0 & Hp & Hd & Hall).
  revert Hc He. readers. rewrite Hp. intros [= <-]. rewrite Hd. intros [= <-].
  rewrite forallb_forall in Hall. pose proof (Hall _ Hin) as Hcs.
  split; [done|].
  apply is_component_set_inv in Hcs as (a & mro' & xs & E & Ha).
  exists a. split; [done|]. by eapply lookup_lt_Some.
Qed.

(** Two keys of a plugin whose sets are separate have different sets. *)
Lemma separate_slots h p k1 k2 cs :
  separate_sets h p = true ->
  slot_of h p k1 = Some cs -> slot_of h p k2 = Some cs -> k1 = k2.
Proof.
  intros Hsep. apply separate_sets_inv in Hsep as (_ & d & items & Hc & He & Hnd).
  unfold slot_of. rewrite Hc, He. apply distinct_NoDup in Hnd.
  clear Hc He. induction items as [|[k v] rest IH]; [done|].
  cbn [map snd] in Hnd. inversion Hnd as [|? ? Hv Hrest]; subst.
  cbn [assoc].
  destruct (val_eqb k (VStr k1)) eqn:E1, (val_eqb k (VStr k2)) eqn:E2.
  - apply val_eqb_eq in E1, E2. congruence.
  - intros [= ->] H2. apply assoc_In in H2. destruct Hv.
    apply in_map_iff. by exists (VStr k2, cs).
  - intros H1 [= ->]. apply assoc_In in H1. destruct Hv.
    apply in_map_iff. by exists (VStr k1, cs).
  - by apply IH.
Qed.

Lemma holds_components_stamped h c i n x :
  h !! c = Some (OInst i) ->
  holds_components (<[c := OInst (stamp n i)]> h) x = holds_components h x.
Proof.
  intros Hc. unfold holds_components. rewrite (stamped_items h c i n Hc).
  destruct (items_of h x) as [xs|]; [|done].
  apply forallb_eq. intros y _. by apply stamped_isinstance.
Qed.

Lemma separate_stamped h c i n q :
  h !! c = Some (OInst i) ->
  separate_sets h q = true ->
  separate_sets (<[c := OInst (stamp n i)]> h) q = true.
Proof.
  intros Hc Hsep. apply separate_sets_inv in Hsep as (Hok & d & items & Hq & He & Hnd).
  apply separate_sets_intro with d items; try done.
  - by apply stamped_ok.
  - by rewrite (stamped_components h c i n Hc).
  - by rewrite (stamped_entries h c i n Hc).
Qed.

Lemma typed_stamped h c i n q :
  h !! c = Some (OInst i) ->
  typed_sets h q = true ->
  typed_sets (<[c := OInst (stamp n i)]> h) q = true.
Proof.
  intros Hc Hty. apply typed_sets_inv in Hty as (Hok & d & items & Hq & He & Hall).
  apply typed_sets_intro with d items; try done.
  - by apply stamped_ok.
  - by rewrite (stamped_components h c i n Hc).
  - by rewrite (stamped_entries h c i n Hc).
  - rewrite <- Hall. apply forallb_eq. intros e _.
    by apply holds_components_stamped.
Qed.

Lemma separate_listed h a mro elt xs xs' q :
  h !! a = Some (OList mro elt xs) ->
  separate_sets h q = true ->
  separate_sets (<[a := OList mro elt xs']> h) q = true.
Proof.
  intros Ha Hsep. apply separate_sets_inv in Hsep as (Hok & d & items & Hq & He & Hnd).
  apply separate_sets_intro with d items; try done.
  - by eapply plugin_ok_set_list.
  - by rewrite (listed_components h a mro elt xs xs' Ha).
  - by rewrite (listed_entries h a mro elt xs xs' Ha).
Qed.

Lemma typed_listed h a mro elt xs xs' q :
  h !! a = Some (OList mro elt xs) ->
  forallb (fun x => isinstance h x Component) xs' = true ->
  typed_sets h q = true ->
  typed_sets (<[a := OList mro elt xs']> h) q = true.
Proof.
  intros Ha Hxs' Hty.
  apply typed_sets_inv in Hty as (Hok & d & items & Hq & He & Hall).
  apply typed_sets_intro with d items; try done.
  - by eapply plugin_ok_set_list.
  - by rewrite (listed_components h a mro elt xs xs' Ha).
  - by rewrite (listed_entries h a mro elt xs xs' Ha).
  - rewrite forallb_forall in Hall. apply forallb_forall. intros e Hin.
    pose proof (Hall _ Hin) as He0. unfold holds_components in *.
    destruct (snd e) as [| | |l] eqn:El; try done.
    destruct (decide (l = a)) as [->|Hne].
    + rewrite (listed_items h a mro elt xs xs' Ha). rewrite <- Hxs'.
      apply forallb_eq. intros y _. by eapply listed_isinstance.
    + rewrite listed_items_other by congruence.
      destruct (items_of h (VRef l)) as [ys|]; [|done]. rewrite <- He0.
      apply forallb_eq. intros y _. by eapply listed_isinstance.
Qed.

(** Whatever its outcome, [add] keeps the sets of the plugin separate,
    and does not write the plugin object itself. *)
Lemma add_keeps_separate h p key contrib r h' :
  separate_sets h p = true ->
  add p key contrib h = (r, h') ->
  separate_sets h' p = true /\ h' !! p = h !! p.
Proof.
  intros Hsep Hadd.
  apply separate_sets_inv in Hsep as (Hok & d & items & Hc & He & Hnd).
  destruct (add_run h p key contrib Hok)
    as (h0 & a & cmro & n & Hn & Hrun & Ha & Hs & Hok0 & Hev & Hso & Hf
        & Hat & Hown & Hdef & Hinst & Hitems & Hcase & Hp0
        & d' & items' & Hc' & He' & He0).
  rewrite Hc in Hc'. injection Hc' as <-.
  rewrite He in He'. injection He' as <-.
  destruct (plugin_ok_inv _ _ Hok) as (m & n' & v & d0 & mro & its & Hp & _).
  assert (Hp0' : h0 !! p = Some (OPlugin m n' v (VRef d0))) by congruence.
  assert (Hsep0 : separate_sets h0 p = true).
  { eapply separate_sets_intro; [done| |exact He0|].
    - unfold components_of. rewrite Hp0. exact Hc.
    - destruct (slot_of h p key); [done|].
      rewrite map_app. apply distinct_snoc; [done|]. cbn [map snd].
      intros Hin. apply in_map_iff in Hin as (e & E & Hin).
      destruct (sets_allocated _ _ _ _ _ Hok Hc He Hin) as (_ & a0 & E' & Hlt).
      rewrite E in E'. injection E' as <-. lia. }
  rewrite Hrun, (add_tail_run _ _ _ _ _ _ _ Ha) in Hadd.
  destruct (has_attach h0 contrib) eqn:E.
  - destruct (attach_stamps h0 contrib n E) as (c & i & -> & Hc0 & Hai & Hatt).
    rewrite Hatt in Hadd. cbn [snd] in Hadd.
    pose proof (separate_stamped _ _ _ n _ Hc0 Hsep0) as Hsep1.
    pose proof (stamped_plugin _ _ _ n Hc0 _ _ _ _ _ Hp0') as Hp1.
    apart a c.
    assert (Ha1 : <[c := OInst (stamp n i)]> h0 !! a
                  = Some (OList cmro (Some Component) (field_of h p key)))
      by hyp.
    destruct (isinstance h0 (VRef c) Component); injection Hadd as <- <-.
    + split; [by eapply separate_listed|].
      rewrite Hp. by eapply listed_plugin.
    + split; [done|]. by rewrite Hp.
  - injection Hadd as <- <-. by split.
Qed.

(** Whatever its outcome, [add] keeps every set of the plugin typed. *)
Lemma add_keeps_typed h p key contrib r h' :
  typed_sets h p = true ->
  add p key contrib h = (r, h') ->
  typed_sets h' p = true.
Proof.
  intros Hty Hadd.
  apply typed_sets_inv in Hty as (Hok & d & items & Hc & He & Hall).
  destruct (add_run h p key contrib Hok)
    as (h0 & a & cmro & n & Hn & Hrun & Ha & Hs & Hok0 & Hev & Hso & Hf
        & Hat & Hown & Hdef & Hinst & Hitems & Hcase & Hp0
        & d' & items' & Hc' & He' & He0).
  rewrite Hc in Hc'. injection Hc' as <-.
  rewrite He in He'. injection He' as <-.
  assert (Hold : forall cs, is_component_set h cs = true ->
            holds_components h cs = true -> holds_components h0 cs = true).
  { intros cs Hcs. unfold holds_components. rewrite (Hitems cs Hcs).
    destruct (items_of h cs) as [ys|]; [|done]. intros Hys.
    rewrite forallb_forall in Hys. apply forallb_forall. intros y Hy.
    pose proof (Hys y Hy) as Hi.
    destruct (Hdef y Component (isinstance_defined _ _ _ Hi)) as [_ ->].
    done. }
  assert (Hfield : forallb (fun x => isinstance h0 x Component)
                     (field_of h p key) = true).
  { unfold field_of. destruct (slot_of h p key) as [cs|] eqn:Hslot; [|done].
    destruct Hcase as [-> ->].
    assert (Hin : In (VStr key, VRef a) items).
    { revert Hslot. unfold slot_of. rewrite Hc, He. apply assoc_In. }
    rewrite forallb_forall in Hall. pose proof (Hall _ Hin) as Hh.
    unfold holds_components in Hh. cbn [snd] in Hh.
    by destruct (items_of h (VRef a)). }
  assert (Hty0 : typed_sets h0 p = true).
  { eapply typed_sets_intro; [done| |exact He0|].
    - unfold components_of. rewrite Hp0. exact Hc.
    - assert (Hitems0 : forallb (fun kv => holds_components h0 (snd kv)) items
                        = true).
      { rewrite forallb_forall in Hall. apply forallb_forall. intros e Hin.
        apply Hold; [|by apply Hall].
        by destruct (sets_allocated _ _ _ _ _ Hok Hc He Hin). }
      destruct (slot_of h p key) as [cs|]; [done|].
      rewrite forallb_app, Hitems0. cbn [forallb snd andb].
      destruct Hcase as [-> _]. unfold holds_components, items_of.
      by rewrite Ha, Hfield. }
  rewrite Hrun, (add_tail_run _ _ _ _ _ _ _ Ha) in Hadd.
  destruct (has_attach h0 contrib) eqn:E.
  - destruct (attach_stamps h0 contrib n E) as (c & i & -> & Hc0 & Hai & Hatt).
    rewrite Hatt in Hadd. cbn [snd] in Hadd.
    pose proof (typed_stamped _ _ _ n _ Hc0 Hty0) as Hty1.
    apart a c.
    assert (Ha1 : <[c := OInst (stamp n i)]> h0 !! a
                  = Some (OList cmro (Some Component) (field_of h p key)))
      by hyp.
    destruct (isinstance h0 (VRef c) Component) eqn:Hi;
      injection Hadd as <- <-; [|done].
    eapply typed_listed; [done| |done].
    rewrite forallb_app. cbn [forallb]. rewrite andb_true_r.
    rewrite (stamped_isinstance h0 c i n Hc0), Hi, andb_true_r.
    rewrite <- Hfield. apply forallb_eq. intros y _.
    by apply stamped_isinstance.
  - by injection Hadd as <- <-.
Qed.

Lemma assoc_del_other k k' items :
  k' <> k -> assoc k' (assoc_del k items) = assoc k' items.
Proof.
  intros Hne. unfold assoc_del.
  induction items as [|[k0 v0] rest IH]; [done|]. cbn [List.filter fst].
  destruct (val_eqb k0 k) eqn:E; cbn [negb assoc].
  - apply val_eqb_eq in E. subst k0. by rewrite val_eqb_neq by congruence.
  - by rewrite IH.
Qed.

(** Whatever its outcome, [remove] keeps the sets of the plugin separate
    and typed, and does not write the plugin object itself. *)
Lemma remove_keeps h p key nm r h' :
  plugin_ok h p = true ->
  remove p key nm h = (r, h') ->
  h' !! p = h !! p
  /\ (separate_sets h p = true -> separate_sets h' p = true)
  /\ (typed_sets h p = true -> typed_sets h' p = true).
Proof.
  intros Hok Hrm.
  destruct (plugin_ok_inv _ _ Hok) as (m & n & v & d0 & mro0 & its & Hp & Hd0 & _).
  destruct (remove_cases _ _ _ _ _ _ Hok Hrm)
    as [(-> & _)|[(d & mro & kv & items & cs & -> & -> & Hc & Hd & Hk & ->)
                 |(name & a & cmro & elt & xs & c & xs' & -> & -> & Hs & Ha
                   & Hnext & Hrf & ->)]].
  - done.
  - split; [rewrite Hp; by eapply remapped_plugin|].
    assert (He : entries_of h (VRef d) = Some items)
      by (unfold entries_of; by rewrite Hd).
    split.
    + intros Hsep. apply separate_sets_inv in Hsep
        as (_ & d' & items' & Hc' & He' & Hnd).
      rewrite Hc in Hc'. injection Hc' as <-.
      rewrite He in He'. injection He' as <-.
      eapply separate_sets_intro.
      * by eapply plugin_ok_del_key.
      * by rewrite (remapped_components h d mro kv items _ Hd).
      * by apply (remapped_entries h d mro kv items).
      * by apply distinct_filter.
    + intros Hty. apply typed_sets_inv in Hty
        as (_ & d' & items' & Hc' & He' & Hall).
      rewrite Hc in Hc'. injection Hc' as <-.
      rewrite He in He'. injection He' as <-.
      eapply typed_sets_intro.
      * by eapply plugin_ok_del_key.
      * by rewrite (remapped_components h d mro kv items _ Hd).
      * by apply (remapped_entries h d mro kv items).
      * rewrite forallb_forall in Hall. apply forallb_forall. intros e Hin.
        apply filter_In in Hin as [Hin _]. pose proof (Hall _ Hin) as Hh.
        unfold holds_components in *.
        rewrite (remapped_items h d mro kv items _ Hd).
        destruct (items_of h (snd e)) as [ys|]; [|done]. rewrite <- Hh.
        apply forallb_eq. intros y _. by eapply remapped_isinstance.
  - split; [rewrite Hp; by eapply listed_plugin|].
    split; [intros Hsep; by eapply separate_listed|].
    intros Hty. eapply typed_listed; [done| |done].
    apply typed_sets_inv in Hty as (_ & d & items & Hc & He & Hall).
    assert (Hin : In (VStr key, VRef a) items).
    { revert Hs. unfold slot_of. rewrite Hc, He. apply assoc_In. }
    rewrite forallb_forall in Hall. pose proof (Hall _ Hin) as Hh.
    unfold holds_components, items_of in Hh. cbn [snd] in Hh.
    rewrite Ha in Hh. rewrite forallb_forall in Hh.
    apply forallb_forall. intros y Hy. apply Hh.
    by eapply remove_first_sub.
Qed.

(** ** Calls on one key and the other keys *)

(** Whatever its outcome, [add] on a key leaves every other key of a
    plugin with separate sets as it was. *)
Lemma add_other_keys h p key contrib r h' key' :
  separate_sets h p = true ->
  add p key contrib h = (r, h') ->
  key' <> key ->
  slot_of h' p key' = slot_of h p key'
  /\ field_of h' p key' = field_of h p key'.
Proof.
  intros Hsep Hadd Hne. pose proof Hsep as Hinv.
  apply separate_sets_inv in Hinv as (Hok & d & items & Hc & He & Hnd).
  destruct (add_run h p key contrib Hok)
    as (h0 & a & cmro & n & Hn & Hrun & Ha & Hs & Hok0 & Hev & Hso & Hf
        & Hat & Hown & Hdef & Hinst & Hitems & Hcase & Hp0 & _).
  assert (Hapart : slot_of h0 p key' <> Some (VRef a)).
  { rewrite (Hso key' Hne). intros Hs'.
    destruct (slot_of h p key) as [cs|] eqn:Hslot.
    - destruct Hcase as [-> _]. apply Hne.
      by apply (separate_slots h p key' key (VRef a)).
    - destruct Hcase as [-> _].
      apply slot_in_entries in Hs' as (d' & items' & Hc' & He' & Hin).
      rewrite Hc in Hc'. injection Hc' as <-.
      destruct (sets_allocated _ _ _ _ _ Hok Hc He' Hin) as (_ & a0 & E & Hlt).
      cbn [snd] in E. injection E as <-. lia. }
  rewrite Hrun, (add_tail_run _ _ _ _ _ _ _ Ha) in Hadd.
  destruct (has_attach h0 contrib) eqn:E.
  - destruct (attach_stamps h0 contrib n E) as (c & i & -> & Hc0 & Hai & Hatt).
    rewrite Hatt in Hadd. cbn [snd] in Hadd.
    apart a c.
    assert (Ha1 : <[c := OInst (stamp n i)]> h0 !! a
                  = Some (OList cmro (Some Component) (field_of h p key)))
      by hyp.
    pose proof (stamped_slot h0 c i n Hc0 p key' Hok0) as Hs1.
    pose proof (stamped_field h0 c i n Hc0 p key' Hok0) as Hf1.
    destruct (isinstance h0 (VRef c) Component); injection Hadd as <- <-.
    + split.
      * erewrite listed_slot by done. rewrite Hs1. by apply Hso.
      * erewrite listed_field_other by (done || by rewrite Hs1).
        rewrite Hf1. by apply Hf.
    + split; [rewrite Hs1; by apply Hso | rewrite Hf1; by apply Hf].
  - injection Hadd as <- <-. split; [by apply Hso | by apply Hf].
Qed.

(** Whatever its outcome, [remove] on a key leaves every other key of a
    plugin with separate sets as it was. *)
Lemma remove_other_keys h p key nm r h' key' :
  separate_sets h p = true ->
  remove p key nm h = (r, h') ->
  key' <> key ->
  slot_of h' p key' = slot_of h p key'
  /\ field_of h' p key' = field_of h p key'.
Proof.
  intros Hsep Hrm Hne. pose proof Hsep as Hinv.
  apply separate_sets_inv in Hinv as (Hok & d0 & items0 & Hc0 & He0 & Hnd).
  destruct (remove_cases _ _ _ _ _ _ Hok Hrm)
    as [(-> & _)|[(d & mro & kv & items & cs & -> & -> & Hc & Hd & Hk & ->)
                 |(name & a & cmro & elt & xs & c & xs' & -> & -> & Hs & Ha
                   & Hnext & Hrf & ->)]].
  - done.
  - assert (Hs' : slot_of (<[d := ODict mro kv (assoc_del (VStr key) items)]> h)
                    p key' = slot_of h p key').
    { unfold slot_of. rewrite (remapped_components h d mro kv items _ Hd), Hc.
      rewrite (remapped_entries h d mro kv items _ Hd). unfold entries_of.
      rewrite Hd. apply assoc_del_other. congruence. }
    split; [done|]. unfold field_of. rewrite Hs'.
    destruct (slot_of h p key') as [cs'|]; [|done].
    by rewrite (remapped_items h d mro kv items _ Hd).
  - split; [by erewrite listed_slot|].
    erewrite listed_field_other; [done|done|].
    intros Hs'. apply Hne. by apply (separate_slots h p key' key (VRef a)).
Qed.

Lemma name_of_same_instances (h h0 : heap) x :
  (forall l i, h0 !! l = Some (OInst i) <-> h !! l = Some (OInst i)) ->
  name_of h0 x = name_of h x.
Proof.
  intros Hinst. destruct x as [| | |l]; try done. unfold name_of.
  destruct (h0 !! l) as [[i| | |]|] eqn:E0.
  - apply Hinst in E0. by rewrite E0.
  - destruct (h !! l) as [[i| | |]|] eqn:E; try done.
    apply Hinst in E. congruence.
  - destruct (h !! l) as [[i| | |]|] eqn:E; try done.
    apply Hinst in E. congruence.
  - destruct (h !! l) as [[i| | |]|] eqn:E; try done.
    apply Hinst in E. congruence.
  - destruct (h !! l) as [[i| | |]|] eqn:E; try done.
    apply Hinst in E. congruence.
Qed.

Lemma is_component_isinstance h x :
  is_component h x = true ->
  has_attach h x = true /\ isinstance h x Component = true
  /\ defined_in h x = true.
Proof.
  intros Hx. apply is_component_inv in Hx as (c & i & -> & Hc & Hm & Ha & _).
  unfold has_attach, isinstance, mro_of, defined_in. by rewrite Hc.
Qed.

(** [add] of a component, in full. *)
Lemma add_component h p key x :
  plugin_ok h p = true -> is_component h x = true ->
  exists h' n a cmro c i,
    add p key x h = (Ok (VRef p), h')
    /\ plugin_name h p = Some n
    /\ x = VRef c /\ h !! c = Some (OInst i)
    /\ h' !! c = Some (OInst (stamp n i))
    /\ slot_of h' p key = Some (VRef a)
    /\ h' !! a = Some (OList cmro (Some Component) (field_of h p key ++ [x]))
    /\ plugin_ok h' p = true
    /\ evolves h h'
    /\ h' !! p = h !! p
    /\ (forall y, name_of h' y = name_of h y)
    /\ (forall y, y <> x -> owner_of h' y = owner_of h y)
    /\ (forall y C, defined_in h y = true ->
          isinstance h' y C = isinstance h y C)
    /\ (slot_of h p key = None -> a = length h)
    /\ exists d items,
         components_of h p = Some (VRef d)
         /\ entries_of h (VRef d) = Some items
         /\ entries_of h' (VRef d)
            = Some (match slot_of h p key with
                    | Some _ => items
                    | None => items ++ [(VStr key, VRef a)]
                    end).
Proof.
  intros Hok Hx.
  destruct (is_component_isinstance _ _ Hx) as (Hat_x & Hi_x & Hd_x).
  destruct (add_run h p key x Hok)
    as (h0 & a & cmro & n & Hn & Hrun & Ha & Hs & Hok0 & Hev & Hso & Hf
        & Hat & Hown & Hdef & Hinst & Hitems & Hcase & Hp0
        & d0 & items0 & Hcomp & Hent & Hent0).
  destruct (Hdef x Component Hd_x) as [_ Hi0].
  rewrite Hrun, (add_tail_run _ _ _ _ _ _ _ Ha), Hat, Hat_x, Hi0, Hi_x.
  rewrite <- Hat in Hat_x.
  destruct (attach_stamps h0 x n Hat_x) as (c & i & -> & Hc0 & Hai & Hatt).
  rewrite Hatt. cbn [snd]. apart a c.
  assert (Ha1 : <[c := OInst (stamp n i)]> h0 !! a
                = Some (OList cmro (Some Component) (field_of h p key)))
    by hyp.
  destruct (plugin_ok_inv _ _ Hok) as (m & n' & v & d & mro & its & Hp & _).
  assert (Hp0' : h0 !! p = Some (OPlugin m n' v (VRef d))) by congruence.
  eexists _, n, a, cmro, c, i. split; [done|]. split; [done|].
  split; [done|]. split; [by apply Hinst|].
  split; [bounds; apart c a; by look|].
  split; [erewrite listed_slot by done; by rewrite stamped_slot|].
  split; [bounds; by look|].
  split; [eapply plugin_ok_set_list; [by apply stamped_ok|done]|].
  split.
  { eapply evolves_trans; [done|].
    eapply evolves_trans; [by apply (evolves_stamp h0 c i n)|].
    by eapply evolves_append. }
  split.
  { rewrite Hp. eapply listed_plugin; [done|]. by eapply stamped_plugin. }
  split.
  { intros y. erewrite listed_name by done.
    rewrite (stamped_name h0 c i n Hc0). by apply name_of_same_instances. }
  split.
  { intros y Hy. erewrite listed_owner by done.
    rewrite stamped_owner_other by done. apply Hown. }
  split.
  { intros y C Hy. erewrite listed_isinstance by done.
    rewrite (stamped_isinstance h0 c i n Hc0). by apply Hdef. }
  split; [intros Hnone; rewrite Hnone in Hcase; by destruct Hcase|].
  exists d0, items0. split; [done|]. split; [done|].
  erewrite listed_entries by done.
  rewrite (stamped_entries h0 c i n Hc0), Hent0.
  destruct (slot_of h p key); [done|]. by destruct Hcase as [-> _].
Qed.

(** ** [add] and what is not a component *)



(** ** Invariants under every sequence of calls *)

(** Whatever sequence of [add]s and [remove]s is run on a plugin, with
    whatever arguments and outcomes, the plugin stays well formed, no two
    of its keys ever share a component set, and the plugin object itself
    is never written: its model, name and version stay what they were, and
    its [components] attribute keeps referring to the same mapping. *)
Theorem calls_keep_sets_separate p os h :
  separate_sets h p = true ->
  separate_sets (run_ops p os h) p = true
  /\ run_ops p os h !! p = h !! p.
Proof.
  revert h. induction os as [|o os IH]; intros h Hsep; [done|].
  cbn [run_ops]. destruct (run_op p o h) as [r h1] eqn:Hrun. cbn [snd].
  assert (Hstep : separate_sets h1 p = true /\ h1 !! p = h !! p).
  { destruct o as [key contrib|key nm]; cbn [run_op] in Hrun.
    - by eapply add_keeps_separate.
    - pose proof Hsep as Hinv. apply separate_sets_inv in Hinv as [Hok _].
      destruct (remove_keeps _ _ _ _ _ _ Hok Hrun) as (Hp & Hs & _).
      split; [by apply Hs|done]. }
  destruct Hstep as [Hsep1 Hp1]. destruct (IH h1 Hsep1) as [Hsep' Hp'].
  split; [done|congruence].
Qed.

(** Five calls on the plugin that holds two commands under ["cmds"]: an
    [add] that ends in [TypeError], a [remove] that ends in
    [StopIteration], an [add] of [None], the deletion of ["cmds"], and an
    [add] that succeeds. *)
Lemma calls_keep_sets_separate_witness :
  separate_sets two_commands_store 4 = true
  /\ separate_sets
       (run_ops 4 [Add "tools" (VRef 3); Remove "cmds" (Some "nobody");
                   Add "cmds" VNone; Remove "cmds" None;
                   Add "cmds" (VRef 2)] two_commands_store) 4 = true
  /\ run_ops 4 [Add "tools" (VRef 3); Remove "cmds" (Some "nobody");
                Add "cmds" VNone; Remove "cmds" None;
                Add "cmds" (VRef 2)] two_commands_store !! 4
     = two_commands_store !! 4.
Proof.
  split; [reflexivity|].
  apply (calls_keep_sets_separate 4
           [Add "tools" (VRef 3); Remove "cmds" (Some "nobody");
            Add "cmds" VNone; Remove "cmds" None; Add "cmds" (VRef 2)]
           two_commands_store).
  reflexivity.
Defined.

(** Whatever sequence of [add]s and [remove]s is run on a plugin, with
    whatever arguments and outcomes, every item of every set of the plugin
    is an instance of [Component]: [add] stores its argument through the
    type-checked [append] only, and [remove] stores nothing. *)
Theorem calls_keep_sets_typed p os h :
  typed_sets h p = true ->
  typed_sets (run_ops p os h) p = true.
Proof.
  revert h. induction os as [|o os IH]; intros h Hty; [done|].
  cbn [run_ops]. destruct (run_op p o h) as [r h1] eqn:Hrun. cbn [snd].
  apply IH. destruct o as [key contrib|key nm]; cbn [run_op] in Hrun.
  - by eapply add_keeps_typed.
  - pose proof Hty as Hinv. apply typed_sets_inv in Hinv as [Hok _].
    destruct (remove_keeps _ _ _ _ _ _ Hok Hrun) as (_ & _ & Ht).
    by apply Ht.
Qed.

(** The lookalike and then [CommandC] are added to the plugin that holds
    two commands, and [CommandA] is removed. *)
Lemma calls_keep_sets_typed_witness :
  typed_sets two_commands_store 4 = true
  /\ typed_sets
       (run_ops 4 [Add "cmds" (VRef 3); Add "cmds" (VRef 2);
                   Remove "cmds" (Some "CommandA")] two_commands_store) 4
     = true.
Proof.
  split; [reflexivity|].
  apply (calls_keep_sets_typed 4
           [Add "cmds" (VRef 3); Add "cmds" (VRef 2);
            Remove "cmds" (Some "CommandA")] two_commands_store).
  reflexivity.
Defined.

(** A call on one key, whatever its arguments and its outcome, leaves
    every other key of a plugin with separate sets as it was: the same
    set, or none, with the same components in the same order. *)
Theorem call_leaves_other_keys h p o key' :
  separate_sets h p = true ->
  key' <> op_key o ->
  slot_of (snd (run_op p o h)) p key' = slot_of h p key'
  /\ field_of (snd (run_op p o h)) p key' = field_of h p key'.
Proof.
  intros Hsep Hne. destruct (run_op p o h) as [r h'] eqn:Hrun. cbn [snd].
  destruct o as [key contrib|key nm]; cbn [run_op op_key] in *.
  - by eapply add_other_keys.
  - by eapply remove_other_keys.
Qed.

(** [CommandC] is added under ["tools"]; ["cmds"] keeps its two
    commands. *)
Lemma call_leaves_other_keys_witness :
  separate_sets two_commands_store 4 = true
  /\ "cmds" <> op_key (Add "tools" (VRef 2))
  /\ slot_of (snd (run_op 4 (Add "tools" (VRef 2)) two_commands_store))
       4 "cmds"
     = slot_of two_commands_store 4 "cmds"
  /\ field_of (snd (run_op 4 (Add "tools" (VRef 2)) two_commands_store))
       4 "cmds"
     = field_of two_commands_store 4 "cmds".
Proof.
  split; [reflexivity|]. split; [discriminate|].
  apply (call_leaves_other_keys two_commands_store 4 (Add "tools" (VRef 2))
           "cmds"); [reflexivity|discriminate].
Defined.

(** ** [remove] and the handler of line 165 *)

(** On a well-formed plugin [remove] never raises [ValueError], the
    exception its docstring announces for a component that is not found:
    [next] either raises [StopIteration], which the handler does not
    catch, or returns an item of the set, which [list.remove] then
    finds. *)
Theorem remove_never_raises_ValueError h p key nm :
  plugin_ok h p = true ->
  fst (remove p key nm h) <> Raise ValueError.
Proof.
  intros Hok. destruct (remove p key nm h) as [r h'] eqn:Hrm. cbn [fst].
  destruct (remove_cases _ _ _ _ _ _ Hok Hrm)
    as [(_ & _ & Hr)|[(d & mro & kv & items & cs & _ & -> & _)
                     |(name & a & cmro & elt & xs & c & xs' & _ & -> & _)]];
    done.
Qed.

(** [remove("cmds", "absent-name")] on the plugin that holds two
    commands. *)
Lemma remove_never_raises_ValueError_witness :
  plugin_ok two_commands_store 4 = true
  /\ fst (remove 4 "cmds" (Some "absent-name") two_commands_store)
     <> Raise ValueError.
Proof.
  split; [reflexivity|].
  apply (remove_never_raises_ValueError two_commands_store 4 "cmds"
           (Some "absent-name")).
  reflexivity.
Defined.

(** ** [add] then [remove] *)

(** [add(key, c)] followed by [remove(key, c.name)] gives back the
    components that the key held, in their order, provided none of them
    has the name of [c].  It does not give back the state: the key is in
    the mapping even if it was not before, and [c] keeps the name of the
    plugin as its owner, since [remove] detaches nothing. *)
Theorem add_then_remove_by_name h p key c nm :
  plugin_ok h p = true ->
  is_component h c = true ->
  name_of h c = Some nm ->
  no_component_named h nm (field_of h p key) = true ->
  exists h',
    (add p key c >> remove p key (Some nm)) h = (Ok (VRef p), h')
    /\ field_of h' p key = field_of h p key
    /\ is_Some (slot_of h' p key)
    /\ owner_of h' c = plugin_name h p.
Proof.
  intros Hok Hc Hnm Hnone.
  destruct (add_component h p key c Hok Hc)
    as (h1 & n & a & cmro & l & i & Hadd & Hn & -> & Hl & Hl1 & Hs1 & Ha1
        & Hok1 & Hev & Hp1 & Hname & Hown & Hinst).
  pose proof Hs1 as Hs.
  apply slot_of_inv in Hs as (m & n' & v & d & mro & kv & items & Hp & Hd & Hk).
  bounds. apart a l.
  exists (<[a := OList cmro (Some Component) (field_of h p key ++ [])]> h1).
  split; [|split; [|split]].
  - rewrite (bind_ok _ _ _ _ _ Hadd).
    eapply (remove_run_found h1 p d a m n' v mro kv items cmro
              (Some Component) _ key nm Hp Hd Hk Ha1
              (field_of h p key) (VRef l) []); [done| |by rewrite Hname].
    unfold no_component_named. rewrite <- Hnone. apply forallb_eq.
    intros y _. by rewrite Hname.
  - erewrite listed_field_same by done. apply app_nil_r.
  - erewrite listed_slot by done. by rewrite Hs1.
  - erewrite listed_owner by done. unfold owner_of. by rewrite Hl1, Hn.
Qed.

(** [CommandC] is added under ["cmds"] and removed again by its name. *)
Lemma add_then_remove_by_name_witness :
  plugin_ok two_commands_store 4 = true
  /\ is_component two_commands_store (VRef 2) = true
  /\ name_of two_commands_store (VRef 2) = Some "CommandC"
  /\ no_component_named two_commands_store "CommandC"
       (field_of two_commands_store 4 "cmds") = true
  /\ exists h',
       (add 4 "cmds" (VRef 2) >> remove 4 "cmds" (Some "CommandC"))
         two_commands_store = (Ok (VRef 4), h')
       /\ field_of h' 4 "cmds" = field_of two_commands_store 4 "cmds"
       /\ is_Some (slot_of h' 4 "cmds")
       /\ owner_of h' (VRef 2) = plugin_name two_commands_store 4.
Proof.
  split; [reflexivity|]. split; [reflexivity|]. split; [reflexivity|].
  split; [reflexivity|].
  apply (add_then_remove_by_name two_commands_store 4 "cmds" (VRef 2)
           "CommandC"); reflexivity.
Defined.

(** ** What [get] hands out *)

(** The list that [get] returns for a key that is not in the mapping is
    the caller's alone.  Appending to it succeeds whatever the value, and
    changes no object that existed before the call: the key is still not
    in the mapping, and the next [get] of the key returns another list,
    empty again. *)
Theorem get_default_is_detached h p key x :
  plugin_ok h p = true ->
  slot_of h p key = None ->
  exists r h' r2 h'',
    (let* r := get p key in list_append r x >> ret r) h = (Ok r, h')
    /\ items_of h' r = Some [x]
    /\ (forall l o, h !! l = Some o -> h' !! l = Some o)
    /\ slot_of h' p key = None
    /\ get p key h' = (Ok r2, h'')
    /\ r2 <> r
    /\ items_of h'' r2 = Some [].
Proof.
  intros Hok Hs.
  apply plugin_ok_inv in Hok as (m & n & v & d & mro & items & Hp & Hd & Hall).
  assert (Hk : assoc (VStr key) items = None).
  { revert Hs. readers. by rewrite Hp, Hd. }
  bounds.
  set (h1 := h ++ [OList list_mro None []]).
  set (h2 := <[length h := OList list_mro None [x]]> h1).
  assert (Hget : get p key h = (Ok (VRef (length h)), h1)).
  { erewrite get_run by done. by rewrite Hk. }
  assert (Hp2 : h2 !! p = Some (OPlugin m n v (VRef d)))
    by (subst h2 h1; hyp).
  assert (Hd2 : h2 !! d = Some (ODict mro (Some (str, ComponentSet)) items))
    by (subst h2 h1; hyp).
  exists (VRef (length h)), h2, (VRef (length h2)),
    (h2 ++ [OList list_mro None []]).
  split; [|split; [|split; [|split; [|split; [|split]]]]].
  - rewrite (bind_ok _ _ _ _ _ Hget).
    erewrite bind_ok; [reflexivity|].
    erewrite list_append_run by (subst h1; hyp). done.
  - unfold items_of. subst h2 h1. by look.
  - intros l o Hl. bounds. subst h2 h1. by look.
  - readers. by rewrite Hp2, Hd2.
  - erewrite get_run by done. by rewrite Hk.
  - intros [= E]. subst h2 h1. revert E. len.
  - unfold items_of. by look.
Qed.

(** [get("missing")] on the plugin that only has ["cmds"], and the
    string ["anything"] appended to the result. *)
Lemma get_default_is_detached_witness :
  plugin_ok two_commands_store 4 = true
  /\ slot_of two_commands_store 4 "missing" = None
  /\ exists r h' r2 h'',
       (let* r := get 4 "missing" in list_append r (VStr "anything") >> ret r)
         two_commands_store = (Ok r, h')
       /\ items_of h' r = Some [VStr "anything"]
       /\ (forall l o, two_commands_store !! l = Some o -> h' !! l = Some o)
       /\ slot_of h' 4 "missing" = None
       /\ get 4 "missing" h' = (Ok r2, h'')
       /\ r2 <> r
       /\ items_of h'' r2 = Some [].
Proof.
  split; [reflexivity|]. split; [reflexivity|].
  apply (get_default_is_detached two_commands_store 4 "missing"
           (VStr "anything")); reflexivity.
Defined.

Lemma isinstance_Component_alloc (h : heap) x :
  isinstance (h ++ [OList list_mro None []]) x Component
  = isinstance h x Component.
Proof.
  destruct x as [| | |l]; try done. unfold isinstance, mro_of.
  destruct (h !! l) as [o|] eqn:E.
  - bounds. by rewrite lookup_app_l, E.
  - destruct ((h ++ [OList list_mro None []]) !! l) as [o|] eqn:E'; [|done].
    apply lookup_ge_None in E. pose proof (lookup_lt_Some _ _ _ E') as Hlt.
    rewrite length_app in Hlt. cbn [length] in Hlt.
    assert (l = length h) as -> by lia.
    rewrite list_lookup_middle in E' by done. by injection E' as <-.
Qed.

(** For a key of the mapping, [get] hands out the stored set itself, so an
    [append] on the result is an [append] on the plugin: a [Component] is
    added after the components of the key, anything else is refused with
    [TypeError] and changes nothing.  Unlike [add], this way of adding
    does not call [attach]: the owner of the value is what it was. *)
Theorem append_through_get_skips_attach h p key cs x :
  plugin_ok h p = true ->
  slot_of h p key = Some cs ->
  exists h',
    (let* r := get p key in list_append r x) h
    = (if isinstance h x Component then Ok tt else Raise TypeError, h')
    /\ field_of h' p key
       = (if isinstance h x Component then field_of h p key ++ [x]
          else field_of h p key)
    /\ owner_of h' x = owner_of h x.
Proof.
  intros Hok Hs.
  apply plugin_ok_inv in Hok as (m & n & v & d & mro & items & Hp & Hd & Hall).
  assert (Hk : assoc (VStr key) items = Some cs).
  { revert Hs. readers. by rewrite Hp, Hd. }
  pose proof (slot_is_component_set _ _ _ _ Hall Hk) as Hcs.
  apply is_component_set_inv in Hcs as (a & cmro & xs & -> & Ha).
  bounds. apart a p. apart a d. apart p d.
  set (h1 := h ++ [OList list_mro None []]).
  assert (Hget : get p key h = (Ok (VRef a), h1)).
  { erewrite get_run by done. by rewrite Hk. }
  assert (Ha1 : h1 !! a = Some (OList cmro (Some Component) xs))
    by (subst h1; hyp).
  assert (Hf : field_of h p key = xs) by (readers; by settle).
  assert (Hown1 : owner_of h1 x = owner_of h x).
  { destruct x as [| | |l]; try done. unfold owner_of. subst h1.
    destruct (h !! l) as [o|] eqn:E.
    - bounds. by rewrite lookup_app_l, E.
    - destruct ((h ++ [OList list_mro None []]) !! l) as [o|] eqn:E'; [|done].
      apply lookup_ge_None in E. pose proof (lookup_lt_Some _ _ _ E') as Hlt.
      rewrite length_app in Hlt. cbn [length] in Hlt.
      assert (l = length h) as -> by lia.
      rewrite list_lookup_middle in E' by done. by injection E' as <-. }
  rewrite (bind_ok _ _ _ _ _ Hget), (list_append_run _ _ _ _ _ x Ha1).
  subst h1. rewrite isinstance_Component_alloc.
  destruct (isinstance h x Component).
  - eexists. split; [done|]. split.
    + erewrite listed_field_same; [by rewrite Hf|done|].
      readers. by settle.
    + erewrite listed_owner by done. done.
  - eexists. split; [done|]. split; [|done]. readers. by settle.
Qed.

(** [CommandC] is appended to what [get("cmds")] returns. *)
Lemma append_through_get_skips_attach_witness :
  plugin_ok two_commands_store 4 = true
  /\ slot_of two_commands_store 4 "cmds" = Some (VRef 6)
  /\ exists h',
       (let* r := get 4 "cmds" in list_append r (VRef 2)) two_commands_store
       = (if isinstance two_commands_store (VRef 2) Component
          then Ok tt else Raise TypeError, h')
       /\ field_of h' 4 "cmds"
          = (if isinstance two_commands_store (VRef 2) Component
             then field_of two_commands_store 4 "cmds" ++ [VRef 2]
             else field_of two_commands_store 4 "cmds")
       /\ owner_of h' (VRef 2) = owner_of two_commands_store (VRef 2).
Proof.
  split; [reflexivity|]. split; [reflexivity|].
  apply (append_through_get_skips_attach two_commands_store 4 "cmds"
           (VRef 6) (VRef 2)); reflexivity.
Defined.

(** ** What [filter] hands out *)

Lemma filter_run h p d mro kv items category m n v :
  h !! p = Some (OPlugin m n v (VRef d)) ->
  h !! d = Some (ODict mro kv items) ->
  forallb (fun kv => is_component_set h (snd kv)) items = true ->
  filter p (Some category) h
  = (Ok (VRef (length h)),
     h ++ [ODict dict_mro None
             (List.filter (fun kv => holds_instance h category (snd kv))
                items)]).
Proof.
  intros Hp Hd Hall. unfold filter.
  step self_components_run. step dict_items_run.
  by rewrite (bind_ok _ _ _ _ _ (filter_items_run h category items Hall)).
Qed.

Lemma check_hashable_run (h more : heap) k :
  hashable h k = true -> check_hashable k (h ++ more) = (Ok tt, h ++ more).
Proof.
  destruct k as [| | |l]; try done. unfold hashable, check_hashable.
  destruct (h !! l) as [o|] eqn:E; [|done]. intros Ho.
  erewrite bind_ok by (unfold deref; by rewrite (lookup_app_l_Some _ _ _ _ E)).
  by destruct o.
Qed.

(** With a category, [filter] hands out a dict of its own, and a plain
    one, whatever its signature says: any value can be assigned under any
    key of the result that is an atom or a plugin (a list or a dict is
    no key: it is unhashable), and the assignment changes no object that
    existed before the call, so the plugin does not see it. *)
Theorem filter_result_is_detached h p category k v :
  plugin_ok h p = true ->
  hashable h k = true ->
  exists r h' kept,
    (let* r := filter p (Some category) in dict_setitem r k v >> ret r) h
    = (Ok r, h')
    /\ entries_of h' r = Some kept
    /\ assoc k kept = Some v
    /\ isinstance h' r "TypeConstrainedDict" = false
    /\ forall l o, h !! l = Some o -> h' !! l = Some o.
Proof.
  intros Hok Hk.
  apply plugin_ok_inv in Hok as (m & n & v0 & d & mro & items & Hp & Hd & Hall).
  set (kept := List.filter (fun kv => holds_instance h category (snd kv)) items).
  exists (VRef (length h)),
    (<[length h := ODict dict_mro None (assoc_set k v kept)]>
       (h ++ [ODict dict_mro None kept])),
    (assoc_set k v kept).
  split; [|split; [|split; [|split]]].
  - erewrite bind_ok by (by eapply filter_run).
    erewrite bind_ok; [reflexivity|].
    unfold dict_setitem.
    erewrite bind_ok by (unfold deref; by rewrite list_lookup_middle).
    cbv beta iota. cbn [option_map].
    erewrite bind_ok by reflexivity.
    erewrite bind_ok by reflexivity.
    erewrite bind_ok by (by apply check_hashable_run).
    done.
  - unfold entries_of. by look.
  - apply assoc_set_same.
  - unfold isinstance, mro_of. by look.
  - intros l o Hl. bounds. by look.
Qed.

(** The result of [filter(Command)] is assigned the number 7 under
    ["cmds"]. *)
Lemma filter_result_is_detached_witness :
  plugin_ok two_commands_store 4 = true
  /\ hashable two_commands_store (VStr "cmds") = true
  /\ exists r h' kept,
       (let* r := filter 4 (Some "Command") in
        dict_setitem r (VStr "cmds") (VInt 7) >> ret r) two_commands_store
       = (Ok r, h')
       /\ entries_of h' r = Some kept
       /\ assoc (VStr "cmds") kept = Some (VInt 7)
       /\ isinstance h' r "TypeConstrainedDict" = false
       /\ forall l o, two_commands_store !! l = Some o -> h' !! l = Some o.
Proof.
  split; [reflexivity|]. split; [reflexivity|].
  apply (filter_result_is_detached two_commands_store 4 "Command"
           (VStr "cmds") (VInt 7)); reflexivity.
Defined.

Lemma existsb_of_forallb {A} (f : A -> bool) xs :
  forallb f xs = true ->
  existsb f xs = match xs with [] => false | _ :: _ => true end.
Proof.
  destruct xs as [|x xs]; [done|]. cbn [forallb existsb].
  intros H. apply andb_true_iff in H as [-> _]. done.
Qed.

(** On a plugin whose sets are typed, [filter(Component)] keeps exactly
    the keys whose set is not empty, in the order of the mapping: a key
    whose components have all been removed by name is still in the
    mapping, and is left out of the result. *)
Theorem filter_Component_keeps_nonempty h p :
  typed_sets h p = true ->
  exists comps items h',
    components_of h p = Some comps
    /\ entries_of h comps = Some items
    /\ (let* r := filter p (Some Component) in dict_items r) h
       = (Ok (List.filter (fun kv => holds_something h (snd kv)) items), h').
Proof.
  intros Hty. apply typed_sets_inv in Hty as (Hok & d & items & Hc & He & Hty).
  apply plugin_ok_inv in Hok as (m & n & v & d' & mro & items' & Hp & Hd & Hall).
  assert (d' = d) as -> by (revert Hc; readers; rewrite Hp; congruence).
  assert (items' = items) as ->
    by (revert He; readers; rewrite Hd; congruence).
  exists (VRef d), items. eexists. split; [done|]. split; [done|].
  erewrite bind_ok by (by eapply filter_run).
  erewrite dict_items_run by (by rewrite list_lookup_middle).
  f_equal. f_equal. apply filter_ext_in. intros e Hin.
  rewrite forallb_forall in Hty. pose proof (Hty _ Hin) as Hh.
  unfold holds_components in Hh. unfold holds_instance, holds_something.
  destruct (items_of h (snd e)) as [xs|]; [|done].
  by apply existsb_of_forallb.
Qed.

(** The plugin whose key ["tools"] has been emptied: [filter(Component)]
    keeps ["cmds"] alone. *)
Lemma filter_Component_keeps_nonempty_witness :
  typed_sets emptied_key_store 4 = true
  /\ exists comps items h',
       components_of emptied_key_store 4 = Some comps
       /\ entries_of emptied_key_store comps = Some items
       /\ (let* r := filter 4 (Some Component) in dict_items r)
            emptied_key_store
          = (Ok (List.filter
                   (fun kv => holds_something emptied_key_store (snd kv))
                   items), h').
Proof.
  split; [reflexivity|].
  apply (filter_Component_keeps_nonempty emptied_key_store 4). reflexivity.
Defined.

(** ** The constructor *)

Lemma add_kwargs_cons p key value rest :
  add_kwargs p ((key, value) :: rest)
  = add p key value >> add_kwargs p rest.
Proof. reflexivity. Qed.

Lemma given_under_cons key' key value rest :
  given_under key' ((key, value) :: rest)
  = if String.eqb key key' then value :: given_under key' rest
    else given_under key' rest.
Proof.
  unfold given_under. cbn [List.filter fst]. by destruct (String.eqb key key').
Qed.

Lemma In_take {A} (x : A) k l : In x (take k l) -> In x l.
Proof.
  revert l. induction k as [|k IH]; intros [|y l]; cbn [take]; try done.
  intros [->|Hin]; [by left|]. right. by apply IH.
Qed.

(** The calls that the loop of the constructor makes. *)
Lemma add_kwargs_ops p kwargs :
  forall h r h',
    add_kwargs p kwargs h = (r, h') ->
    exists k,
      h' = run_ops p (map (fun kv => Add (fst kv) (snd kv)) (take k kwargs)) h.
Proof.
  induction kwargs as [|[key value] rest IH]; intros h r h' Hrun.
  - exists 0. by injection Hrun as _ <-.
  - rewrite add_kwargs_cons in Hrun. unfold bind in Hrun.
    destruct (add p key value h) as [[a|e|] h1] eqn:Hadd.
    + destruct (IH _ _ _ Hrun) as (k & ->). exists (S k).
      cbn [take map run_ops run_op fst snd]. by rewrite Hadd.
    + injection Hrun as _ <-. exists 1.
      cbn [take map run_ops run_op fst snd]. rewrite Hadd.
      by destruct rest.
    + injection Hrun as _ <-. exists 1.
      cbn [take map run_ops run_op fst snd]. rewrite Hadd.
      by destruct rest.
Qed.

(** The loop of the constructor on keyword arguments that are all
    components. *)
Lemma add_kwargs_run p kwargs :
  forall h,
    separate_sets h p = true -> typed_sets h p = true ->
    forallb (fun kv => is_component h (snd kv)) kwargs = true ->
    exists h' n,
      add_kwargs p kwargs h = (Ok tt, h')
      /\ plugin_name h p = Some n
      /\ evolves h h'
      /\ h' !! p = h !! p
      /\ separate_sets h' p = true
      /\ typed_sets h' p = true
      /\ (forall key,
            field_of h' p key = field_of h p key ++ given_under key kwargs)
      /\ (forall kv, In kv kwargs -> owner_of h' (snd kv) = Some n)
      /\ (forall y, (forall kv, In kv kwargs -> snd kv <> y) ->
            owner_of h' y = owner_of h y).
Proof.
  induction kwargs as [|[key x] rest IH]; intros h Hsep Hty Hall.
  - pose proof Hsep as Hinv. apply separate_sets_inv in Hinv as [Hok _].
    destruct (plugin_ok_inv _ _ Hok) as (m & n & v & d & mro & its & Hp & _).
    exists h, n. split; [done|]. split; [readers; by rewrite Hp|].
    split; [apply evolves_refl|]. repeat split; try done.
    intros key. unfold given_under. cbn. by rewrite app_nil_r.
  - cbn [forallb snd] in Hall. apply andb_true_iff in Hall as [Hx Hrest].
    pose proof Hsep as Hinv. apply separate_sets_inv in Hinv as [Hok _].
    destruct (add_component h p key x Hok Hx)
      as (h1 & n & a & cmro & c & i & Hadd & Hn & -> & Hc & Hc1 & Hs1 & Ha1
          & Hok1 & Hev1 & Hp1 & Hname1 & Hown1 & Hinst1).
    destruct (add_keeps_separate _ _ _ _ _ _ Hsep Hadd) as [Hsep1 _].
    pose proof (add_keeps_typed _ _ _ _ _ _ Hty Hadd) as Hty1.
    assert (Hrest1 : forallb (fun kv => is_component h1 (snd kv)) rest = true).
    { rewrite forallb_forall in Hrest. apply forallb_forall. intros kv Hin.
      eapply is_component_evolves; [done|]. by apply Hrest. }
    destruct (IH h1 Hsep1 Hty1 Hrest1)
      as (h' & n1 & Hrun & Hn1 & Hev & Hp' & Hsep' & Hty' & Hf & Hown & Hframe).
    assert (n1 = n) as ->.
    { revert Hn1 Hn. unfold plugin_name. rewrite Hp1. congruence. }
    exists h', n. rewrite add_kwargs_cons, (bind_ok _ _ _ _ _ Hadd).
    split; [done|]. split; [done|].
    split; [by eapply evolves_trans|]. split; [congruence|].
    split; [done|]. split; [done|]. split; [|split].
    + intros key'. rewrite Hf, given_under_cons.
      destruct (String.eqb key key') eqn:E.
      * apply String.eqb_eq in E. subst key'.
        assert (Hf1 : field_of h1 p key = field_of h p key ++ [VRef c]).
        { unfold field_of. rewrite Hs1. unfold items_of. by rewrite Ha1. }
        by rewrite Hf1, <- app_assoc.
      * apply String.eqb_neq in E.
        destruct (add_other_keys _ _ _ _ _ _ key' Hsep Hadd) as [_ ->];
          [congruence|done].
    + intros kv [<-|Hin]; [|by apply Hown]. cbn [snd].
      destruct (existsb (fun kv' => val_eqb (snd kv') (VRef c)) rest) eqn:E.
      * apply existsb_exists in E as (kv' & Hin & E).
        apply val_eqb_eq in E. rewrite <- E. by apply Hown.
      * rewrite Hframe.
        -- unfold owner_of. by rewrite Hc1.
        -- intros kv' Hin Heq.
           assert (existsb (fun kv' => val_eqb (snd kv') (VRef c)) rest = true);
             [|congruence].
           apply existsb_exists. exists kv'. split; [done|].
           by apply val_eqb_eq.
    + intros y Hy. rewrite Hframe by (intros kv Hin; apply Hy; by right).
      apply Hown1. intros ->. by apply (Hy (key, VRef c)); [left|].
Qed.

Section Constructor.
Variables (h : heap) (model : val) (name : string) (version : option string).

(** The store after lines 94-97. *)
Local Abbreviation h_init :=
  (<[length h := OPlugin model name version (VRef (S (length h)))]>
     ((h ++ [OPlugin model name version VNone])
        ++ [ODict TypeConstrainedDict_mro (Some (str, ComponentSet)) []])).

Lemma Plugin_init_run kwargs :
  bindable kwargs = true ->
  Plugin_init model name version kwargs h
  = (add_kwargs (length h) kwargs >> ret (length h)) h_init.
Proof.
  intros Hb. unfold Plugin_init. rewrite Hb.
  erewrite bind_ok by reflexivity.
  erewrite bind_ok; cycle 1.
  { unfold new_TypeConstrainedDict. erewrite bind_ok by reflexivity.
    reflexivity. }
  erewrite bind_ok by reflexivity.
  rewrite length_app. cbn [length].
  by replace (length h + 1) with (S (length h)) by lia.
Qed.

Lemma init_plugin :
  h_init !! length h = Some (OPlugin model name version (VRef (S (length h)))).
Proof. rewrite list_lookup_insert_eq; [done|len]. Qed.

Lemma init_mapping :
  h_init !! S (length h)
  = Some (ODict TypeConstrainedDict_mro (Some (str, ComponentSet)) []).
Proof.
  rewrite list_lookup_insert_ne by lia.
  replace (S (length h)) with (length (h ++ [OPlugin model name version VNone]))
    by len.
  by rewrite list_lookup_middle.
Qed.

Lemma init_old l : l < length h -> h_init !! l = h !! l.
Proof.
  intros Hl. rewrite list_lookup_insert_ne by lia.
  rewrite lookup_app_l by len. by rewrite lookup_app_l.
Qed.

Lemma init_ok : plugin_ok h_init (length h) = true.
Proof. unfold plugin_ok, components_of. by rewrite init_plugin, init_mapping. Qed.

Lemma init_separate : separate_sets h_init (length h) = true.
Proof.
  unfold separate_sets. rewrite init_ok. unfold components_of, entries_of.
  by rewrite init_plugin, init_mapping.
Qed.

Lemma init_typed : typed_sets h_init (length h) = true.
Proof.
  unfold typed_sets. rewrite init_ok. unfold components_of, entries_of.
  by rewrite init_plugin, init_mapping.
Qed.

Lemma init_clear : clear_of h_init (length h) 0 (length h).
Proof.
  split; [apply init_ok|]. split; [len|].
  unfold components_of, entries_of. rewrite init_plugin.
  intros d [= <-]. split; [lia|]. rewrite init_mapping.
  by intros items e l [= <-] [].
Qed.

Lemma init_evolves : evolves h h_init.
Proof.
  split; [len|]. intros l o Hl. exists o. bounds.
  split; [by rewrite init_old | apply grows_to_refl].
Qed.

Lemma init_is_component x : is_component h x = true -> is_component h_init x = true.
Proof. apply is_component_evolves, init_evolves. Qed.

Lemma init_owner x : defined_in h x = true -> owner_of h_init x = owner_of h x.
Proof.
  destruct x as [| | |l]; try done. unfold defined_in, owner_of.
  destruct (h !! l) as [o|] eqn:E; [|done]. intros _. bounds.
  by rewrite init_old, E.
Qed.

Lemma init_components :
  components_of h_init (length h) = Some (VRef (S (length h))).
Proof. unfold components_of. by rewrite init_plugin. Qed.

Lemma init_entries : entries_of h_init (VRef (S (length h))) = Some [].
Proof. unfold entries_of. by rewrite init_mapping. Qed.

Lemma init_slot key : slot_of h_init (length h) key = None.
Proof. unfold slot_of. by rewrite init_components, init_entries. Qed.

Lemma init_name x : name_of h x = name_of h_init x \/ name_of h x = None.
Proof.
  destruct x as [| | |l]; try (by left). unfold name_of.
  destruct (h !! l) as [o|] eqn:E; [|by right]. left. bounds.
  by rewrite init_old, E.
Qed.

Lemma init_field key : field_of h_init (length h) key = [].
Proof. readers. by rewrite init_plugin, init_mapping. Qed.

(** What the loop of the constructor leaves of the store it started
    from: everything, except the arguments it has stamped. *)
Lemma init_frame kwargs r h' l :
  add_kwargs (length h) kwargs h_init = (r, h') ->
  l < length h ->
  (forall key, ~ In (key, VRef l) kwargs) ->
  h' !! l = h !! l.
Proof.
  intros Hrun Hl Hnot.
  destruct (add_kwargs_ops _ _ _ _ _ Hrun) as (k & ->).
  rewrite <- (init_old l Hl).
  apply (run_ops_clear (length h) 0 (length h)); [apply init_clear|lia|].
  left. intros key Hin. apply in_map_iff in Hin as ([key' x] & E & Hin).
  cbn [fst snd] in E. injection E as -> ->.
  apply (Hnot key). by eapply In_take.
Qed.

End Constructor.

(** The constructor without keyword arguments. *)
Lemma Plugin_init_empty h model name version :
  exists h0,
    Plugin_init model name version [] h = (Ok (length h), h0)
    /\ plugin_ok h0 (length h) = true
    /\ evolves h h0
    /\ components_of h0 (length h) = Some (VRef (S (length h)))
    /\ entries_of h0 (VRef (S (length h))) = Some []
    /\ (forall key, slot_of h0 (length h) key = None)
    /\ (forall key, field_of h0 (length h) key = [])
    /\ (forall x n, name_of h x = Some n -> name_of h0 x = Some n).
Proof.
  eexists. split; [by rewrite Plugin_init_run|].
  split; [apply init_ok|]. split; [apply init_evolves|].
  split; [apply init_components|]. split; [apply init_entries|].
  split; [apply init_slot|]. split; [apply init_field|].
  intros x n Hn. destruct (init_name h model name version x) as [E|E];
    congruence.
Qed.

Lemma grows_to_kind n0 h' o o' :
  grows_to n0 h' o o' ->
  obj_mro o' = obj_mro o
  /\ match o, o' with
     | OInst i, OInst i' => i_attach i' = i_attach i
     | OInst _, _ | _, OInst _ => False
     | _, _ => True
     end.
Proof.
  destruct o, o'; cbn [grows_to obj_mro]; try done.
  - by intros (-> & _ & ->).
  - by intros (-> & _).
  - by intros (-> & _).
Qed.

Lemma evolves_reads h h' x :
  evolves h h' -> defined_in h x = true ->
  defined_in h' x = true
  /\ has_attach h' x = has_attach h x
  /\ forall C, isinstance h' x C = isinstance h x C.
Proof.
  intros [_ He]. destruct x as [| | |l]; try done.
  unfold defined_in, has_attach, isinstance, mro_of.
  destruct (h !! l) as [o|] eqn:E; [|done]. intros _.
  destruct (He _ _ E) as (o' & -> & Hg).
  apply grows_to_kind in Hg as [Hm Hk]. rewrite Hm.
  split; [done|]. split; [|done].
  destruct o, o'; try done. 
Qed.



(** [Plugin(model, name, version, **kwargs)] with components as keyword
    arguments returns a new plugin with that model, name and version and
    a mapping of its own.  The plugin is well formed, with separate and
    typed sets; under every key it holds what the arguments give under
    that key (a call gives at most one value under a key), and every
    argument carries the name of the plugin as its owner.  Of the store
    it started from, the constructor writes nothing but the arguments it
    stamps.  The keywords are such as a call can leave to [**kwargs]:
    none names a parameter of the constructor, none is given twice. *)
Theorem Plugin_init_builds h model name version kwargs :
  bindable kwargs = true ->
  forallb (fun kv => is_component h (snd kv)) kwargs = true ->
  exists h',
    Plugin_init model name version kwargs h = (Ok (length h), h')
    /\ h' !! length h
       = Some (OPlugin model name version (VRef (S (length h))))
    /\ separate_sets h' (length h) = true
    /\ typed_sets h' (length h) = true
    /\ (forall key, field_of h' (length h) key = given_under key kwargs)
    /\ (forall kv, In kv kwargs -> owner_of h' (snd kv) = Some name)
    /\ (forall l o, h !! l = Some o ->
          (forall key, ~ In (key, VRef l) kwargs) -> h' !! l = Some o).
Proof.
  intros Hb Hall. rewrite Plugin_init_run by done.
  set (h0 := <[length h := _]> _).
  assert (Hall0 : forallb (fun kv => is_component h0 (snd kv)) kwargs = true).
  { rewrite forallb_forall in Hall. apply forallb_forall. intros kv Hin.
    apply init_is_component. by apply Hall. }
  destruct (add_kwargs_run (length h) kwargs h0
              (init_separate h model name version)
              (init_typed h model name version) Hall0)
    as (h' & n & Hrun & Hn & Hev & Hp & Hsep & Hty & Hf & Hown & _).
  assert (n = name) as ->.
  { revert Hn. unfold plugin_name. subst h0. rewrite init_plugin. congruence. }
  exists h'. rewrite (bind_ok _ _ _ _ _ Hrun).
  split; [done|]. split; [rewrite Hp; apply init_plugin|].
  split; [done|]. split; [done|]. split; [|split; [done|]].
  - intros key. rewrite Hf. subst h0. by rewrite init_field.
  - intros l o Hl Hnot. bounds. rewrite <- Hl.
    by eapply init_frame.
Qed.

(** [Plugin(model=None, name="p", version="1.0", cmds=CommandA,
    tools=CommandB)]. *)
Lemma Plugin_init_builds_witness :
  bindable [("cmds", VRef 0); ("tools", VRef 1)] = true
  /\ forallb (fun kv => is_component provider_store (snd kv))
       [("cmds", VRef 0); ("tools", VRef 1)] = true
  /\ exists h',
       Plugin_init VNone "p" (Some "1.0")
         [("cmds", VRef 0); ("tools", VRef 1)] provider_store
       = (Ok (length provider_store), h')
       /\ h' !! length provider_store
          = Some (OPlugin VNone "p" (Some "1.0")
                    (VRef (S (length provider_store))))
       /\ separate_sets h' (length provider_store) = true
       /\ typed_sets h' (length provider_store) = true
       /\ (forall key,
             field_of h' (length provider_store) key
             = given_under key [("cmds", VRef 0); ("tools", VRef 1)])
       /\ (forall kv, In kv [("cmds", VRef 0); ("tools", VRef 1)] ->
             owner_of h' (snd kv) = Some "p")
       /\ (forall l o, provider_store !! l = Some o ->
             (forall key,
                ~ In (key, VRef l) [("cmds", VRef 0); ("tools", VRef 1)]) ->
             h' !! l = Some o).
Proof.
  split; [reflexivity|]. split; [reflexivity|].
  apply (Plugin_init_builds provider_store VNone "p" (Some "1.0")
           [("cmds", VRef 0); ("tools", VRef 1)]); reflexivity.
Defined.



(** ** The methods in sequence *)

Section Extended.
Variables (h more : heap).

Lemma components_of_app p c :
  components_of h p = Some c -> components_of (h ++ more) p = Some c.
Proof.
  unfold components_of. destruct (h !! p) as [o|] eqn:E; [|done].
  by rewrite (lookup_app_l_Some _ _ _ _ E).
Qed.

Lemma entries_of_app x items :
  entries_of h x = Some items -> entries_of (h ++ more) x = Some items.
Proof.
  destruct x as [| | |l]; try done. unfold entries_of.
  destruct (h !! l) as [o|] eqn:E; [|done].
  by rewrite (lookup_app_l_Some _ _ _ _ E).
Qed.

Lemma items_of_app x xs :
  items_of h x = Some xs -> items_of (h ++ more) x = Some xs.
Proof.
  destruct x as [| | |l]; try done. unfold items_of.
  destruct (h !! l) as [o|] eqn:E; [|done].
  by rewrite (lookup_app_l_Some _ _ _ _ E).
Qed.

Lemma name_of_app x n :
  name_of h x = Some n -> name_of (h ++ more) x = Some n.
Proof.
  destruct x as [| | |l]; try done. unfold name_of.
  destruct (h !! l) as [o|] eqn:E; [|done].
  by rewrite (lookup_app_l_Some _ _ _ _ E).
Qed.

Lemma slot_of_app p key cs :
  slot_of h p key = Some cs -> slot_of (h ++ more) p key = Some cs.
Proof.
  unfold slot_of. destruct (components_of h p) as [c|] eqn:Hc; [|done].
  rewrite (components_of_app _ _ Hc).
  destruct (entries_of h c) as [items|] eqn:He; [|done].
  by rewrite (entries_of_app _ _ He).
Qed.

Lemma isinstance_app x C :
  isinstance h x C = true -> isinstance (h ++ more) x C = true.
Proof.
  destruct x as [| | |l]; try done. unfold isinstance, mro_of.
  destruct (h !! l) as [o|] eqn:E; [|done].
  by rewrite (lookup_app_l_Some _ _ _ _ E).
Qed.

End Extended.

(** The scenario that runs through the whole interface, for any store,
    any key and any two components [ca] and [cb] (they may be the same
    one): a plugin is created and [ca] then [cb] are added under the key;
    [get] yields [ca] then [cb]; after [remove] with the name of [ca],
    [get] yields [cb]; [filter] with a category of [cb] then has exactly
    the one key, and its set holds [cb]. *)
Theorem end_to_end_scenario h model name version key ca cb na category :
  is_component h ca = true ->
  is_component h cb = true ->
  name_of h ca = Some na ->
  isinstance h cb category = true ->
  exists h' cs,
    (let* p := Plugin_init model name version [] in
     add p key ca >>
     add p key cb >>
     let* r1 := get p key in
     let* xs1 := list_items r1 in
     remove p key (Some na) >>
     let* r2 := get p key in
     let* xs2 := list_items r2 in
     let* f := filter p (Some category) in
     let* kept := dict_items f in
     ret (xs1, xs2, kept)) h
    = (Ok ([ca; cb], [cb], [(VStr key, cs)]), h')
    /\ items_of h' cs = Some [cb].
Proof.
  intros Hca Hcb Hna Hcat.
  (* the constructor *)
  destruct (Plugin_init_empty h model name version)
    as (h0 & Hinit & Hok0 & Hev0 & Hcomp0 & Hent0 & Hslot & Hfield & Hnames).
  set (p := length h) in *.
  pose proof (Hslot key) as Hslot0. pose proof (Hfield key) as Hf0.
  pose proof (Hnames _ _ Hna) as Hna0.
  (* the first add *)
  destruct (add_component h0 p key ca Hok0 (is_component_evolves _ _ _ Hev0 Hca))
    as (h1 & n & a & cmro & c & i & Hadd1 & _ & _ & _ & _ & Hs1 & Ha1
        & Hok1 & Hev1 & _ & Hname1 & _ & _ & _ & d & items & Hc0 & He0 & Hent1).
  rewrite Hcomp0 in Hc0. injection Hc0 as <-.
  rewrite Hent0 in He0. injection He0 as <-.
  rewrite Hslot0 in Hent1. rewrite Hf0 in Ha1. cbn [app] in Ha1, Hent1.
  pose proof (components_of_evolves _ _ _ _ Hev1 Hcomp0) as Hcomp1.
  assert (Hf1 : field_of h1 p key = [ca]).
  { unfold field_of. rewrite Hs1. unfold items_of. by rewrite Ha1. }
  pose proof (evolves_trans _ _ _ Hev0 Hev1) as Hev01.
  (* the second add *)
  destruct (add_component h1 p key cb Hok1 (is_component_evolves _ _ _ Hev01 Hcb))
    as (h2 & n2 & a2 & cmro2 & c2 & i2 & Hadd2 & _ & _ & _ & _ & Hs2 & Ha2
        & Hok2 & Hev2 & _ & Hname2 & _ & _ & _ & d2 & items2 & Hc1 & He1 & Hent2).
  rewrite Hcomp1 in Hc1. injection Hc1 as <-.
  rewrite Hent1 in He1. injection He1 as <-.
  rewrite Hs1 in Hent2. rewrite Hf1 in Ha2. cbn [app] in Ha2.
  pose proof (components_of_evolves _ _ _ _ Hev2 Hcomp1) as Hcomp2.
  assert (a2 = a) as ->.
  { revert Hs2. unfold slot_of. rewrite Hcomp2, Hent2. cbn [assoc].
    rewrite val_eqb_refl. congruence. }
  assert (Hf2 : field_of h2 p key = [ca; cb]).
  { unfold field_of. rewrite Hs2. unfold items_of. by rewrite Ha2. }
  pose proof (evolves_trans _ _ _ Hev01 Hev2) as Hev02.
  assert (Hcat2 : isinstance h2 cb category = true).
  { destruct (evolves_reads _ _ cb Hev02 (isinstance_defined _ _ _ Hcat))
      as (_ & _ & ->). done. }
  assert (Hna2 : name_of h2 ca = Some na) by (by rewrite Hname2, Hname1).
  (* the first get *)
  set (h3 := h2 ++ [OList list_mro None []]).
  destruct (get_field h2 p key Hok2) as (r1 & Hget1 & Hitems1).
  fold h3 in Hget1, Hitems1. rewrite Hf2 in Hitems1.
  (* remove *)
  pose proof Hs2 as Hinv.
  apply slot_of_inv in Hinv as (m & n' & v & d' & mro & kv & its & Hp2 & Hd2 & Hk).
  set (h4 := <[a := OList cmro2 (Some Component) ([] ++ [cb])]> h3).
  assert (Ha3 : h3 !! a = Some (OList cmro2 (Some Component) [ca; cb]))
    by (by apply lookup_app_l_Some).
  assert (Hrm : remove p key (Some na) h3 = (Ok (VRef p), h4)).
  { eapply (remove_run_found h3 p d' a m n' v mro kv its cmro2
              (Some Component) [ca; cb] key na); try done.
    - by apply lookup_app_l_Some.
    - by apply lookup_app_l_Some.
    - by apply name_of_app. }
  assert (Hok4 : plugin_ok h4 p = true).
  { eapply plugin_ok_set_list; [|done].
    eapply plugin_ok_evolves; [apply evolves_app|done]. }
  assert (Hs4 : slot_of h4 p key = Some (VRef a)).
  { subst h4. erewrite listed_slot by done. by apply slot_of_app. }
  assert (Hf4 : field_of h4 p key = [cb]).
  { subst h4. erewrite listed_field_same; [done|done|by apply slot_of_app]. }
  (* the second get *)
  set (h5 := h4 ++ [OList list_mro None []]).
  destruct (get_field h4 p key Hok4) as (r2 & Hget2 & Hitems2).
  fold h5 in Hget2, Hitems2. rewrite Hf4 in Hitems2.
  (* filter *)
  assert (Hok5 : plugin_ok h5 p = true).
  { eapply plugin_ok_evolves; [apply evolves_app|done]. }
  assert (Hcomp5 : components_of h5 p = Some (VRef (S p))).
  { apply components_of_app. subst h4.
    erewrite listed_components by done. by apply components_of_app. }
  assert (Hent5 : entries_of h5 (VRef (S p)) = Some [(VStr key, VRef a)]).
  { apply entries_of_app. subst h4.
    erewrite listed_entries by done. by apply entries_of_app. }
  assert (Ha5 : items_of h5 (VRef a) = Some [cb]).
  { apply items_of_app. subst h4. by erewrite listed_items. }
  assert (Hcat5 : isinstance h5 cb category = true).
  { apply isinstance_app. subst h4. erewrite listed_isinstance by done.
    by apply isinstance_app. }
  destruct (plugin_ok_inv _ _ Hok5)
    as (m5 & n5 & v5 & d5 & mro5 & its5 & Hp5 & Hd5 & Hall5).
  assert (d5 = S p) as ->.
  { revert Hcomp5. unfold components_of. rewrite Hp5. congruence. }
  assert (its5 = [(VStr key, VRef a)]) as ->.
  { revert Hent5. unfold entries_of. rewrite Hd5. congruence. }
  pose proof (filter_run h5 p (S p) mro5 _ _ category m5 n5 v5 Hp5 Hd5 Hall5)
    as Hfilter.
  cbn [List.filter snd] in Hfilter. unfold holds_instance in Hfilter.
  rewrite Ha5 in Hfilter. cbn [existsb] in Hfilter.
  rewrite Hcat5 in Hfilter. cbn [orb] in Hfilter.
  (* the whole run *)
  exists (h5 ++ [ODict dict_mro None [(VStr key, VRef a)]]), (VRef a).
  split.
  - rewrite (bind_ok _ _ _ _ _ Hinit), (bind_ok _ _ _ _ _ Hadd1),
      (bind_ok _ _ _ _ _ Hadd2), (bind_ok _ _ _ _ _ Hget1),
      (bind_ok _ _ _ _ _ (list_items_of _ _ _ Hitems1)),
      (bind_ok _ _ _ _ _ Hrm), (bind_ok _ _ _ _ _ Hget2),
      (bind_ok _ _ _ _ _ (list_items_of _ _ _ Hitems2)),
      (bind_ok _ _ _ _ _ Hfilter).
    erewrite bind_ok; [reflexivity|].
    eapply dict_items_run. by rewrite list_lookup_middle.
  - by apply items_of_app.
Qed.

(** The scenario on the provider's store, with [CommandA], [CommandB]
    and the category [Command]. *)
Lemma end_to_end_scenario_witness :
  is_component provider_store (VRef 0) = true
  /\ is_component provider_store (VRef 1) = true
  /\ name_of provider_store (VRef 0) = Some "CommandA"
  /\ isinstance provider_store (VRef 1) "Command" = true
  /\ exists h' cs,
       (let* p := Plugin_init VNone "p" (Some "1.0") [] in
        add p "cmds" (VRef 0) >>
        add p "cmds" (VRef 1) >>
        let* r1 := get p "cmds" in
        let* xs1 := list_items r1 in
        remove p "cmds" (Some "CommandA") >>
        let* r2 := get p "cmds" in
        let* xs2 := list_items r2 in
        let* f := filter p (Some "Command") in
        let* kept := dict_items f in
        ret (xs1, xs2, kept)) provider_store
       = (Ok ([VRef 0; VRef 1], [VRef 1], [(VStr "cmds", cs)]), h')
       /\ items_of h' cs = Some [VRef 1].
Proof.
  split; [reflexivity|]. split; [reflexivity|]. split; [reflexivity|].
  split; [reflexivity|].
  apply (end_to_end_scenario provider_store VNone "p" (Some "1.0") "cmds"
           (VRef 0) (VRef 1) "CommandA" "Command"); reflexivity.
Defined.

(** ** What the clone holds *)

Lemma clone_lookup (h : heap) l :
  (h ++ map (shift_obj (length h)) h) !! (l + length h)
  = option_map (shift_obj (length h)) (h !! l).
Proof.
  rewrite lookup_app_r by lia.
  replace (l + length h - length h) with l by lia.
  rewrite list_lookup_fmap. by destruct (h !! l).
Qed.

Lemma clone_name (h : heap) x :
  name_of (h ++ map (shift_obj (length h)) h) (shift_val (length h) x)
  = name_of h x.
Proof.
  destruct x as [| | |l]; try done. unfold name_of. cbn [shift_val].
  rewrite clone_lookup. by destruct (h !! l) as [[i| | |]|].
Qed.

Lemma clone_owner (h : heap) x :
  owner_of (h ++ map (shift_obj (length h)) h) (shift_val (length h) x)
  = owner_of h x.
Proof.
  destruct x as [| | |l]; try done. unfold owner_of. cbn [shift_val].
  rewrite clone_lookup. by destruct (h !! l) as [[i| | |]|].
Qed.

(** The clone that [copy] returns has the name and the version of the
    original and, under every key, components with the same names and the
    same owners as the components of the original, in the same order.
    They are new objects: none of them was in the store before the
    copy, so the clone shares no component with the original. *)
Theorem copy_duplicates_components h p :
  plugin_ok h p = true ->
  exists h' m n v c m' c',
    copy p h = (Ok (VRef (p + length h)), h')
    /\ h !! p = Some (OPlugin m n v c)
    /\ h' !! (p + length h) = Some (OPlugin m' n v c')
    /\ forall key,
         map (name_of h') (field_of h' (p + length h) key)
         = map (name_of h) (field_of h p key)
         /\ map (owner_of h') (field_of h' (p + length h) key)
            = map (owner_of h) (field_of h p key)
         /\ forall l, In (VRef l) (field_of h' (p + length h) key) ->
                      length h <= l.
Proof.
  intros Hok.
  destruct (plugin_ok_inv _ _ Hok) as (m & n & v & d & mro & items & Hp & _).
  exists (h ++ map (shift_obj (length h)) h), m, n, v, (VRef d),
    (shift_val (length h) m), (VRef (d + length h)).
  split; [done|]. split; [done|].
  split; [by rewrite clone_lookup, Hp|].
  intros key. rewrite (field_of_clone h p key Hok), !map_map.
  split; [|split].
  - apply map_ext. intros x. apply clone_name.
  - apply map_ext. intros x. apply clone_owner.
  - intros l Hin. apply in_map_iff in Hin as (x & E & _).
    destruct x as [| | |l0]; try done. cbn [shift_val] in E.
    injection E as <-. lia.
Qed.

(** The plugin that holds [CommandA] and [CommandB] under ["cmds"] is
    copied. *)
Lemma copy_duplicates_components_witness :
  plugin_ok two_commands_store 4 = true
  /\ exists h' m n v c m' c',
       copy 4 two_commands_store
       = (Ok (VRef (4 + length two_commands_store)), h')
       /\ two_commands_store !! 4 = Some (OPlugin m n v c)
       /\ h' !! (4 + length two_commands_store) = Some (OPlugin m' n v c')
       /\ forall key,
            map (name_of h') (field_of h' (4 + length two_commands_store) key)
            = map (name_of two_commands_store)
                (field_of two_commands_store 4 key)
            /\ map (owner_of h')
                 (field_of h' (4 + length two_commands_store) key)
               = map (owner_of two_commands_store)
                   (field_of two_commands_store 4 key)
            /\ forall l,
                 In (VRef l)
                   (field_of h' (4 + length two_commands_store) key) ->
                 length two_commands_store <= l.
Proof.
  split; [reflexivity|].
  apply (copy_duplicates_components two_commands_store 4). reflexivity.
Defined.

(** ** More on [add] and [remove] in sequence *)

(** Names need not be unique under a key: when the key already holds a
    component named like [c], [add(key, c)] followed by
    [remove(key, c.name)] does not take [c] out again.  It takes out the
    oldest component of that name, and [c] stays, last. *)
Theorem remove_takes_oldest_namesake h p key pre c0 post c nm :
  plugin_ok h p = true ->
  field_of h p key = pre ++ c0 :: post ->
  no_component_named h nm pre = true ->
  name_of h c0 = Some nm ->
  is_component h c = true ->
  name_of h c = Some nm ->
  exists h',
    (add p key c >> remove p key (Some nm)) h = (Ok (VRef p), h')
    /\ field_of h' p key = pre ++ post ++ [c].
Proof.
  intros Hok Hfield Hpre Hc0 Hc Hnm.
  destruct (add_component h p key c Hok Hc)
    as (h1 & n & a & cmro & l & i & Hadd & Hn & -> & Hl & Hl1 & Hs1 & Ha1
        & Hok1 & Hev & Hp1 & Hname & _).
  pose proof Hs1 as Hs.
  apply slot_of_inv in Hs as (m & n' & v & d & mro & kv & items & Hp & Hd & Hk).
  exists (<[a := OList cmro (Some Component) (pre ++ post ++ [VRef l])]> h1).
  split.
  - rewrite (bind_ok _ _ _ _ _ Hadd).
    eapply (remove_run_found h1 p d a m n' v mro kv items cmro
              (Some Component) _ key nm Hp Hd Hk Ha1 pre c0
              (post ++ [VRef l])).
    + by rewrite Hfield, <- app_assoc.
    + unfold no_component_named. rewrite <- Hpre. apply forallb_eq.
      intros y _. by rewrite Hname.
    + by rewrite Hname.
  - by erewrite listed_field_same.
Qed.

(** The second command named ["CommandA"] is added under ["cmds"], which
    holds the first one and [CommandB], and ["CommandA"] is removed: the
    first one goes, the second one stays. *)
Lemma remove_takes_oldest_namesake_witness :
  plugin_ok namesake_store 4 = true
  /\ field_of namesake_store 4 "cmds" = [] ++ VRef 0 :: [VRef 1]
  /\ no_component_named namesake_store "CommandA" [] = true
  /\ name_of namesake_store (VRef 0) = Some "CommandA"
  /\ is_component namesake_store (VRef 7) = true
  /\ name_of namesake_store (VRef 7) = Some "CommandA"
  /\ exists h',
       (add 4 "cmds" (VRef 7) >> remove 4 "cmds" (Some "CommandA"))
         namesake_store = (Ok (VRef 4), h')
       /\ field_of h' 4 "cmds" = [] ++ [VRef 1] ++ [VRef 7].
Proof.
  split; [reflexivity|]. split; [reflexivity|]. split; [reflexivity|].
  split; [reflexivity|]. split; [reflexivity|]. split; [reflexivity|].
  apply (remove_takes_oldest_namesake namesake_store 4 "cmds" []
           (VRef 0) [VRef 1] (VRef 7) "CommandA"); reflexivity.
Defined.

(** [remove(key)] deletes the key, not the set: a reference to the set
    taken before, through [get] or [filter], still holds the components.
    An [add] under the same key afterwards starts from a new empty set,
    so the key holds the added component alone, and the old set is left
    as it was. *)
Theorem remove_key_then_add_starts_afresh h p key cs xs c :
  plugin_ok h p = true ->
  slot_of h p key = Some cs ->
  items_of h cs = Some xs ->
  is_component h c = true ->
  exists h1 h',
    remove p key None h = (Ok (VRef p), h1)
    /\ items_of h1 cs = Some xs
    /\ add p key c h1 = (Ok (VRef p), h')
    /\ field_of h' p key = [c]
    /\ slot_of h' p key <> Some cs
    /\ items_of h' cs = Some xs.
Proof.
  intros Hok Hs Hxs Hc. pose proof Hok as Hinv.
  apply plugin_ok_inv in Hinv as (m & n & v & d & mro & items & Hp & Hd & Hall).
  assert (Hk : assoc (VStr key) items = Some cs).
  { revert Hs. readers. by rewrite Hp, Hd. }
  pose proof (slot_is_component_set _ _ _ _ Hall Hk) as Hcs.
  apply is_component_set_inv in Hcs as (a0 & cmro0 & ys & -> & Ha0).
  assert (ys = xs) as -> by (revert Hxs; unfold items_of; rewrite Ha0; congruence).
  bounds. apart p d. apart a0 d. apart a0 p.
  set (h1 := <[d := ODict mro (Some (str, ComponentSet))
                      (assoc_del (VStr key) items)]> h).
  assert (Hrm : remove p key None h = (Ok (VRef p), h1))
    by (by eapply remove_run_key).
  assert (Hok1 : plugin_ok h1 p = true).
  { apply plugin_ok_del_key; [done| |done]. readers. by rewrite Hp. }
  assert (Hs1 : slot_of h1 p key = None).
  { readers. subst h1. settle. apply assoc_del_gone. }
  assert (Ha1 : h1 !! a0 = Some (OList cmro0 (Some Component) xs))
    by (subst h1; hyp).
  assert (Hc1 : is_component h1 c = true).
  { subst h1. by erewrite remapped_is_component. }
  destruct (add_component h1 p key c Hok1 Hc1)
    as (h' & n1 & a & cmro & l & i & Hadd & Hn & -> & Hl & Hl' & Hs' & Ha'
        & Hok' & Hev & Hp' & Hname & Hown & Hinst & Hfresh & _).
  specialize (Hfresh Hs1).
  assert (Hf1 : field_of h1 p key = []) by (unfold field_of; by rewrite Hs1).
  rewrite Hf1 in Ha'. cbn [app] in Ha'.
  assert (Hlen : length h1 = length h) by (subst h1; len).
  assert (Ha0' : h' !! a0 = Some (OList cmro0 (Some Component) xs)).
  { rewrite <- Ha1.
    apply (add_effect h1 p key (VRef l) _ _ Hok1 Hadd); [lia|].
    intros [Ht|[Ht|[Ht [j Hj]]]].
    - revert Ht. subst h1. readers. settle. congruence.
    - congruence.
    - injection Ht as <-. congruence. }
  exists h1, h'. split; [done|].
  split; [unfold items_of; by rewrite Ha1|]. split; [done|].
  split; [unfold field_of; rewrite Hs'; unfold items_of; by rewrite Ha'|].
  split; [rewrite Hs'; intros [= ->]; lia|].
  unfold items_of. by rewrite Ha0'.
Qed.

(** ["cmds"] is deleted from the plugin that holds two commands under
    it, and [CommandC] is added under ["cmds"]. *)
Lemma remove_key_then_add_starts_afresh_witness :
  plugin_ok two_commands_store 4 = true
  /\ slot_of two_commands_store 4 "cmds" = Some (VRef 6)
  /\ items_of two_commands_store (VRef 6) = Some [VRef 0; VRef 1]
  /\ is_component two_commands_store (VRef 2) = true
  /\ exists h1 h',
       remove 4 "cmds" None two_commands_store = (Ok (VRef 4), h1)
       /\ items_of h1 (VRef 6) = Some [VRef 0; VRef 1]
       /\ add 4 "cmds" (VRef 2) h1 = (Ok (VRef 4), h')
       /\ field_of h' 4 "cmds" = [VRef 2]
       /\ slot_of h' 4 "cmds" <> Some (VRef 6)
       /\ items_of h' (VRef 6) = Some [VRef 0; VRef 1].
Proof.
  split; [reflexivity|]. split; [reflexivity|]. split; [reflexivity|].
  split; [reflexivity|].
  apply (remove_key_then_add_starts_afresh two_commands_store 4 "cmds"
           (VRef 6) [VRef 0; VRef 1] (VRef 2)); reflexivity.
Defined.
